(** * Applied machine learning notebooks: NumPy cells and notebook structure

    The repository is a set of Jupyter notebooks.  Its executable content is
    the code cells: short scripts that build arrays with NumPy, factor them
    with [svd], recombine the factors with [dot], and print the result.

    This development embeds
    - the array operations the cells use ([array], [zeros], [diag], [dot],
      [.T], slicing and slice assignment, elementwise arithmetic), over exact
      scalars, with NumPy's shape errors as explicit results;
    - the cells of the SVD and tensor notebooks as functions built from these
      operations, the library routines [svd] and [pinv] entering through
      their documented contracts;
    - the notebooks themselves as data: every code cell with its execution
      count, its source lines and, for Python cells, its statements. *)

From Stdlib Require Import String Ascii DecimalString.
From Stdlib Require Import List Arith Lia Bool ZArith QArith Qcanon.
From Stdlib Require Import Field Ring.
Import ListNotations.

Set Implicit Arguments.
Close Scope Qc_scope.
Close Scope Q_scope.
Open Scope nat_scope.

(** ** Results of Python evaluation *)

(** The exceptions the modelled operations can raise. *)
Inductive exn : Type :=
| ValueError          (* operands could not be broadcast, shapes not aligned *)
| DivideByZero        (* division by an exact zero *)
| LinAlgError         (* a library factorisation did not converge *)
| NameError (name : string)   (* name 'x' is not defined *)
| TypeError.          (* an operation on an object that does not support it *)

Inductive result (A : Type) : Type :=
| Ok (a : A)
| Raise (e : exn).
Arguments Ok {A} a.
Arguments Raise {A} e.

Definition bind {A B : Type} (r : result A) (k : A -> result B) : result B :=
  match r with
  | Ok a => k a
  | Raise e => Raise e
  end.

Notation "x <- r ;; k" := (bind r (fun x => k))
  (at level 61, r at next level, right associativity).
Notation "' p <- r ;; k" := (bind r (fun x => let p := x in k))
  (at level 61, p pattern, r at next level, right associativity).

(** ** Scalars

    The notebooks compute in binary64.  The model computes in an exact field:
    rounding is left out, every other step of a cell is kept. *)
Class Scalar : Type := {
  car : Type;
  fzero : car;
  fone : car;
  fadd : car -> car -> car;
  fmul : car -> car -> car;
  fsub : car -> car -> car;
  fopp : car -> car;
  fdiv : car -> car -> car;
  finv : car -> car;
  scalar_field : field_theory fzero fone fadd fmul fsub fopp fdiv finv eq;
  is_zero : car -> bool;
  is_zero_spec : forall x, is_zero x = true <-> x = fzero;
  ltb : car -> car -> bool          (* the order of the scalars, as a test *)
}.

Declare Scope car_scope.
Delimit Scope car_scope with K.
Bind Scope car_scope with car.
Notation "0" := fzero : car_scope.
Notation "1" := fone : car_scope.
Infix "+" := fadd : car_scope.
Infix "*" := fmul : car_scope.
Infix "-" := fsub : car_scope.
Infix "/" := fdiv : car_scope.

Section NumPy.
Context {K : Scalar}.
Add Field Kfield : (@scalar_field K).

Local Open Scope car_scope.

(** [sum n f] is [f 0 + ... + f (n-1)]. *)
Fixpoint sum (n : nat) (f : nat -> car) : car :=
  match n with
  | O => 0
  | S k => sum k f + f k
  end.

(** *** Arrays

    A two-dimensional [ndarray]: its shape and its rows.  A one-dimensional
    array (the vector [s] of singular values) is a [list car]. *)
Record ndarray : Type := mkarray {
  shape : nat * nat;
  data : list (list car)
}.

Definition shape0 (A : ndarray) : nat := fst (shape A).
Definition shape1 (A : ndarray) : nat := snd (shape A).

(** [array([[..], .., [..]])] *)
Definition array (rows : list (list car)) : ndarray :=
  mkarray (length rows, length (hd [] rows)) rows.

(** [A[i, j]]; zero outside the array, where Python raises and no cell reads. *)
Definition entry (A : ndarray) (i j : nat) : car :=
  nth j (nth i (data A) []) 0.

(** The rows of [A] are as many and as long as its shape says. *)
Definition wf (A : ndarray) : Prop :=
  length (data A) = shape0 A /\ Forall (fun r => length r = shape1 A) (data A).

(** The [m] by [n] array whose entry at [(i, j)] is [f i j]. *)
Definition tabulate (m n : nat) (f : nat -> nat -> car) : ndarray :=
  mkarray (m, n) (map (fun i => map (fun j => f i j) (seq 0 n)) (seq 0 m)).

(** [zeros((m, n))] *)
Definition zeros (sh : nat * nat) : ndarray :=
  mkarray sh (repeat (repeat 0 (snd sh)) (fst sh)).

(** [diag(s)] for a vector [s]: the square array with [s] on its diagonal. *)
Definition diag (s : list car) : ndarray :=
  tabulate (length s) (length s) (fun i j => if i =? j then nth i s 0 else 0).

(** [A.T] *)
Definition transpose (A : ndarray) : ndarray :=
  tabulate (shape1 A) (shape0 A) (fun i j => entry A j i).

(** The matrix product, without the shape check. *)
Definition matmul (A B : ndarray) : ndarray :=
  tabulate (shape0 A) (shape1 B)
    (fun i j => sum (shape1 A) (fun k => entry A i k * entry B k j)).

(** [A.dot(B)]: NumPy raises [ValueError] when the shapes are not aligned. *)
Definition dot (A B : ndarray) : result ndarray :=
  if shape1 A =? shape0 B then Ok (matmul A B) else Raise ValueError.

(** [A[:k, :]] and [A[:, :k]]; a slice bound beyond the array is clipped. *)
Definition rows_upto (k : nat) (A : ndarray) : ndarray :=
  tabulate (Nat.min k (shape0 A)) (shape1 A) (entry A).

Definition cols_upto (k : nat) (A : ndarray) : ndarray :=
  tabulate (shape0 A) (Nat.min k (shape1 A)) (entry A).

(** [A[:r, :c] = V].  The target is the clipped block; [V] must have its
    shape, or length one along an axis, which NumPy then repeats (broadcasts)
    along that axis; otherwise [ValueError]. *)
Definition setitem_block (A : ndarray) (r c : nat) (V : ndarray) : result ndarray :=
  let tr := Nat.min r (shape0 A) in
  let tc := Nat.min c (shape1 A) in
  if ((shape0 V =? tr) || (shape0 V =? 1)) && ((shape1 V =? tc) || (shape1 V =? 1))
  then Ok (tabulate (shape0 A) (shape1 A)
             (fun i j =>
                if (i <? tr) && (j <? tc)
                then entry V (if shape0 V =? tr then i else 0)
                             (if shape1 V =? tc then j else 0)
                else entry A i j))
  else Raise ValueError.

(** [1.0 / s], elementwise.  The reciprocal of zero has no exact value:
    NumPy signals divide-by-zero there (by default a RuntimeWarning and an
    [inf] entry), and the exact model stops with [DivideByZero]. *)
Fixpoint reciprocal (s : list car) : result (list car) :=
  match s with
  | [] => Ok []
  | x :: s' =>
      if is_zero x then Raise DivideByZero
      else d <- reciprocal s' ;; Ok (1 / x :: d)
  end.

(** The identity array, and the [m] by [n] array with [s] on its main
    diagonal and zeros elsewhere: the [Sigma] of [A = U . Sigma . V^T]. *)
Definition eye (n : nat) : ndarray :=
  tabulate n n (fun i j => if i =? j then 1 else 0).

Definition diag_embed (m n : nat) (s : list car) : ndarray :=
  tabulate m n (fun i j => if i =? j then nth i s 0 else 0).

(** *** The library routines, by their contracts

    [svd] and [pinv] are SciPy's and NumPy's.  A cell receives them as
    arguments; the theorems assume of them what their documentation states. *)

Definition orthogonal (Q : ndarray) : Prop :=
  matmul (transpose Q) Q = eye (shape0 Q) /\ matmul Q (transpose Q) = eye (shape0 Q).

(** [U, s, VT = svd(A)]: [U] is m by m and [VT] n by n, both orthogonal, [s]
    holds the min(m, n) singular values, and [A = U . Sigma . V^T] for the m
    by n [Sigma] with [s] on its main diagonal. *)
Definition svd_spec (A U : ndarray) (s : list car) (VT : ndarray) : Prop :=
  wf U /\ shape U = (shape0 A, shape0 A) /\
  wf VT /\ shape VT = (shape1 A, shape1 A) /\
  length s = Nat.min (shape0 A) (shape1 A) /\
  orthogonal U /\ orthogonal VT /\
  A = matmul (matmul U (diag_embed (shape0 A) (shape1 A) s)) VT.

(** The Moore-Penrose pseudoinverse [X] of [A], by its four conditions. *)
Definition is_pinv (A X : ndarray) : Prop :=
  wf X /\ shape X = (shape1 A, shape0 A) /\
  matmul (matmul A X) A = A /\
  matmul (matmul X A) X = X /\
  transpose (matmul A X) = matmul A X /\
  transpose (matmul X A) = matmul X A.

Definition svd_fn : Type := ndarray -> result (ndarray * list car * ndarray).
Definition pinv_fn : Type := ndarray -> result ndarray.

(** [amax(s)]: the largest entry of a vector of singular values (none is
    negative). *)
Definition amax (s : list car) : car :=
  fold_right (fun x m => if ltb m x then x else m) 0 s.

(** [s[..., newaxis] * M]: row [i] of [M] times [s[i]]. *)
Definition scale_rows (s : list car) (M : ndarray) : ndarray :=
  tabulate (shape0 M) (shape1 M) (fun i j => nth i s 0 * entry M i j).

(** [pinv(A, rcond)], NumPy's: from the factors of the reduced decomposition
    ([full_matrices=False]: the first min(m, n) columns of [U] and rows of
    [VT]), it inverts the singular values greater than [rcond] times the
    largest, sets the others to zero, and multiplies back. *)
Definition numpy_pinv (svd : svd_fn) (rcond : car) : pinv_fn :=
  fun A =>
    ' (U, s, VT) <- svd A ;;
    let k := Nat.min (shape0 A) (shape1 A) in
    let u := cols_upto k U in
    let vt := rows_upto k VT in
    let cutoff := rcond * amax s in
    let s := map (fun x => if ltb cutoff x then 1 / x else 0) s in
    dot (transpose vt) (scale_rows s (transpose u)).

(** *** Cells of the SVD notebook

    Each cell is a function of the matrix it defines and of the library
    routine it calls, and returns what it prints, in order. *)

(** Cell 6, "Singular-value decomposition". *)
Definition cell_svd (svd : svd_fn) (A : ndarray)
  : result (ndarray * ndarray * list car * ndarray) :=
  ' (U, s, VT) <- svd A ;;
  Ok (A, U, s, VT).

(** Cell 12, "Reconstruct SVD" for a rectangular matrix. *)
Definition cell_reconstruct_rect (svd : svd_fn) (A : ndarray)
  : result (ndarray * ndarray) :=
  ' (U, s, VT) <- svd A ;;
  let Sigma := zeros (shape0 A, shape1 A) in
  Sigma <- setitem_block Sigma (shape1 A) (shape1 A) (diag s) ;;
  SV <- dot Sigma VT ;;
  B <- dot U SV ;;
  Ok (A, B).

(** Cell 14, "Reconstruct SVD" for a square matrix. *)
Definition cell_reconstruct_square (svd : svd_fn) (A : ndarray)
  : result (ndarray * ndarray) :=
  ' (U, s, VT) <- svd A ;;
  let Sigma := diag s in
  SV <- dot Sigma VT ;;
  B <- dot U SV ;;
  Ok (A, B).

(** Cell 25, "Pseudoinverse". *)
Definition cell_pinv (pinv : pinv_fn) (A : ndarray) : result (ndarray * ndarray) :=
  B <- pinv A ;;
  Ok (A, B).

(** Cell 29, "Pseudoinverse via SVD". *)
Definition cell_pinv_svd (svd : svd_fn) (A : ndarray) : result (ndarray * ndarray) :=
  ' (U, s, VT) <- svd A ;;
  d <- reciprocal s ;;
  let D := zeros (shape A) in
  D <- setitem_block D (shape1 A) (shape1 A) (diag d) ;;
  VD <- dot (transpose VT) (transpose D) ;;
  B <- dot VD (transpose U) ;;
  Ok (A, B).

(** Cell 37, dimensionality reduction; [n_elements] is 2 in the notebook. *)
Definition cell_reduce (svd : svd_fn) (n_elements : nat) (A : ndarray)
  : result (ndarray * ndarray * ndarray * ndarray) :=
  ' (U, s, VT) <- svd A ;;
  let Sigma := zeros (shape0 A, shape1 A) in
  Sigma <- setitem_block Sigma (shape0 A) (shape0 A) (diag s) ;;
  let Sigma := cols_upto n_elements Sigma in
  let VT := rows_upto n_elements VT in
  SV <- dot Sigma VT ;;
  B <- dot U SV ;;
  T1 <- dot U Sigma ;;
  T2 <- dot A (transpose VT) ;;
  Ok (A, B, T1, T2).

(** *** The matrices the cells define

    An integer or decimal literal denotes the scalar of that value. *)
Fixpoint of_pos (p : positive) : car :=
  match p with
  | xH => 1
  | xO q => (1 + 1) * of_pos q
  | xI q => 1 + (1 + 1) * of_pos q
  end.

Definition of_Z (z : Z) : car :=
  match z with
  | Z0 => 0
  | Zpos p => of_pos p
  | Zneg p => fopp (of_pos p)
  end.

(** [array] of a nested list of integer literals. *)
Definition int_array (rows : list (list Z)) : ndarray :=
  array (map (map of_Z) rows).

(** [array] of a nested list of decimal literals with one digit after the
    point, given in tenths. *)
Definition tenths_array (rows : list (list Z)) : ndarray :=
  array (map (map (fun z => of_Z z / of_Z 10)) rows).

(** Cells 6 and 12: [array([[1, 2], [3, 4], [5, 6]])] *)
Definition cell_12_A : ndarray := int_array [[1; 2]; [3; 4]; [5; 6]]%Z.

(** Cell 14: [array([[1, 2, 3], [4, 5, 6], [7, 8, 9]])] *)
Definition cell_14_A : ndarray := int_array [[1; 2; 3]; [4; 5; 6]; [7; 8; 9]]%Z.

(** Cells 25 and 29: [array([[0.1, 0.2], [0.3, 0.4], [0.5, 0.6], [0.7, 0.8]])] *)
Definition cell_29_A : ndarray := tenths_array [[1; 2]; [3; 4]; [5; 6]; [7; 8]]%Z.

(** Cells 37 and 39: the 3 by 10 matrix of the numbers 1 to 30. *)
Definition cell_37_A : ndarray :=
  int_array [[1; 2; 3; 4; 5; 6; 7; 8; 9; 10];
             [11; 12; 13; 14; 15; 16; 17; 18; 19; 20];
             [21; 22; 23; 24; 25; 26; 27; 28; 29; 30]]%Z.

(** The array cells 25 and 29 print, with its entry [9.04e-15] read as the
    zero it rounds: [[-10, -5, 0, 5], [8.5, 4.5, 0.5, -3.5]]. *)
Definition cell_29_B : ndarray :=
  tenths_array [[-100; -50; 0; 50]; [85; 45; 5; -35]]%Z.

(** [rcond=1e-15], the default of [pinv]. *)
Definition rcond_default : car := 1 / of_Z (10 ^ 15).

(** The pseudoinverse formula of the notebook, [A^+ = V . D^+ . U^T], with
    [D] the m by n array holding [diag(1.0 / s)]. *)
Definition pinv_formula (A U : ndarray) (d : list car) (VT : ndarray) : ndarray :=
  matmul (matmul (transpose VT) (transpose (diag_embed (shape0 A) (shape1 A) d)))
         (transpose U).

(** *** Finite sums *)

Lemma sum_ext (n : nat) (f g : nat -> car) :
  (forall k, k < n -> f k = g k) -> sum n f = sum n g.
Proof.
  induction n as [|n IH]; intros H; simpl; [reflexivity|].
  rewrite IH by (intros; apply H; lia).
  rewrite H by lia. reflexivity.
Qed.

Lemma sum_all_zero (n : nat) (f : nat -> car) :
  (forall k, k < n -> f k = 0) -> sum n f = 0.
Proof.
  induction n as [|n IH]; intros H; simpl; [reflexivity|].
  rewrite IH by (intros; apply H; lia).
  rewrite H by lia. ring.
Qed.

Lemma sum_add (n : nat) (f g : nat -> car) :
  sum n (fun k => f k + g k) = sum n f + sum n g.
Proof.
  induction n as [|n IH]; simpl; [ring|]. rewrite IH. ring.
Qed.

Lemma sum_scale_l (n : nat) (c : car) (f : nat -> car) :
  c * sum n f = sum n (fun k => c * f k).
Proof.
  induction n as [|n IH]; simpl; [ring|]. rewrite <- IH. ring.
Qed.

Lemma sum_scale_r (n : nat) (c : car) (f : nat -> car) :
  sum n f * c = sum n (fun k => f k * c).
Proof.
  induction n as [|n IH]; simpl; [ring|]. rewrite <- IH. ring.
Qed.

Lemma sum_swap (m n : nat) (f : nat -> nat -> car) :
  sum m (fun i => sum n (fun j => f i j)) = sum n (fun j => sum m (fun i => f i j)).
Proof.
  induction m as [|m IH]; simpl.
  - symmetry. apply sum_all_zero. reflexivity.
  - rewrite IH, <- sum_add. reflexivity.
Qed.

(** A sum with a single non-zero term. *)
Lemma sum_single (n j : nat) (f : nat -> car) :
  j < n -> (forall k, k < n -> k <> j -> f k = 0) -> sum n f = f j.
Proof.
  induction n as [|n IH]; intros Hj H; [lia|]. simpl.
  destruct (Nat.eq_dec j n) as [->|Hne].
  - rewrite sum_all_zero; [ring|]. intros k Hk. apply H; lia.
  - rewrite IH by (try lia; intros; apply H; lia).
    rewrite (H n) by lia. ring.
Qed.

(** *** Shapes and entries *)

Lemma shape_tabulate (m n : nat) (f : nat -> nat -> car) :
  shape (tabulate m n f) = (m, n).
Proof. reflexivity. Qed.

Lemma wf_tabulate (m n : nat) (f : nat -> nat -> car) : wf (tabulate m n f).
Proof.
  split; simpl.
  - rewrite length_map, length_seq. reflexivity.
  - apply Forall_forall. intros r Hr. apply in_map_iff in Hr.
    destruct Hr as (i & <- & _). rewrite length_map, length_seq. reflexivity.
Qed.

Lemma entry_tabulate (m n : nat) (f : nat -> nat -> car) (i j : nat) :
  i < m -> j < n -> entry (tabulate m n f) i j = f i j.
Proof.
  intros Hi Hj. unfold entry, tabulate. simpl.
  rewrite (nth_indep _ [] (map (fun j => f 0%nat j) (seq 0 n)))
    by (rewrite length_map, length_seq; exact Hi).
  rewrite (map_nth (fun i => map (fun j => f i j) (seq 0 n)) (seq 0 m) 0%nat i).
  rewrite seq_nth by exact Hi. simpl.
  rewrite (nth_indep _ 0 (f i 0%nat)) by (rewrite length_map, length_seq; exact Hj).
  rewrite (map_nth (fun j => f i j) (seq 0 n) 0%nat j).
  rewrite seq_nth by exact Hj. reflexivity.
Qed.

Lemma entry_outside (A : ndarray) (i j : nat) :
  wf A -> shape0 A <= i \/ shape1 A <= j -> entry A i j = 0.
Proof.
  intros [Hlen Hrows] H. unfold entry.
  destruct (Nat.lt_ge_cases i (shape0 A)) as [Hi|Hi].
  - destruct H as [H|H]; [lia|].
    apply nth_overflow.
    rewrite Forall_forall in Hrows. rewrite (Hrows (nth i (data A) [])); [exact H|].
    apply nth_In. lia.
  - rewrite (nth_overflow (data A)) by lia. destruct j; reflexivity.
Qed.

Lemma list_ext (T : Type) (d : T) (l1 l2 : list T) :
  length l1 = length l2 ->
  (forall i, i < length l1 -> nth i l1 d = nth i l2 d) -> l1 = l2.
Proof.
  revert l2. induction l1 as [|x l1 IH]; intros [|y l2] Hlen H; simpl in *;
    try discriminate; [reflexivity|].
  f_equal.
  - apply (H 0%nat). lia.
  - apply IH; [lia|]. intros i Hi. apply (H (S i)). lia.
Qed.

(** Two well-formed arrays of one shape with the same entries are equal. *)
Lemma ndarray_ext (A B : ndarray) :
  wf A -> wf B -> shape A = shape B ->
  (forall i j, i < shape0 A -> j < shape1 A -> entry A i j = entry B i j) ->
  A = B.
Proof.
  destruct A as [shA dA], B as [shB dB]. unfold wf, shape0, shape1, entry. simpl.
  intros [HlA HrA] [HlB HrB] <- H. f_equal.
  apply (list_ext []); [congruence|].
  intros i Hi.
  rewrite Forall_forall in HrA, HrB.
  assert (HA : length (nth i dA []) = snd shA) by (apply HrA, nth_In; lia).
  assert (HB : length (nth i dB []) = snd shA) by (apply HrB, nth_In; lia).
  apply (list_ext 0); [congruence|].
  intros j Hj. apply H; lia.
Qed.

Lemma tabulate_ext (m n : nat) (f g : nat -> nat -> car) :
  (forall i j, i < m -> j < n -> f i j = g i j) -> tabulate m n f = tabulate m n g.
Proof.
  intros H. apply ndarray_ext; try apply wf_tabulate; [reflexivity|].
  unfold shape0, shape1. simpl. intros i j Hi Hj.
  rewrite !entry_tabulate by assumption. apply H; assumption.
Qed.

Lemma tabulate_entry (A : ndarray) :
  wf A -> tabulate (shape0 A) (shape1 A) (entry A) = A.
Proof.
  intros HA. apply ndarray_ext; [apply wf_tabulate|exact HA| |].
  - destruct A as [[m n] d]. reflexivity.
  - unfold shape0, shape1. simpl. intros i j Hi Hj.
    apply entry_tabulate; assumption.
Qed.

Lemma shape0_tabulate (m n : nat) (f : nat -> nat -> car) : shape0 (tabulate m n f) = m.
Proof. reflexivity. Qed.

Lemma shape1_tabulate (m n : nat) (f : nat -> nat -> car) : shape1 (tabulate m n f) = n.
Proof. reflexivity. Qed.

Lemma shape0_matmul (A B : ndarray) : shape0 (matmul A B) = shape0 A.
Proof. reflexivity. Qed.

Lemma shape1_matmul (A B : ndarray) : shape1 (matmul A B) = shape1 B.
Proof. reflexivity. Qed.

Lemma shape0_transpose (A : ndarray) : shape0 (transpose A) = shape1 A.
Proof. reflexivity. Qed.

Lemma shape1_transpose (A : ndarray) : shape1 (transpose A) = shape0 A.
Proof. reflexivity. Qed.

Lemma shape0_eye (n : nat) : shape0 (eye n) = n.
Proof. reflexivity. Qed.

Lemma shape1_eye (n : nat) : shape1 (eye n) = n.
Proof. reflexivity. Qed.

Lemma shape0_diag_embed (m n : nat) (s : list car) : shape0 (diag_embed m n s) = m.
Proof. reflexivity. Qed.

Lemma shape1_diag_embed (m n : nat) (s : list car) : shape1 (diag_embed m n s) = n.
Proof. reflexivity. Qed.

Lemma shape0_cols_upto (k : nat) (A : ndarray) : shape0 (cols_upto k A) = shape0 A.
Proof. reflexivity. Qed.

Lemma shape1_cols_upto (k : nat) (A : ndarray) :
  shape1 (cols_upto k A) = Nat.min k (shape1 A).
Proof. reflexivity. Qed.

Lemma shape0_rows_upto (k : nat) (A : ndarray) :
  shape0 (rows_upto k A) = Nat.min k (shape0 A).
Proof. reflexivity. Qed.

Lemma shape1_rows_upto (k : nat) (A : ndarray) : shape1 (rows_upto k A) = shape1 A.
Proof. reflexivity. Qed.

Lemma shape_split (A : ndarray) (m n : nat) :
  shape A = (m, n) -> shape0 A = m /\ shape1 A = n.
Proof. unfold shape0, shape1. intros ->. split; reflexivity. Qed.

Create Rewrite HintDb shapes.
Hint Rewrite shape0_tabulate shape1_tabulate shape0_matmul shape1_matmul
  shape0_transpose shape1_transpose shape0_eye shape1_eye
  shape0_diag_embed shape1_diag_embed shape0_cols_upto shape1_cols_upto
  shape0_rows_upto shape1_rows_upto : shapes.

Lemma wf_matmul (A B : ndarray) : wf (matmul A B).
Proof. apply wf_tabulate. Qed.

Lemma wf_transpose (A : ndarray) : wf (transpose A).
Proof. apply wf_tabulate. Qed.

Lemma wf_eye (n : nat) : wf (eye n).
Proof. apply wf_tabulate. Qed.

Lemma wf_diag_embed (m n : nat) (s : list car) : wf (diag_embed m n s).
Proof. apply wf_tabulate. Qed.

Lemma wf_diag (s : list car) : wf (diag s).
Proof. apply wf_tabulate. Qed.

Lemma wf_rows_upto (k : nat) (A : ndarray) : wf (rows_upto k A).
Proof. apply wf_tabulate. Qed.

Lemma wf_cols_upto (k : nat) (A : ndarray) : wf (cols_upto k A).
Proof. apply wf_tabulate. Qed.

Lemma wf_zeros (sh : nat * nat) : wf (zeros sh).
Proof.
  split; simpl.
  - apply repeat_length.
  - apply Forall_forall. intros r Hr. apply repeat_spec in Hr. subst r.
    apply repeat_length.
Qed.

Local Hint Resolve wf_tabulate wf_matmul wf_transpose wf_eye wf_diag_embed wf_diag
  wf_rows_upto wf_cols_upto wf_zeros : core.

Lemma entry_matmul (A B : ndarray) (i j : nat) :
  i < shape0 A -> j < shape1 B ->
  entry (matmul A B) i j = sum (shape1 A) (fun k => entry A i k * entry B k j).
Proof. apply entry_tabulate. Qed.

Lemma entry_transpose (A : ndarray) (i j : nat) :
  i < shape1 A -> j < shape0 A -> entry (transpose A) i j = entry A j i.
Proof.
  intros Hi Hj. unfold transpose. rewrite entry_tabulate by assumption. reflexivity.
Qed.

Lemma entry_eye (n i j : nat) :
  i < n -> j < n -> entry (eye n) i j = if i =? j then 1 else 0.
Proof. apply entry_tabulate. Qed.

Lemma entry_diag_embed (m n : nat) (s : list car) (i j : nat) :
  i < m -> j < n ->
  entry (diag_embed m n s) i j = if i =? j then nth i s 0 else 0.
Proof. apply entry_tabulate. Qed.

(** *** Algebra of the matrix product *)

Lemma matmul_assoc (A B C : ndarray) :
  shape1 A = shape0 B -> matmul (matmul A B) C = matmul A (matmul B C).
Proof.
  intros HAB. apply ndarray_ext; [auto|auto|reflexivity|].
  autorewrite with shapes. intros i j Hi Hj.
  rewrite !entry_matmul by (autorewrite with shapes; assumption).
  autorewrite with shapes.
  transitivity (sum (shape1 B) (fun k =>
                  sum (shape1 A) (fun l => entry A i l * entry B l k * entry C k j))).
  - apply sum_ext. intros k Hk. rewrite entry_matmul by assumption.
    apply sum_scale_r.
  - rewrite sum_swap. apply sum_ext. intros l Hl.
    rewrite entry_matmul by (try assumption; lia).
    rewrite sum_scale_l. apply sum_ext. intros k _. ring.
Qed.

Lemma transpose_matmul (A B : ndarray) :
  shape1 A = shape0 B ->
  transpose (matmul A B) = matmul (transpose B) (transpose A).
Proof.
  intros HAB. apply ndarray_ext; [auto|auto|reflexivity|].
  autorewrite with shapes. intros i j Hi Hj.
  rewrite entry_transpose by (autorewrite with shapes; assumption).
  rewrite !entry_matmul by (autorewrite with shapes; assumption).
  autorewrite with shapes. rewrite HAB.
  apply sum_ext. intros k Hk.
  rewrite !entry_transpose by (try assumption; lia). ring.
Qed.

Lemma transpose_involutive (A : ndarray) : wf A -> transpose (transpose A) = A.
Proof.
  intros HA. apply ndarray_ext; [auto|auto| |].
  - destruct A as [[m n] d]. reflexivity.
  - autorewrite with shapes. intros i j Hi Hj.
    rewrite !entry_transpose by (autorewrite with shapes; assumption).
    reflexivity.
Qed.

Lemma transpose_eye (n : nat) : transpose (eye n) = eye n.
Proof.
  apply ndarray_ext; [auto|auto|reflexivity|].
  autorewrite with shapes. intros i j Hi Hj.
  rewrite entry_transpose, !entry_eye by (autorewrite with shapes; assumption).
  rewrite (Nat.eqb_sym j i). reflexivity.
Qed.

Lemma matmul_eye_r (A : ndarray) (n : nat) :
  wf A -> shape1 A = n -> matmul A (eye n) = A.
Proof.
  intros HA Hn. apply ndarray_ext; [auto|auto| |].
  - destruct A as [[m n'] d]. unfold shape1 in Hn. simpl in Hn. subst n'. reflexivity.
  - autorewrite with shapes. intros i j Hi Hj.
    assert (Hj' : j < n) by exact Hj.
    rewrite entry_matmul by (autorewrite with shapes; assumption).
    rewrite (sum_single (j := j));
      [ | lia | intros k Hk Hne; rewrite entry_eye by lia;
                destruct (Nat.eqb_spec k j); [contradiction|ring] ].
    rewrite entry_eye, Nat.eqb_refl by lia. ring.
Qed.

Lemma matmul_eye_l (A : ndarray) (n : nat) :
  wf A -> shape0 A = n -> matmul (eye n) A = A.
Proof.
  intros HA Hn. apply ndarray_ext; [auto|auto| |].
  - destruct A as [[m' n'] d]. unfold shape0 in Hn. simpl in Hn. subst m'. reflexivity.
  - autorewrite with shapes. intros i j Hi Hj.
    rewrite entry_matmul by (autorewrite with shapes; assumption).
    autorewrite with shapes.
    rewrite (sum_single (j := i));
      [ | lia | intros k Hk Hne; rewrite entry_eye by lia;
                destruct (Nat.eqb_spec i k); [subst; contradiction|ring] ].
    rewrite entry_eye, Nat.eqb_refl by lia. ring.
Qed.

(** *** Building Sigma *)

Lemma entry_zeros (sh : nat * nat) (i j : nat) : entry (zeros sh) i j = 0.
Proof.
  destruct sh as [m n]. unfold entry, zeros. simpl.
  destruct (Nat.lt_ge_cases i m) as [Hi|Hi].
  - rewrite (nth_indep _ [] (repeat 0 n)) by (rewrite repeat_length; exact Hi).
    rewrite nth_repeat. apply nth_repeat.
  - rewrite (nth_overflow (repeat (repeat 0 n) m))
      by (rewrite repeat_length; exact Hi).
    destruct j; reflexivity.
Qed.

Lemma entry_diag (s : list car) (i j : nat) :
  i < length s -> j < length s ->
  entry (diag s) i j = if i =? j then nth i s 0 else 0.
Proof. apply entry_tabulate. Qed.

Lemma dot_aligned (A B : ndarray) :
  shape1 A = shape0 B -> dot A B = Ok (matmul A B).
Proof. intros H. unfold dot. rewrite H, Nat.eqb_refl. reflexivity. Qed.

(** Assigning [diag(s)] to the leading [b] by [b] block of [zeros((m, n))]
    gives the embedded diagonal, when the clipped block is as large as
    [diag(s)]. *)
Lemma setitem_zeros_diag (m n b : nat) (s : list car) :
  Nat.min b m = length s -> Nat.min b n = length s ->
  setitem_block (zeros (m, n)) b b (diag s) = Ok (diag_embed m n s).
Proof.
  intros Hm Hn. unfold setitem_block.
  change (shape0 (zeros (m, n))) with m. change (shape1 (zeros (m, n))) with n.
  change (shape0 (diag s)) with (length s). change (shape1 (diag s)) with (length s).
  rewrite Hm, Hn, Nat.eqb_refl. simpl. f_equal.
  apply tabulate_ext. intros i j Hi Hj.
  destruct (Nat.ltb_spec i (length s)) as [Hi'|Hi'];
    destruct (Nat.ltb_spec j (length s)) as [Hj'|Hj']; simpl.
  - apply entry_diag; assumption.
  - rewrite entry_zeros. destruct (Nat.eqb_spec i j); [lia|reflexivity].
  - rewrite entry_zeros. destruct (Nat.eqb_spec i j); [|reflexivity].
    symmetry. apply nth_overflow. exact Hi'.
  - rewrite entry_zeros. destruct (Nat.eqb_spec i j); [|reflexivity].
    symmetry. apply nth_overflow. exact Hi'.
Qed.

Lemma diag_is_diag_embed (s : list car) : diag s = diag_embed (length s) (length s) s.
Proof. reflexivity. Qed.

Lemma svd_spec_wf (A U : ndarray) (s : list car) (VT : ndarray) :
  svd_spec A U s VT -> wf A.
Proof.
  intros (_ & _ & _ & _ & _ & _ & _ & HA). rewrite HA. apply wf_matmul.
Qed.

(** The reconstruction [U.dot(Sigma.dot(VT))] with the embedded diagonal. *)
Lemma svd_reconstruct (A U : ndarray) (s : list car) (VT : ndarray) :
  svd_spec A U s VT ->
  matmul U (matmul (diag_embed (shape0 A) (shape1 A) s) VT) = A.
Proof.
  intros (_ & HshU & _ & _ & _ & _ & _ & HA).
  apply shape_split in HshU. destruct HshU as [_ HU1].
  rewrite <- matmul_assoc by (autorewrite with shapes; exact HU1).
  symmetry. exact HA.
Qed.

(** The reconstruction, in general and by the two cells. *)
Lemma svd_reconstruction_general (svd : svd_fn) (A U : ndarray) (s : list car) (VT : ndarray) :
  svd A = Ok (U, s, VT) -> svd_spec A U s VT ->
  (SV <- dot (diag_embed (shape0 A) (shape1 A) s) VT ;; dot U SV) = Ok A /\
  (shape1 A <= shape0 A -> cell_reconstruct_rect svd A = Ok (A, A)) /\
  (shape0 A = shape1 A -> cell_reconstruct_square svd A = Ok (A, A)).
Proof.
  intros Hsvd Hspec.
  pose proof (svd_reconstruct Hspec) as Hrec.
  destruct Hspec as (_ & HshU & _ & HshVT & Hlen & _).
  apply shape_split in HshU, HshVT.
  destruct HshU as [HU0 HU1], HshVT as [HV0 HV1].
  assert (Hgen : (SV <- dot (diag_embed (shape0 A) (shape1 A) s) VT ;; dot U SV) = Ok A).
  { rewrite dot_aligned by (autorewrite with shapes; congruence). cbn [bind].
    rewrite dot_aligned by (autorewrite with shapes; congruence).
    rewrite Hrec. reflexivity. }
  split; [exact Hgen|]. split.
  - intros Hle. unfold cell_reconstruct_rect. rewrite Hsvd. cbn [bind].
    rewrite setitem_zeros_diag by lia. cbn [bind].
    unfold bind in Hgen.
    destruct (dot (diag_embed (shape0 A) (shape1 A) s) VT) as [SV|e];
      [|discriminate].
    cbn [bind]. rewrite Hgen. reflexivity.
  - intros Heq. unfold cell_reconstruct_square. rewrite Hsvd. cbn [bind].
    rewrite diag_is_diag_embed.
    replace (length s) with (shape0 A) at 1 by lia.
    replace (length s) with (shape1 A) by lia.
    unfold bind in Hgen.
    destruct (dot (diag_embed (shape0 A) (shape1 A) s) VT) as [SV|e];
      [|discriminate].
    cbn [bind]. rewrite Hgen. reflexivity.
Qed.

(** *** Slices and products *)

Lemma entry_cols_upto (k : nat) (A : ndarray) (i j : nat) :
  i < shape0 A -> j < Nat.min k (shape1 A) -> entry (cols_upto k A) i j = entry A i j.
Proof. apply entry_tabulate. Qed.

Lemma entry_rows_upto (k : nat) (A : ndarray) (i j : nat) :
  i < Nat.min k (shape0 A) -> j < shape1 A -> entry (rows_upto k A) i j = entry A i j.
Proof. apply entry_tabulate. Qed.

Lemma cols_upto_matmul (k : nat) (A B : ndarray) :
  shape1 A = shape0 B -> cols_upto k (matmul A B) = matmul A (cols_upto k B).
Proof.
  intros HAB. apply ndarray_ext; [auto|auto|reflexivity|].
  autorewrite with shapes. intros i j Hi Hj.
  rewrite entry_cols_upto by (autorewrite with shapes; assumption).
  rewrite !entry_matmul by (autorewrite with shapes; try assumption; lia).
  apply sum_ext. intros l Hl.
  rewrite entry_cols_upto by (try assumption; lia). reflexivity.
Qed.

Lemma matmul_cols_upto_eye (k n : nat) (M : ndarray) :
  wf M -> shape1 M = n -> matmul M (cols_upto k (eye n)) = cols_upto k M.
Proof.
  intros HM Hn. rewrite <- cols_upto_matmul by (autorewrite with shapes; exact Hn).
  rewrite matmul_eye_r by assumption. reflexivity.
Qed.

(** The rows of an orthogonal array are orthonormal. *)
Lemma orthogonal_rows (Q : ndarray) (n i j : nat) :
  orthogonal Q -> shape Q = (n, n) -> i < n -> j < n ->
  sum n (fun c => entry Q i c * entry Q j c) = if i =? j then 1 else 0.
Proof.
  intros [_ HQ] Hsh Hi Hj. apply shape_split in Hsh. destruct Hsh as [H0 H1].
  rewrite H0 in HQ.
  rewrite <- (entry_eye Hi Hj), <- HQ.
  rewrite entry_matmul by (autorewrite with shapes; lia).
  rewrite H1. apply sum_ext. intros c Hc.
  rewrite entry_transpose by lia. reflexivity.
Qed.

Lemma matmul_transpose_rows_upto (k n : nat) (VT : ndarray) :
  orthogonal VT -> shape VT = (n, n) ->
  matmul VT (transpose (rows_upto k VT)) = cols_upto k (eye n).
Proof.
  intros HVT Hsh. pose proof (shape_split _ Hsh) as [H0 H1].
  apply ndarray_ext; [auto|auto| |].
  - unfold matmul, cols_upto, tabulate. autorewrite with shapes.
    rewrite H0. reflexivity.
  - autorewrite with shapes. rewrite H0. intros i j Hi Hj.
    rewrite entry_matmul by (autorewrite with shapes; lia).
    rewrite entry_cols_upto by (autorewrite with shapes; lia).
    rewrite entry_eye by lia.
    rewrite <- (orthogonal_rows (i := i) (j := j) HVT Hsh) by lia.
    rewrite H1. apply sum_ext. intros c Hc.
    rewrite entry_transpose by (autorewrite with shapes; lia).
    rewrite entry_rows_upto by lia. reflexivity.
Qed.

(** The two transforms of the reduction. *)
Lemma reduced_transforms_agree (k : nat) (A U : ndarray) (s : list car) (VT : ndarray) :
  svd_spec A U s VT ->
  matmul U (cols_upto k (diag_embed (shape0 A) (shape1 A) s))
  = matmul A (transpose (rows_upto k VT)).
Proof.
  intros (_ & HshU & _ & HshVT & _ & _ & HoV & HA).
  pose proof (shape_split _ HshU) as [HU0 HU1].
  pose proof (shape_split _ HshVT) as [HV0 HV1].
  set (S := diag_embed (shape0 A) (shape1 A) s) in *.
  transitivity (matmul (matmul (matmul U S) VT) (transpose (rows_upto k VT)));
    [|rewrite <- HA; reflexivity].
  rewrite matmul_assoc by (autorewrite with shapes; unfold S; autorewrite with shapes; lia).
  rewrite (matmul_transpose_rows_upto k HoV HshVT).
  rewrite matmul_cols_upto_eye
    by (auto; unfold S; autorewrite with shapes; reflexivity).
  symmetry. apply cols_upto_matmul. unfold S. autorewrite with shapes. exact HU1.
Qed.

(** The two transforms, in general and by the cell. *)
Lemma reduced_transform_general
  (svd : svd_fn) (k : nat) (A U : ndarray) (s : list car) (VT : ndarray) :
  svd A = Ok (U, s, VT) -> svd_spec A U s VT -> k <= length s ->
  (exists T, dot U (cols_upto k (diag_embed (shape0 A) (shape1 A) s)) = Ok T
             /\ dot A (transpose (rows_upto k VT)) = Ok T) /\
  (shape0 A <= shape1 A ->
   exists B T, cell_reduce svd k A = Ok (A, B, T, T)).
Proof.
  intros Hsvd Hspec Hk.
  pose proof (reduced_transforms_agree k Hspec) as Hagree.
  destruct Hspec as (_ & HshU & _ & HshVT & Hlen & _).
  apply shape_split in HshU, HshVT.
  destruct HshU as [HU0 HU1], HshVT as [HV0 HV1].
  assert (H1 : dot U (cols_upto k (diag_embed (shape0 A) (shape1 A) s))
               = Ok (matmul A (transpose (rows_upto k VT)))).
  { rewrite dot_aligned by (autorewrite with shapes; exact HU1).
    rewrite Hagree. reflexivity. }
  assert (H2 : dot A (transpose (rows_upto k VT))
               = Ok (matmul A (transpose (rows_upto k VT)))).
  { apply dot_aligned. autorewrite with shapes. congruence. }
  split.
  - eexists. split; [exact H1|exact H2].
  - intros Hle. unfold cell_reduce. rewrite Hsvd. cbn [bind].
    rewrite setitem_zeros_diag by lia. cbn [bind].
    rewrite dot_aligned by (autorewrite with shapes; congruence).
    cbn [bind].
    rewrite dot_aligned by (autorewrite with shapes; exact HU1).
    cbn [bind]. rewrite H1. cbn [bind]. rewrite H2. cbn [bind].
    eexists. eexists. reflexivity.
Qed.

(** *** The Moore-Penrose conditions *)

Ltac shp := autorewrite with shapes; try (assumption || congruence || lia).

(** At most one array satisfies the four conditions. *)
Lemma is_pinv_unique (A X Y : ndarray) : is_pinv A X -> is_pinv A Y -> X = Y.
Proof.
  intros (HwX & HsX & HX1 & HX2 & HX3 & HX4) (HwY & HsY & HY1 & HY2 & HY3 & HY4).
  apply shape_split in HsX, HsY.
  destruct HsX as [HX0s HX1s], HsY as [HY0s HY1s].
  assert (HAX : matmul A X = matmul A Y).
  { assert (E : matmul A X = matmul (matmul A Y) (matmul A X)).
    { rewrite <- (matmul_assoc (matmul A Y) A X) by shp. rewrite HY1. reflexivity. }
    rewrite <- HX3. rewrite E at 1.
    rewrite transpose_matmul by shp. rewrite HX3, HY3.
    rewrite <- (matmul_assoc (matmul A X) A Y) by shp. rewrite HX1. reflexivity. }
  assert (HXA : matmul X A = matmul Y A).
  { assert (E : matmul X A = matmul (matmul X A) (matmul Y A)).
    { rewrite (matmul_assoc X A (matmul Y A)) by shp.
      rewrite <- (matmul_assoc A Y A) by shp. rewrite HY1. reflexivity. }
    rewrite <- HX4. rewrite E at 1.
    rewrite transpose_matmul by shp. rewrite HX4, HY4.
    rewrite (matmul_assoc Y A (matmul X A)) by shp.
    rewrite <- (matmul_assoc A X A) by shp. rewrite HX1. reflexivity. }
  rewrite <- HX2, HXA.
  rewrite (matmul_assoc Y A X) by shp. rewrite HAX.
  rewrite <- (matmul_assoc Y A Y) by shp. exact HY2.
Qed.

(** *** Diagonal arrays *)

(** Elementwise product of two vectors. *)
Definition vmul (a b : list car) : list car :=
  map (fun p => fst p * snd p) (combine a b).

Lemma nth_vmul (a b : list car) (i : nat) :
  nth i (vmul a b) 0 = nth i a 0 * nth i b 0.
Proof.
  unfold vmul. revert b i.
  induction a as [|x a IH]; intros b i.
  - destruct i; simpl; ring.
  - destruct b as [|y b].
    + destruct i; simpl; ring.
    + destruct i; simpl; [reflexivity|apply IH].
Qed.

Lemma diag_embed_ext (m n : nat) (a b : list car) :
  (forall i, i < Nat.min m n -> nth i a 0 = nth i b 0) ->
  diag_embed m n a = diag_embed m n b.
Proof.
  intros H. apply tabulate_ext. intros i j Hi Hj.
  destruct (Nat.eqb_spec i j); [|reflexivity]. apply H. lia.
Qed.

Lemma transpose_diag_embed (m n : nat) (a : list car) :
  transpose (diag_embed m n a) = diag_embed n m a.
Proof.
  unfold transpose. shp. apply tabulate_ext. intros i j Hi Hj.
  rewrite entry_diag_embed by assumption.
  rewrite (Nat.eqb_sym j i). destruct (Nat.eqb_spec i j); [subst|]; reflexivity.
Qed.

Lemma matmul_diag_embed (m n p : nat) (a b : list car) :
  length a <= n ->
  matmul (diag_embed m n a) (diag_embed n p b) = diag_embed m p (vmul a b).
Proof.
  intros Ha. unfold matmul. shp. apply tabulate_ext. intros i j Hi Hj.
  rewrite nth_vmul.
  destruct (Nat.lt_ge_cases i n) as [Hin|Hin].
  - rewrite (sum_single (j := i)); [ |exact Hin| ].
    + rewrite !entry_diag_embed by assumption. rewrite Nat.eqb_refl.
      destruct (Nat.eqb_spec i j); [reflexivity|ring].
    + intros k Hk Hne. rewrite entry_diag_embed by assumption.
      destruct (Nat.eqb_spec i k); [subst; contradiction|ring].
  - rewrite sum_all_zero.
    + rewrite (nth_overflow a) by lia. destruct (i =? j); ring.
    + intros k Hk. rewrite entry_diag_embed by assumption.
      destruct (Nat.eqb_spec i k); [lia|ring].
Qed.

(** The embedded diagonal of the reciprocals, transposed, is the
    pseudoinverse of the embedded diagonal. *)
Lemma is_pinv_diag_embed (m n : nat) (s d : list car) :
  length s <= Nat.min m n -> length d = length s ->
  (forall i, i < length s -> nth i s 0 * nth i d 0 = 1) ->
  is_pinv (diag_embed m n s) (transpose (diag_embed m n d)).
Proof.
  intros Hs Hd Hinv.
  assert (Hsds : forall i, nth i s 0 * nth i d 0 * nth i s 0 = nth i s 0).
  { intros i. destruct (Nat.lt_ge_cases i (length s)) as [Hi|Hi].
    - rewrite Hinv by exact Hi. ring.
    - rewrite (nth_overflow s) by exact Hi. ring. }
  assert (Hdsd : forall i, nth i d 0 * nth i s 0 * nth i d 0 = nth i d 0).
  { intros i. destruct (Nat.lt_ge_cases i (length s)) as [Hi|Hi].
    - replace (nth i d 0 * nth i s 0) with (nth i s 0 * nth i d 0) by ring.
      rewrite Hinv by exact Hi. ring.
    - rewrite (nth_overflow d) by lia. ring. }
  rewrite transpose_diag_embed.
  split; [auto|]. split; [reflexivity|].
  repeat split;
    repeat (rewrite matmul_diag_embed
              by first [lia | unfold vmul; rewrite length_map, length_combine; lia]);
    rewrite ?transpose_diag_embed;
    apply diag_embed_ext; intros i _; rewrite !nth_vmul; auto.
Qed.

(** Orthogonal factors cancel. *)
Lemma orthogonal_cancel_l (Q Z : ndarray) (n : nat) :
  orthogonal Q -> shape Q = (n, n) -> wf Z -> shape0 Z = n ->
  matmul (transpose Q) (matmul Q Z) = Z.
Proof.
  intros [HQ _] Hsh HZ HZ0. apply shape_split in Hsh. destruct Hsh as [H0 H1].
  rewrite <- matmul_assoc by shp. rewrite HQ, H0. apply matmul_eye_l; assumption.
Qed.

Lemma orthogonal_cancel_r (Q Z : ndarray) (n : nat) :
  orthogonal Q -> shape Q = (n, n) -> wf Z -> shape0 Z = n ->
  matmul Q (matmul (transpose Q) Z) = Z.
Proof.
  intros [_ HQ] Hsh HZ HZ0. apply shape_split in Hsh. destruct Hsh as [H0 H1].
  rewrite <- matmul_assoc by shp. rewrite HQ, H0. apply matmul_eye_l; assumption.
Qed.

(** If [Y] is the pseudoinverse of [S], then [V . Y . U^T] is that of
    [U . S . V^T], for orthogonal [U] and [V]. *)
Lemma is_pinv_orthogonal (m n : nat) (U S VT Y : ndarray) :
  wf U -> shape U = (m, m) -> orthogonal U ->
  wf VT -> shape VT = (n, n) -> orthogonal VT ->
  shape S = (m, n) -> is_pinv S Y ->
  is_pinv (matmul (matmul U S) VT)
          (matmul (matmul (transpose VT) Y) (transpose U)).
Proof.
  intros HwU HsU HoU HwV HsV HoV HsS (HwY & HsY & HY1 & HY2 & HY3 & HY4).
  pose proof (shape_split _ HsU) as [HU0 HU1].
  pose proof (shape_split _ HsV) as [HV0 HV1].
  pose proof (shape_split _ HsS) as [HS0 HS1].
  pose proof (shape_split _ HsY) as [HY0s HY1s].
  set (A := matmul (matmul U S) VT).
  set (X := matmul (matmul (transpose VT) Y) (transpose U)).
  assert (HAX : matmul A X = matmul U (matmul (matmul S Y) (transpose U))).
  { unfold A, X.
    rewrite (matmul_assoc (matmul U S) VT) by shp.
    rewrite (matmul_assoc (transpose VT) Y) by shp.
    rewrite (orthogonal_cancel_r HoV HsV) by (auto; shp).
    rewrite (matmul_assoc U S) by shp.
    rewrite <- (matmul_assoc S Y) by shp. reflexivity. }
  assert (HXA : matmul X A = matmul (transpose VT) (matmul (matmul Y S) VT)).
  { unfold A, X.
    rewrite (matmul_assoc (matmul (transpose VT) Y) (transpose U)) by shp.
    rewrite (matmul_assoc U S VT) by shp.
    rewrite (orthogonal_cancel_l HoU HsU) by (auto; shp).
    rewrite (matmul_assoc (transpose VT) Y) by shp.
    rewrite <- (matmul_assoc Y S) by shp. reflexivity. }
  split; [unfold X; auto|]. split; [reflexivity|].
  split; [|split; [|split]].
  - rewrite HAX. unfold A.
    rewrite (matmul_assoc U _ (matmul (matmul U S) VT)) by shp.
    rewrite (matmul_assoc (matmul S Y) (transpose U)) by shp.
    rewrite (matmul_assoc U S VT) by shp.
    rewrite (orthogonal_cancel_l HoU HsU) by (auto; shp).
    rewrite <- (matmul_assoc (matmul S Y) S VT) by shp.
    rewrite HY1. reflexivity.
  - rewrite HXA. unfold X.
    rewrite (matmul_assoc (transpose VT) _ (matmul (matmul (transpose VT) Y) (transpose U)))
      by shp.
    rewrite (matmul_assoc (matmul Y S) VT) by shp.
    rewrite (matmul_assoc (transpose VT) Y (transpose U)) by shp.
    rewrite (orthogonal_cancel_r HoV HsV) by (auto; shp).
    rewrite <- (matmul_assoc (matmul Y S) Y (transpose U)) by shp.
    rewrite HY2. reflexivity.
  - rewrite HAX.
    rewrite transpose_matmul by shp.
    rewrite (transpose_matmul (matmul S Y)) by shp.
    rewrite HY3, transpose_involutive by assumption.
    apply matmul_assoc. shp.
  - rewrite HXA.
    rewrite transpose_matmul by shp.
    rewrite (transpose_matmul (matmul Y S)) by shp.
    rewrite HY4, transpose_involutive by auto.
    apply matmul_assoc. shp.
Qed.

(** *** Reciprocals *)

Lemma reciprocal_defined (s : list car) :
  (exists d, reciprocal s = Ok d) <-> Forall (fun x => x <> 0) s.
Proof.
  induction s as [|x s IH]; simpl.
  - split; [constructor|]. intros _. exists []. reflexivity.
  - destruct (is_zero x) eqn:Hx.
    + apply is_zero_spec in Hx. split.
      * intros [d Hd]. discriminate.
      * intros H. inversion H; subst. contradiction.
    + assert (Hx' : x <> 0).
      { intros E. apply is_zero_spec in E. congruence. }
      split.
      * intros [d Hd]. constructor; [exact Hx'|]. apply IH.
        destruct (reciprocal s) as [d'|e]; [exists d'; reflexivity|discriminate].
      * intros H. inversion H; subst.
        destruct (proj2 IH) as [d' Hd']; [assumption|].
        rewrite Hd'. eexists. reflexivity.
Qed.

Lemma reciprocal_spec (s d : list car) :
  reciprocal s = Ok d ->
  length d = length s /\
  forall i, i < length s -> nth i s 0 * nth i d 0 = 1.
Proof.
  revert d. induction s as [|x s IH]; intros d; simpl.
  - intros [= <-]. split; [reflexivity|]. intros i Hi. lia.
  - destruct (is_zero x) eqn:Hx; [discriminate|].
    assert (Hx' : x <> 0).
    { intros E. apply is_zero_spec in E. congruence. }
    destruct (reciprocal s) as [d'|e]; [|discriminate].
    cbn [bind]. intros [= <-].
    destruct (IH d' eq_refl) as [Hlen Hnth]. split; [simpl; congruence|].
    intros [|i] Hi; simpl.
    + field. exact Hx'.
    + apply Hnth. lia.
Qed.

Lemma shape_eta (A : ndarray) : shape A = (shape0 A, shape1 A).
Proof. destruct A as [[m n] d]. reflexivity. Qed.

(** The notebook's formula yields the pseudoinverse. *)
Lemma pinv_formula_is_pinv (A U : ndarray) (s d : list car) (VT : ndarray) :
  svd_spec A U s VT -> reciprocal s = Ok d ->
  is_pinv A (pinv_formula A U d VT).
Proof.
  intros (HwU & HsU & HwV & HsV & Hlen & HoU & HoV & HA) Hd.
  destruct (reciprocal_spec _ Hd) as [Hld Hinv].
  unfold pinv_formula.
  set (m := shape0 A) in *. set (n := shape1 A) in *.
  rewrite HA.
  apply (is_pinv_orthogonal (m := m) (n := n)); try assumption; [reflexivity|].
  apply is_pinv_diag_embed; [lia|assumption|assumption].
Qed.

(** The hand-made pseudoinverse, in general and by the cell. *)
Lemma pinv_via_svd_general
  (svd : svd_fn) (A U : ndarray) (s : list car) (VT : ndarray) :
  svd A = Ok (U, s, VT) -> svd_spec A U s VT ->
  ((exists d, reciprocal s = Ok d) <-> Forall (fun x => x <> 0) s) /\
  (Forall (fun x => x <> 0) s ->
   exists d, reciprocal s = Ok d /\
     is_pinv A (pinv_formula A U d VT) /\
     (forall X, is_pinv A X -> X = pinv_formula A U d VT) /\
     (shape1 A <= shape0 A ->
      cell_pinv_svd svd A = Ok (A, pinv_formula A U d VT) /\
      forall (pinv : pinv_fn) (X : ndarray),
        pinv A = Ok X -> is_pinv A X -> cell_pinv pinv A = cell_pinv_svd svd A)).
Proof.
  intros Hsvd Hspec. split; [apply reciprocal_defined|].
  intros Hnz. destruct (proj2 (reciprocal_defined s) Hnz) as [d Hd].
  exists d. split; [exact Hd|].
  pose proof (pinv_formula_is_pinv Hspec Hd) as Hpinv.
  split; [exact Hpinv|]. split.
  { intros X HX. apply (is_pinv_unique HX Hpinv). }
  intros Hle.
  assert (Hcell : cell_pinv_svd svd A = Ok (A, pinv_formula A U d VT)).
  { destruct Hspec as (HwU & HsU & HwV & HsV & Hlen & _).
    destruct (reciprocal_spec _ Hd) as [Hld _].
    pose proof (shape_split _ HsU) as [HU0 HU1].
    pose proof (shape_split _ HsV) as [HV0 HV1].
    unfold cell_pinv_svd. rewrite Hsvd. cbn [bind]. rewrite Hd. cbn [bind].
    rewrite (shape_eta A) at 1.
    rewrite setitem_zeros_diag by lia. cbn [bind].
    rewrite dot_aligned by shp. cbn [bind].
    rewrite dot_aligned by shp. cbn [bind]. reflexivity. }
  split; [exact Hcell|].
  intros pinv X HpX HX. rewrite Hcell. unfold cell_pinv. rewrite HpX. cbn [bind].
  rewrite (is_pinv_unique HX Hpinv). reflexivity.
Qed.

(** *** NumPy's pinv *)

Lemma sum_truncate (k m : nat) (f : nat -> car) :
  k <= m -> (forall i, k <= i -> i < m -> f i = 0) -> sum m f = sum k f.
Proof.
  induction m as [|m IH]; intros Hk Hf.
  - replace k with 0%nat by lia. reflexivity.
  - destruct (Nat.eq_dec k (S m)) as [->|Hne]; [reflexivity|].
    simpl. rewrite IH by (try lia; intros; apply Hf; lia).
    rewrite (Hf m) by lia. ring.
Qed.

Lemma entry_scale_rows (s : list car) (M : ndarray) (i j : nat) :
  i < shape0 M -> j < shape1 M ->
  entry (scale_rows s M) i j = nth i s 0 * entry M i j.
Proof.
  intros Hi Hj. unfold scale_rows. rewrite entry_tabulate by assumption. reflexivity.
Qed.

(** The product of the reduced factors is the formula [V . D^T . U^T]. *)
Lemma reduced_pinv_formula (A U : ndarray) (s d : list car) (VT : ndarray) :
  svd_spec A U s VT ->
  matmul (transpose (rows_upto (Nat.min (shape0 A) (shape1 A)) VT))
         (scale_rows d (transpose (cols_upto (Nat.min (shape0 A) (shape1 A)) U)))
  = pinv_formula A U d VT.
Proof.
  intros (_ & HsU & _ & HsV & _).
  pose proof (shape_split _ HsU) as [HU0 HU1].
  pose proof (shape_split _ HsV) as [HV0 HV1].
  unfold pinv_formula. rewrite transpose_diag_embed.
  set (m := shape0 A) in *. set (n := shape1 A) in *. set (k := Nat.min m n).
  apply ndarray_ext; [auto|auto| |].
  - unfold matmul, tabulate, scale_rows. autorewrite with shapes. reflexivity.
  - autorewrite with shapes. unfold scale_rows at 1. autorewrite with shapes.
    rewrite HV1, HU0. intros i j Hi Hj.
    rewrite !entry_matmul
      by (autorewrite with shapes; unfold scale_rows; autorewrite with shapes; lia).
    autorewrite with shapes. rewrite HV0.
    replace (Nat.min k n) with k by lia.
    rewrite (sum_truncate (k := k) (m := m)); [|lia|].
    + apply sum_ext. intros l Hl.
      rewrite entry_transpose by (autorewrite with shapes; lia).
      rewrite entry_rows_upto by lia.
      rewrite entry_scale_rows by (autorewrite with shapes; lia).
      rewrite !entry_transpose by (autorewrite with shapes; lia).
      rewrite entry_cols_upto by lia.
      rewrite entry_matmul by (autorewrite with shapes; lia).
      autorewrite with shapes. rewrite HV0.
      rewrite (sum_single (j := l)); [ |lia| ].
      * rewrite entry_transpose by lia.
        rewrite entry_diag_embed by lia. rewrite Nat.eqb_refl. ring.
      * intros a Ha Hne. rewrite entry_diag_embed by lia.
        destruct (Nat.eqb_spec a l); [contradiction|ring].
    + intros b Hb1 Hb2.
      rewrite entry_matmul by (autorewrite with shapes; lia).
      autorewrite with shapes. rewrite HV0.
      rewrite sum_all_zero; [ring|].
      intros a Ha. rewrite entry_diag_embed by lia.
      destruct (Nat.eqb_spec a b); [lia|ring].
Qed.

(** Where every singular value passes the cutoff, [pinv] inverts them all. *)
Lemma cutoff_keeps_all (cutoff : car) (s d : list car) :
  reciprocal s = Ok d -> Forall (fun x => ltb cutoff x = true) s ->
  map (fun x => if ltb cutoff x then 1 / x else 0) s = d.
Proof.
  revert d. induction s as [|x s IH]; intros d Hd Hs; simpl in *.
  - injection Hd as <-. reflexivity.
  - destruct (is_zero x); [discriminate Hd|].
    destruct (reciprocal s) as [d'|e]; [|discriminate Hd].
    cbn [bind] in Hd. injection Hd as <-.
    inversion Hs as [|? ? Hx Hs']; subst. rewrite Hx. f_equal.
    apply IH; [reflexivity|exact Hs'].
Qed.

Lemma numpy_pinv_value (svd : svd_fn) (rcond : car) (A U : ndarray) (s : list car)
      (VT : ndarray) :
  svd A = Ok (U, s, VT) -> svd_spec A U s VT ->
  numpy_pinv svd rcond A
  = Ok (pinv_formula A U
          (map (fun x => if ltb (rcond * amax s) x then 1 / x else 0) s) VT).
Proof.
  intros Hsvd Hspec. unfold numpy_pinv. rewrite Hsvd. cbn [bind].
  pose proof Hspec as (HwU & HsU & HwV & HsV & Hrest).
  pose proof (shape_split _ HsU) as [HU0 HU1].
  pose proof (shape_split _ HsV) as [HV0 HV1].
  rewrite dot_aligned
    by (autorewrite with shapes; unfold scale_rows; autorewrite with shapes; lia).
  rewrite reduced_pinv_formula with (s := s) by exact Hspec. reflexivity.
Qed.

(** With no singular value cut, [pinv] returns the pseudoinverse. *)
Lemma numpy_pinv_is_pinv (svd : svd_fn) (rcond : car) (A U : ndarray) (s : list car)
      (VT : ndarray) :
  svd A = Ok (U, s, VT) -> svd_spec A U s VT ->
  Forall (fun x => x <> 0 /\ ltb (rcond * amax s) x = true) s ->
  exists X, numpy_pinv svd rcond A = Ok X /\ is_pinv A X.
Proof.
  intros Hsvd Hspec Hs.
  assert (Hnz : Forall (fun x => x <> 0) s).
  { eapply Forall_impl; [|exact Hs]. intros x [Hx _]. exact Hx. }
  assert (Hcut : Forall (fun x => ltb (rcond * amax s) x = true) s).
  { eapply Forall_impl; [|exact Hs]. intros x [_ Hx]. exact Hx. }
  destruct (proj2 (reciprocal_defined s) Hnz) as [d Hd].
  exists (pinv_formula A U d VT). split.
  - rewrite (numpy_pinv_value svd rcond Hsvd Hspec).
    rewrite (cutoff_keeps_all _ Hd Hcut). reflexivity.
  - apply (pinv_formula_is_pinv Hspec Hd).
Qed.

(** The two pseudoinverse cells, with NumPy's [pinv]. *)
Lemma pinv_cells_agree
  (svd svd' : svd_fn) (rcond : car) (A U : ndarray) (s : list car)
  (VT U' : ndarray) (s' : list car) (VT' : ndarray) :
  svd A = Ok (U, s, VT) -> svd_spec A U s VT ->
  svd' A = Ok (U', s', VT') -> svd_spec A U' s' VT' ->
  shape1 A <= shape0 A ->
  Forall (fun x => x <> 0) s ->
  Forall (fun x => x <> 0 /\ ltb (rcond * amax s') x = true) s' ->
  exists X, is_pinv A X /\
            cell_pinv_svd svd A = Ok (A, X) /\
            cell_pinv (numpy_pinv svd' rcond) A = Ok (A, X).
Proof.
  intros Hsvd Hspec Hsvd' Hspec' Hle Hnz Hs'.
  destruct (numpy_pinv_is_pinv svd' rcond Hsvd' Hspec' Hs') as (X & HX & HpX).
  exists X. split; [exact HpX|].
  destruct (pinv_via_svd_general svd Hsvd Hspec) as [_ H].
  destruct (H Hnz) as (d & _ & _ & Huniq & Hcell).
  destruct (Hcell Hle) as [Hc _].
  rewrite <- (Huniq X HpX) in Hc. split; [exact Hc|].
  unfold cell_pinv. rewrite HX. reflexivity.
Qed.

(** *** Checking a factorisation

    Boolean versions of equality, well-formedness and the SVD contract, so
    that a concrete factorisation can be checked by evaluation. *)

Definition scalar_eqb (x y : car) : bool := is_zero (x - y).

Fixpoint list_eqb (T : Type) (eqb : T -> T -> bool) (l1 l2 : list T) : bool :=
  match l1, l2 with
  | [], [] => true
  | x :: l1', y :: l2' => eqb x y && list_eqb eqb l1' l2'
  | _, _ => false
  end.

Definition ndarray_eqb (A B : ndarray) : bool :=
  (shape0 A =? shape0 B) && (shape1 A =? shape1 B)
  && list_eqb (list_eqb scalar_eqb) (data A) (data B).

Definition wfb (A : ndarray) : bool :=
  (length (data A) =? shape0 A)
  && forallb (fun r => length r =? shape1 A) (data A).

Definition orthogonalb (Q : ndarray) : bool :=
  ndarray_eqb (matmul (transpose Q) Q) (eye (shape0 Q))
  && ndarray_eqb (matmul Q (transpose Q)) (eye (shape0 Q)).

Definition svd_specb (A U : ndarray) (s : list car) (VT : ndarray) : bool :=
  wfb U && ndarray_eqb U (tabulate (shape0 A) (shape0 A) (entry U))
  && wfb VT && ndarray_eqb VT (tabulate (shape1 A) (shape1 A) (entry VT))
  && (length s =? Nat.min (shape0 A) (shape1 A))
  && orthogonalb U && orthogonalb VT
  && ndarray_eqb A (matmul (matmul U (diag_embed (shape0 A) (shape1 A) s)) VT).

Lemma scalar_eqb_eq (x y : car) : scalar_eqb x y = true -> x = y.
Proof.
  unfold scalar_eqb. intros H. apply is_zero_spec in H.
  replace x with (x - y + y) by ring. rewrite H. ring.
Qed.

Lemma list_eqb_eq (T : Type) (eqb : T -> T -> bool) (l1 l2 : list T) :
  (forall x y, eqb x y = true -> x = y) -> list_eqb eqb l1 l2 = true -> l1 = l2.
Proof.
  intros Heqb. revert l2.
  induction l1 as [|x l1 IH]; intros [|y l2] H; simpl in H; try discriminate.
  - reflexivity.
  - apply andb_prop in H. destruct H as [Hxy Hl].
    f_equal; [apply Heqb; exact Hxy|apply IH; exact Hl].
Qed.

Lemma ndarray_eqb_eq (A B : ndarray) : ndarray_eqb A B = true -> A = B.
Proof.
  destruct A as [[m n] dA], B as [[m' n'] dB]. unfold ndarray_eqb, shape0, shape1.
  simpl. intros H.
  apply andb_prop in H. destruct H as [H Hd].
  apply andb_prop in H. destruct H as [Hm Hn].
  apply Nat.eqb_eq in Hm, Hn. subst m' n'. f_equal.
  apply (list_eqb_eq (list_eqb scalar_eqb)); [|exact Hd].
  intros r1 r2. apply list_eqb_eq. exact scalar_eqb_eq.
Qed.

Lemma wfb_wf (A : ndarray) : wfb A = true -> wf A.
Proof.
  unfold wfb, wf. intros H. apply andb_prop in H. destruct H as [Hl Hr].
  apply Nat.eqb_eq in Hl. split; [exact Hl|].
  apply Forall_forall. intros r Hin.
  rewrite forallb_forall in Hr. apply Nat.eqb_eq. apply Hr. exact Hin.
Qed.

Lemma orthogonalb_orthogonal (Q : ndarray) : orthogonalb Q = true -> orthogonal Q.
Proof.
  unfold orthogonalb, orthogonal. intros H.
  apply andb_prop in H. destruct H as [H1 H2].
  split; apply ndarray_eqb_eq; assumption.
Qed.

Lemma svd_specb_sound (A U : ndarray) (s : list car) (VT : ndarray) :
  svd_specb A U s VT = true -> svd_spec A U s VT.
Proof.
  unfold svd_specb, svd_spec. intros H.
  do 7 (let H' := fresh "H" in apply andb_prop in H; destruct H as [H H']).
  repeat match goal with
         | |- _ /\ _ => split
         end;
    try (apply wfb_wf; assumption);
    try (apply orthogonalb_orthogonal; assumption);
    try (apply ndarray_eqb_eq; assumption);
    try (apply Nat.eqb_eq; assumption).
  - match goal with
    | E : ndarray_eqb U _ = true |- _ => apply ndarray_eqb_eq in E; rewrite E
    end. reflexivity.
  - match goal with
    | E : ndarray_eqb VT _ = true |- _ => apply ndarray_eqb_eq in E; rewrite E
    end. reflexivity.
Qed.

Definition is_pinvb (A X : ndarray) : bool :=
  wfb X && (shape0 X =? shape1 A) && (shape1 X =? shape0 A)
  && ndarray_eqb (matmul (matmul A X) A) A
  && ndarray_eqb (matmul (matmul X A) X) X
  && ndarray_eqb (transpose (matmul A X)) (matmul A X)
  && ndarray_eqb (transpose (matmul X A)) (matmul X A).

Lemma is_pinvb_sound (A X : ndarray) : is_pinvb A X = true -> is_pinv A X.
Proof.
  unfold is_pinvb, is_pinv. intros H.
  do 6 (let H' := fresh "H" in apply andb_prop in H; destruct H as [H H']).
  apply Nat.eqb_eq in H4, H5.
  split; [apply wfb_wf; assumption|].
  split; [rewrite (shape_eta X); congruence|].
  repeat split; apply ndarray_eqb_eq; assumption.
Qed.

(** *** Rank and singular values *)

(** The columns of [A] are independent: only the zero vector is mapped to
    zero. *)
Definition full_column_rank (A : ndarray) : Prop :=
  forall x : ndarray,
    wf x -> shape x = (shape1 A, 1%nat) ->
    matmul A x = zeros (shape0 A, 1%nat) -> x = zeros (shape1 A, 1%nat).

Lemma zeros_tabulate (m n : nat) : zeros (m, n) = tabulate m n (fun _ _ => 0).
Proof.
  apply ndarray_ext; [auto|auto|reflexivity|].
  intros i j Hi Hj. rewrite entry_zeros.
  symmetry. apply (entry_tabulate (fun _ _ => 0)); assumption.
Qed.

Lemma matmul_zeros_r (M : ndarray) (n p : nat) :
  matmul M (zeros (n, p)) = zeros (shape0 M, p).
Proof.
  rewrite (zeros_tabulate (shape0 M)). apply tabulate_ext. intros i j Hi Hj.
  apply sum_all_zero. intros k Hk. rewrite entry_zeros. ring.
Qed.

(** An array with a left inverse has independent columns. *)
Lemma left_inverse_full_column_rank (A L : ndarray) :
  shape1 L = shape0 A -> matmul L A = eye (shape1 A) -> full_column_rank A.
Proof.
  intros HL HLA x Hwx Hsx Hax.
  pose proof (shape_split _ Hsx) as [Hx0 Hx1].
  rewrite <- (matmul_eye_l Hwx Hx0), <- HLA.
  rewrite matmul_assoc by exact HL.
  rewrite Hax, matmul_zeros_r.
  change (shape0 L) with (shape0 (matmul L A)). rewrite HLA. reflexivity.
Qed.

(** The [i]-th unit vector, as a column. *)
Definition unit_column (n i : nat) : ndarray :=
  tabulate n 1 (fun k _ => if k =? i then 1 else 0).

(** With independent columns no singular value is zero. *)
Lemma full_column_rank_singular_values (A U : ndarray) (s : list car) (VT : ndarray) :
  svd_spec A U s VT -> shape1 A <= shape0 A -> full_column_rank A ->
  Forall (fun x => x <> 0) s.
Proof.
  intros (HwU & HsU & HwV & HsV & Hlen & HoU & HoV & HA) Hle Hrank.
  pose proof (shape_split _ HsU) as [HU0 HU1].
  pose proof (shape_split _ HsV) as [HV0 HV1].
  set (m := shape0 A) in *. set (n := shape1 A) in *.
  apply Forall_forall. intros v Hv.
  destruct (In_nth _ _ 0 Hv) as (i & Hi & Hnth). subst v. intros Hzero.
  assert (Hin : i < n) by lia.
  set (e := unit_column n i).
  set (x := matmul (transpose VT) e).
  assert (Hcancel : matmul VT x = e).
  { unfold x. apply (orthogonal_cancel_r HoV HsV); [apply wf_tabulate|reflexivity]. }
  assert (HSe : matmul (diag_embed m n s) e = zeros (m, 1%nat)).
  { rewrite zeros_tabulate. unfold matmul. shp. unfold e at 1. shp.
    apply tabulate_ext. intros a b Ha Hb.
    rewrite (sum_single (j := i)); [ |exact Hin| ].
    - rewrite entry_diag_embed by assumption.
      destruct (Nat.eqb_spec a i); [subst a; rewrite Hzero|]; ring.
    - intros k Hk Hne. unfold e, unit_column.
      rewrite (entry_tabulate (fun k _ => if k =? i then 1 else 0)) by lia.
      destruct (Nat.eqb_spec k i); [contradiction|ring]. }
  assert (HAx : matmul A x = zeros (m, 1%nat)).
  { rewrite HA at 1.
    rewrite (matmul_assoc (matmul U (diag_embed m n s)) VT) by shp.
    rewrite Hcancel.
    rewrite (matmul_assoc U) by shp.
    rewrite HSe, matmul_zeros_r. rewrite HU0. reflexivity. }
  assert (Hx : x = zeros (n, 1%nat)).
  { apply Hrank; [unfold x; auto| |exact HAx].
    unfold x, e. rewrite shape_eta. shp. rewrite HV1. reflexivity. }
  assert (He : entry e i 0 = 0).
  { rewrite <- Hcancel, Hx, matmul_zeros_r. apply entry_zeros. }
  unfold e, unit_column in He.
  rewrite (entry_tabulate (fun k _ => if k =? i then 1 else 0)) in He by lia.
  rewrite Nat.eqb_refl in He.
  exact (F_1_neq_0 scalar_field He).
Qed.

(** The matrix of the pseudoinverse cells has independent columns, over
    scalars in which 10 is not zero: the array the cells print is a left
    inverse. *)
Lemma cell_29_left_inverse :
  of_Z 10 <> 0 -> matmul cell_29_B cell_29_A = eye 2.
Proof.
  intros H10.
  apply ndarray_ext; [auto|auto|reflexivity|].
  intros i j Hi Hj.
  change (shape0 (matmul cell_29_B cell_29_A)) with 2%nat in Hi.
  change (shape1 (matmul cell_29_B cell_29_A)) with 2%nat in Hj.
  rewrite entry_matmul by assumption.
  rewrite entry_eye by assumption.
  change (shape1 cell_29_B) with 4%nat.
  destruct i as [|[|i]]; [| |lia]; destruct j as [|[|j]]; try lia;
    cbn [sum Nat.eqb]; unfold entry; cbn [cell_29_A cell_29_B tenths_array array
      data map nth]; cbn [of_Z of_pos] in *;
    pose proof (Finv_l scalar_field _ H10) as Hinv;
    rewrite !(Fdiv_def scalar_field);
    set (ten := (1 + 1) * (1 + (1 + 1) * ((1 + 1) * 1))) in *;
    set (t := finv ten) in *.
  - transitivity (t * ten * (t * ten)); [unfold ten; ring|rewrite Hinv; ring].
  - unfold ten; ring.
  - unfold ten; ring.
  - transitivity (t * ten * (t * ten)); [unfold ten; ring|rewrite Hinv; ring].
Qed.

Lemma cell_29_A_full_column_rank : of_Z 10 <> 0 -> full_column_rank cell_29_A.
Proof.
  intros H10.
  apply (left_inverse_full_column_rank (L := cell_29_B)); [reflexivity|].
  apply cell_29_left_inverse. exact H10.
Qed.

(** ** The claims about the SVD notebook *)

(** C1. Reconstruction from the SVD factors gives back the matrix: whenever
    [svd(A)] returns factors [U], [s], [VT] of [A], the product
    [U.dot(Sigma.dot(VT))] with [Sigma] the m by n array holding [diag(s)] is
    [A]; the rectangular cell (which fills the leading n by n block, so needs
    no more columns than rows) and the square cell both print [A] twice, once
    as defined and once as reconstructed.  In particular so do the cells of
    the notebook, on their 3 by 2 and 3 by 3 matrices. *)
Theorem svd_reconstruction :
  (forall (svd : svd_fn) (A U : ndarray) (s : list car) (VT : ndarray),
      svd A = Ok (U, s, VT) -> svd_spec A U s VT ->
      (SV <- dot (diag_embed (shape0 A) (shape1 A) s) VT ;; dot U SV) = Ok A /\
      (shape1 A <= shape0 A -> cell_reconstruct_rect svd A = Ok (A, A)) /\
      (shape0 A = shape1 A -> cell_reconstruct_square svd A = Ok (A, A))) /\
  (forall (svd : svd_fn) (U : ndarray) (s : list car) (VT : ndarray),
      svd cell_12_A = Ok (U, s, VT) -> svd_spec cell_12_A U s VT ->
      cell_reconstruct_rect svd cell_12_A = Ok (cell_12_A, cell_12_A)) /\
  (forall (svd : svd_fn) (U : ndarray) (s : list car) (VT : ndarray),
      svd cell_14_A = Ok (U, s, VT) -> svd_spec cell_14_A U s VT ->
      cell_reconstruct_square svd cell_14_A = Ok (cell_14_A, cell_14_A)).
Proof.
  split; [exact svd_reconstruction_general|]. split.
  - intros svd U s VT Hsvd Hspec.
    apply (svd_reconstruction_general svd Hsvd Hspec).
    change (2 <= 3). lia.
  - intros svd U s VT Hsvd Hspec.
    apply (svd_reconstruction_general svd Hsvd Hspec). reflexivity.
Qed.

(** C2, amended. The pseudoinverse computed by hand from the SVD is the
    library pseudoinverse wherever [pinv] cuts no singular value.  The
    reciprocals [1.0 / s] exist exactly when no singular value is zero; then
    [V . D^T . U^T], with [D] the m by n array holding [diag(1.0 / s)],
    satisfies the four Moore-Penrose conditions, every array that satisfies
    them is equal to it, and the cell computes it (it fills the leading n by n
    block, so needs no more columns than rows).  [pinv(A)] inverts only the
    singular values greater than [rcond] times the largest: where all of them
    are, and none is zero, the two pseudoinverse cells print the same arrays.
    The 4 by 2 matrix of the two cells has no zero singular value (over
    scalars where 10 is not zero, as the reals), so the two cells print the
    same when its singular values pass the cutoff of [rcond=1e-15]. *)
Theorem pinv_via_svd_is_pinv :
  (forall (svd : svd_fn) (A U : ndarray) (s : list car) (VT : ndarray),
      svd A = Ok (U, s, VT) -> svd_spec A U s VT ->
      ((exists d, reciprocal s = Ok d) <-> Forall (fun x => x <> 0) s) /\
      (Forall (fun x => x <> 0) s ->
       exists d, reciprocal s = Ok d /\
         is_pinv A (pinv_formula A U d VT) /\
         (forall X, is_pinv A X -> X = pinv_formula A U d VT) /\
         (shape1 A <= shape0 A ->
          cell_pinv_svd svd A = Ok (A, pinv_formula A U d VT) /\
          forall (pinv : pinv_fn) (X : ndarray),
            pinv A = Ok X -> is_pinv A X ->
            cell_pinv pinv A = cell_pinv_svd svd A))) /\
  (forall (svd svd' : svd_fn) (rcond : car) (A U : ndarray) (s : list car)
          (VT U' : ndarray) (s' : list car) (VT' : ndarray),
      svd A = Ok (U, s, VT) -> svd_spec A U s VT ->
      svd' A = Ok (U', s', VT') -> svd_spec A U' s' VT' ->
      shape1 A <= shape0 A ->
      Forall (fun x => x <> 0) s ->
      Forall (fun x => x <> 0 /\ ltb (rcond * amax s') x = true) s' ->
      exists X, is_pinv A X /\
                cell_pinv_svd svd A = Ok (A, X) /\
                cell_pinv (numpy_pinv svd' rcond) A = Ok (A, X)) /\
  (forall (svd svd' : svd_fn) (U : ndarray) (s : list car) (VT U' : ndarray)
          (s' : list car) (VT' : ndarray),
      of_Z 10 <> 0 ->
      svd cell_29_A = Ok (U, s, VT) -> svd_spec cell_29_A U s VT ->
      svd' cell_29_A = Ok (U', s', VT') -> svd_spec cell_29_A U' s' VT' ->
      Forall (fun x => x <> 0) s /\ Forall (fun x => x <> 0) s' /\
      (Forall (fun x => ltb (rcond_default * amax s') x = true) s' ->
       exists X, is_pinv cell_29_A X /\
                 cell_pinv_svd svd cell_29_A = Ok (cell_29_A, X) /\
                 cell_pinv (numpy_pinv svd' rcond_default) cell_29_A
                 = Ok (cell_29_A, X))).
Proof.
  split; [exact pinv_via_svd_general|]. split; [exact pinv_cells_agree|].
  intros svd svd' U s VT U' s' VT' H10 Hsvd Hspec Hsvd' Hspec'.
  assert (Hle : shape1 cell_29_A <= shape0 cell_29_A) by (change (2 <= 4); lia).
  pose proof (full_column_rank_singular_values Hspec Hle
                (cell_29_A_full_column_rank H10)) as Hnz.
  pose proof (full_column_rank_singular_values Hspec' Hle
                (cell_29_A_full_column_rank H10)) as Hnz'.
  split; [exact Hnz|]. split; [exact Hnz'|].
  intros Hcut.
  apply (pinv_cells_agree svd svd' rcond_default Hsvd Hspec Hsvd' Hspec' Hle Hnz).
  apply Forall_and; assumption.
Qed.

(** C3. The two ways of computing the reduced transform agree: with
    [Sigma_k] the first [k] columns of the embedded diagonal and [VT_k] the
    first [k] rows of [VT], [U.dot(Sigma_k)] and [A.dot(VT_k.T)] are the same
    array; the cell, which fills the leading m by m block of [Sigma] and so
    needs no more rows than columns, prints one [T] twice.  In particular so
    does the cell of the notebook, on its 3 by 10 matrix with [k = 2]. *)
Theorem reduced_transform_two_ways :
  (forall (svd : svd_fn) (k : nat) (A U : ndarray) (s : list car) (VT : ndarray),
      svd A = Ok (U, s, VT) -> svd_spec A U s VT -> k <= length s ->
      (exists T, dot U (cols_upto k (diag_embed (shape0 A) (shape1 A) s)) = Ok T
                 /\ dot A (transpose (rows_upto k VT)) = Ok T) /\
      (shape0 A <= shape1 A ->
       exists B T, cell_reduce svd k A = Ok (A, B, T, T))) /\
  (forall (svd : svd_fn) (U : ndarray) (s : list car) (VT : ndarray),
      svd cell_37_A = Ok (U, s, VT) -> svd_spec cell_37_A U s VT ->
      exists B T, cell_reduce svd 2 cell_37_A = Ok (cell_37_A, B, T, T)).
Proof.
  split; [exact reduced_transform_general|].
  intros svd U s VT Hsvd Hspec.
  assert (Hk : 2 <= length s).
  { destruct Hspec as (_ & _ & _ & _ & Hlen & _). rewrite Hlen.
    change (2 <= 3). lia. }
  apply (reduced_transform_general svd Hsvd Hspec Hk).
  change (3 <= 10). lia.
Qed.

End NumPy.

(** ** Exact rationals as scalars *)

Definition Qc_is_zero (x : Qc) : bool := Qeq_bool (this x) 0.

Lemma Qc_is_zero_spec (x : Qc) : Qc_is_zero x = true <-> x = Q2Qc 0.
Proof.
  unfold Qc_is_zero. rewrite Qeq_bool_iff. split.
  - intros H. apply Qc_is_canon. exact H.
  - intros ->. reflexivity.
Qed.

Definition Qc_ltb (x y : Qc) : bool := negb (Qle_bool (this y) (this x)).

#[export] Instance QcScalar : Scalar := {|
  car := Qc;
  fzero := Q2Qc 0;
  fone := Q2Qc 1;
  fadd := Qcplus;
  fmul := Qcmult;
  fsub := Qcminus;
  fopp := Qcopp;
  fdiv := Qcdiv;
  finv := Qcinv;
  scalar_field := Qcft;
  is_zero := Qc_is_zero;
  is_zero_spec := Qc_is_zero_spec;
  ltb := Qc_ltb
|}.

(** The rational [n / d]. *)
Definition frac (n : Z) (d : positive) : Qc := Q2Qc (n # d).

(** *** A matrix with a rational SVD

    The matrices of the notebook have irrational singular values.  This 3 by
    2 matrix has the singular values 30 and 15, and rational factors. *)
Definition ex_A : ndarray :=
  array [[frac (-2) 1; frac 14 1]; [frac 8 1; frac 19 1]; [frac 20 1; frac 10 1]].

Definition ex_U : ndarray :=
  array [[frac 1 3; frac 2 3; frac 2 3];
         [frac 2 3; frac 1 3; frac (-2) 3];
         [frac 2 3; frac (-2) 3; frac 1 3]].

Definition ex_s : list Qc := [frac 30 1; frac 15 1].

Definition ex_VT : ndarray :=
  array [[frac 3 5; frac 4 5]; [frac (-4) 5; frac 3 5]].

Definition ex_svd : svd_fn := fun _ => Ok (ex_U, ex_s, ex_VT).

(** Its transpose, 2 by 3, with the factors exchanged. *)
Definition ex_svd_T : svd_fn :=
  fun _ => Ok (transpose ex_VT, ex_s, transpose ex_U).

(** *** An ill-conditioned matrix

    The diagonal matrix with the singular values 1 and 1e-16, its own
    decomposition with identity factors. *)
Definition ill_A : ndarray :=
  array [[frac 1 1; frac 0 1]; [frac 0 1; frac 1 (10 ^ 16)]].

Definition ill_s : list Qc := [frac 1 1; frac 1 (10 ^ 16)].

Definition ill_svd : svd_fn := fun _ => Ok (eye 2, ill_s, eye 2).

Lemma ex_svd_spec : svd_spec ex_A ex_U ex_s ex_VT.
Proof. apply svd_specb_sound. vm_compute. reflexivity. Qed.

Lemma ex_svd_T_spec :
  svd_spec (transpose ex_A) (transpose ex_VT) ex_s (transpose ex_U).
Proof. apply svd_specb_sound. vm_compute. reflexivity. Qed.

Lemma ex_s_nonzero : Forall (fun x : Qc => x <> Q2Qc 0) ex_s.
Proof. repeat constructor; intros H; discriminate H. Qed.

Lemma svd_reconstruction_witness :
  svd_spec ex_A ex_U ex_s ex_VT /\
  cell_reconstruct_rect ex_svd ex_A = Ok (ex_A, ex_A).
Proof.
  split; [exact ex_svd_spec|].
  apply (proj1 svd_reconstruction ex_svd ex_A ex_U ex_s ex_VT eq_refl ex_svd_spec).
  vm_compute. lia.
Defined.

Lemma ex_s_not_cut :
  Forall (fun x : Qc => x <> Q2Qc 0 /\ ltb (rcond_default * amax ex_s) x = true) ex_s.
Proof. repeat constructor; try (intros H; discriminate H); vm_compute; reflexivity. Qed.

Lemma pinv_via_svd_is_pinv_witness :
  svd_spec ex_A ex_U ex_s ex_VT /\
  Forall (fun x : Qc => x <> Q2Qc 0) ex_s /\
  Forall (fun x : Qc => x <> Q2Qc 0 /\ ltb (rcond_default * amax ex_s) x = true) ex_s /\
  exists X, is_pinv ex_A X /\
            cell_pinv_svd ex_svd ex_A = Ok (ex_A, X) /\
            cell_pinv (numpy_pinv ex_svd rcond_default) ex_A = Ok (ex_A, X).
Proof.
  split; [exact ex_svd_spec|]. split; [exact ex_s_nonzero|].
  split; [exact ex_s_not_cut|].
  apply (proj1 (proj2 pinv_via_svd_is_pinv) ex_svd ex_svd rcond_default
           ex_A ex_U ex_s ex_VT ex_U ex_s ex_VT
           eq_refl ex_svd_spec eq_refl ex_svd_spec).
  - vm_compute. lia.
  - exact ex_s_nonzero.
  - exact ex_s_not_cut.
Defined.

Lemma ill_svd_spec : svd_spec ill_A (eye 2) ill_s (eye 2).
Proof. apply svd_specb_sound. vm_compute. reflexivity. Qed.

Lemma ill_s_nonzero : Forall (fun x : Qc => x <> Q2Qc 0) ill_s.
Proof. repeat constructor; intros H; discriminate H. Qed.

(** On the matrix diag(1, 1e-16), whose singular values are not zero, the
    hand-made pseudoinverse is diag(1, 1e16) and [pinv(A)] is diag(1, 0). *)
Lemma pinv_cuts_small_singular_value :
  svd_spec ill_A (eye 2) ill_s (eye 2) /\
  Forall (fun x : Qc => x <> Q2Qc 0) ill_s /\
  cell_pinv_svd ill_svd ill_A
  = Ok (ill_A, array [[frac 1 1; frac 0 1]; [frac 0 1; frac (10 ^ 16) 1]]) /\
  cell_pinv (numpy_pinv ill_svd rcond_default) ill_A
  = Ok (ill_A, array [[frac 1 1; frac 0 1]; [frac 0 1; frac 0 1]]) /\
  cell_pinv (numpy_pinv ill_svd rcond_default) ill_A <> cell_pinv_svd ill_svd ill_A.
Proof.
  assert (Hman : cell_pinv_svd ill_svd ill_A
    = Ok (ill_A, array [[frac 1 1; frac 0 1]; [frac 0 1; frac (10 ^ 16) 1]])).
  { destruct (pinv_via_svd_general ill_svd eq_refl ill_svd_spec) as [_ H].
    destruct (H ill_s_nonzero) as (d & Hd & _ & _ & Hcell).
    destruct Hcell as [Hcell _]; [vm_compute; lia|].
    rewrite Hcell.
    match goal with
    | |- Ok (_, ?X) = Ok (_, ?Y) => replace X with Y; [reflexivity|symmetry]
    end.
    assert (Hd' : exists d', reciprocal ill_s = Ok d' /\
                  list_eqb scalar_eqb d' [frac 1 1; frac (10 ^ 16) 1] = true).
    { eexists. split; [reflexivity|vm_compute; reflexivity]. }
    destruct Hd' as (d' & Hd' & E). rewrite Hd in Hd'. injection Hd' as <-.
    apply (list_eqb_eq _ _ _ (@scalar_eqb_eq QcScalar)) in E. rewrite E.
    apply ndarray_eqb_eq. vm_compute. reflexivity. }
  assert (Hlib : cell_pinv (numpy_pinv ill_svd rcond_default) ill_A
    = Ok (ill_A, array [[frac 1 1; frac 0 1]; [frac 0 1; frac 0 1]])).
  { unfold cell_pinv.
    rewrite (numpy_pinv_value ill_svd rcond_default eq_refl ill_svd_spec).
    cbn [bind].
    match goal with
    | |- Ok (_, ?X) = Ok (_, ?Y) => replace X with Y; [reflexivity|symmetry]
    end.
    apply ndarray_eqb_eq. vm_compute. reflexivity. }
  split; [exact ill_svd_spec|]. split; [exact ill_s_nonzero|].
  split; [exact Hman|]. split; [exact Hlib|].
  rewrite Hman, Hlib. intros H.
  apply (f_equal (fun r => match r with
                           | Ok (_, B) => this (entry (K := QcScalar) B 1 1)
                           | Raise _ => this (frac 0 1)
                           end)) in H.
  vm_compute in H. discriminate H.
Qed.

Lemma reduced_transform_two_ways_witness :
  svd_spec (transpose ex_A) (transpose ex_VT) ex_s (transpose ex_U) /\
  exists B T, cell_reduce ex_svd_T 1 (transpose ex_A) = Ok (transpose ex_A, B, T, T).
Proof.
  split; [exact ex_svd_T_spec|].
  apply (proj1 reduced_transform_two_ways ex_svd_T 1 (transpose ex_A) _ _ _
           eq_refl ex_svd_T_spec).
  - vm_compute. lia.
  - vm_compute. lia.
Defined.

(** * Notebooks as data

    A notebook is a list of cells.  The narrative (markdown) cells carry no
    code and are left out; [index] is the position of a code cell among all
    the cells of its notebook.  A code cell has the execution count and the
    standard output the notebook file records, its source lines, and, when
    the source is a Python program, its statements. *)

Open Scope string_scope.

(** ** Python syntax, as far as the cells use it *)

#[local] Set Warnings "-register-all".

Inductive binop : Type := Add | Sub | Mult | Div | BitXor.

Inductive expr : Type :=
| Name (id : string)
| Num (literal : string)
| Str (s : string)
| Ellipsis                                   (* [...] *)
| ListE (elts : list expr)                   (* [a, b] *)
| TupleE (elts : list expr)                  (* a, b *)
| DictE (keys values : list expr)            (* {k: v} *)
| Attr (value : expr) (attr : string)        (* value.attr *)
| Call (func : expr) (args : list expr)      (* func(args), keywords last *)
| Kw (arg : string) (value : expr)           (* arg=value, in a call *)
| BinOp (op : binop) (left right : expr)
| Subscript (value : expr) (slice : list expr)   (* value[i, j] *)
| SliceAll                                   (* [:] as a subscript *)
| SliceTo (upper : expr).                    (* [:upper] as a subscript *)

Inductive stmt : Type :=
| FromImport (module name asname : string)   (* from module import name as asname *)
| Import (module asname : string)            (* import module as asname *)
| Assign (target value : expr)               (* target = value *)
| ExprStmt (value : expr)
| Print (value : expr).                      (* print(value) *)

Inductive kernelspec : Type := Python2 | Python3.

Record cell : Type := {
  index : nat;
  execution_count : option nat;
  source : list string;
  outputs : list string;
  code : option (list stmt)
}.

Record notebook : Type := {
  kernel : kernelspec;
  cells : list cell
}.

Definition svd_cell_3 : cell := {|
  index := 3;
  execution_count := None;
  source :=
    ["A = U . Sigma . V^T"];
  outputs :=
    [];
  code := Some
      [Assign (Name "A") (BinOp BitXor (Attr (Attr (Name "U") "Sigma") "V") (Name "T"))]
|}.

Definition svd_cell_6 : cell := {|
  index := 6;
  execution_count := Some 1;
  source :=
    ["# Singular-value decomposition";
     "from numpy import array";
     "from scipy.linalg import svd";
     "# define a matrix";
     "A = array([[1, 2], [3, 4], [5, 6]])";
     "print(A)";
     "# SVD";
     "U, s, VT = svd(A)";
     "print(U)";
     "print(s)";
     "print(VT)"];
  outputs :=
    ["[[1 2]";
     " [3 4]";
     " [5 6]]";
     "[[-0.2298477   0.88346102  0.40824829]";
     " [-0.52474482  0.24078249 -0.81649658]";
     " [-0.81964194 -0.40189603  0.40824829]]";
     "[9.52551809 0.51430058]";
     "[[-0.61962948 -0.78489445]";
     " [-0.78489445  0.61962948]]"];
  code := Some
      [FromImport "numpy" "array" "array";
       FromImport "scipy.linalg" "svd" "svd";
       Assign (Name "A") (Call (Name "array") [ListE [ListE [Num "1"; Num "2"];
                          ListE [Num "3"; Num "4"];
                          ListE [Num "5"; Num "6"]]]);
       Print (Name "A");
       Assign (TupleE [Name "U"; Name "s"; Name "VT"]) (Call (Name "svd") [Name "A"]);
       Print (Name "U");
       Print (Name "s");
       Print (Name "VT")]
|}.

Definition svd_cell_8 : cell := {|
  index := 8;
  execution_count := None;
  source :=
    ["U (m x m) . Sigma (m x m) . V^T (n x n)"];
  outputs :=
    [];
  code := None
|}.

Definition svd_cell_10 : cell := {|
  index := 10;
  execution_count := None;
  source :=
    ["U (m x m) . Sigma (m x n) . V^T (n x n)"];
  outputs :=
    [];
  code := None
|}.

Definition svd_cell_12 : cell := {|
  index := 12;
  execution_count := Some 2;
  source :=
    ["# Reconstruct SVD";
     "from numpy import array";
     "from numpy import diag";
     "from numpy import dot";
     "from numpy import zeros";
     "from scipy.linalg import svd";
     "# define a matrix";
     "A = array([[1, 2], [3, 4], [5, 6]])";
     "print(A)";
     "# Singular-value decomposition";
     "U, s, VT = svd(A)";
     "# create m x n Sigma matrix";
     "Sigma = zeros((A.shape[0], A.shape[1]))";
     "# populate Sigma with n x n diagonal matrix";
     "Sigma[:A.shape[1], :A.shape[1]] = diag(s)";
     "# reconstruct matrix";
     "B = U.dot(Sigma.dot(VT))";
     "print(B)"];
  outputs :=
    ["[[1 2]";
     " [3 4]";
     " [5 6]]";
     "[[1. 2.]";
     " [3. 4.]";
     " [5. 6.]]"];
  code := Some
      [FromImport "numpy" "array" "array";
       FromImport "numpy" "diag" "diag";
       FromImport "numpy" "dot" "dot";
       FromImport "numpy" "zeros" "zeros";
       FromImport "scipy.linalg" "svd" "svd";
       Assign (Name "A") (Call (Name "array") [ListE [ListE [Num "1"; Num "2"];
                          ListE [Num "3"; Num "4"];
                          ListE [Num "5"; Num "6"]]]);
       Print (Name "A");
       Assign (TupleE [Name "U"; Name "s"; Name "VT"]) (Call (Name "svd") [Name "A"]);
       Assign (Name "Sigma") (Call (Name "zeros") [TupleE [Subscript (Attr (Name "A") "shape") [Num "0"];
                           Subscript (Attr (Name "A") "shape") [Num "1"]]]);
       Assign (Subscript (Name "Sigma") [SliceTo (Subscript (Attr (Name "A") "shape") [Num "1"]);
                      SliceTo (Subscript (Attr (Name "A") "shape") [Num "1"])]) (Call (Name "diag") [Name "s"]);
       Assign (Name "B") (Call (Attr (Name "U") "dot") [Call (Attr (Name "Sigma") "dot") [Name "VT"]]);
       Print (Name "B")]
|}.

Definition svd_cell_14 : cell := {|
  index := 14;
  execution_count := Some 3;
  source :=
    ["# Reconstruct SVD";
     "from numpy import array";
     "from numpy import diag";
     "from numpy import dot";
     "from scipy.linalg import svd";
     "# define a matrix";
     "A = array([[1, 2, 3], [4, 5, 6], [7, 8, 9]])";
     "print(A)";
     "# Singular-value decomposition";
     "U, s, VT = svd(A)";
     "# create n x n Sigma matrix";
     "Sigma = diag(s)";
     "# reconstruct matrix";
     "B = U.dot(Sigma.dot(VT))";
     "print(B)"];
  outputs :=
    ["[[1 2 3]";
     " [4 5 6]";
     " [7 8 9]]";
     "[[1. 2. 3.]";
     " [4. 5. 6.]";
     " [7. 8. 9.]]"];
  code := Some
      [FromImport "numpy" "array" "array";
       FromImport "numpy" "diag" "diag";
       FromImport "numpy" "dot" "dot";
       FromImport "scipy.linalg" "svd" "svd";
       Assign (Name "A") (Call (Name "array") [ListE [ListE [Num "1"; Num "2"; Num "3"];
                          ListE [Num "4"; Num "5"; Num "6"];
                          ListE [Num "7"; Num "8"; Num "9"]]]);
       Print (Name "A");
       Assign (TupleE [Name "U"; Name "s"; Name "VT"]) (Call (Name "svd") [Name "A"]);
       Assign (Name "Sigma") (Call (Name "diag") [Name "s"]);
       Assign (Name "B") (Call (Attr (Name "U") "dot") [Call (Attr (Name "Sigma") "dot") [Name "VT"]]);
       Print (Name "B")]
|}.

Definition svd_cell_16 : cell := {|
  index := 16;
  execution_count := None;
  source :=
    ["A^+ = V . D^+ . U^T"];
  outputs :=
    [];
  code := None
|}.

Definition svd_cell_18 : cell := {|
  index := 18;
  execution_count := None;
  source :=
    ["A^+ = VD^+U^T"];
  outputs :=
    [];
  code := None
|}.

Definition svd_cell_20 : cell := {|
  index := 20;
  execution_count := None;
  source :=
    ["A = U . Sigma . V^T"];
  outputs :=
    [];
  code := Some
      [Assign (Name "A") (BinOp BitXor (Attr (Attr (Name "U") "Sigma") "V") (Name "T"))]
|}.

Definition svd_cell_22 : cell := {|
  index := 22;
  execution_count := None;
  source :=
    ["         s11,   0,   0";
     "Sigma = (  0, s22,   0)";
     "           0,   0, s33"];
  outputs :=
    [];
  code := None
|}.

Definition svd_cell_23 : cell := {|
  index := 23;
  execution_count := None;
  source :=
    ["       1/s11,     0,     0";
     "D^+ = (    0, 1/s22,     0)";
     "           0,     0, 1/s33"];
  outputs :=
    [];
  code := None
|}.

Definition svd_cell_25 : cell := {|
  index := 25;
  execution_count := Some 4;
  source :=
    ["# Pseudoinverse";
     "from numpy import array";
     "from numpy.linalg import pinv";
     "# define matrix";
     "A = array([";
     "	[0.1, 0.2],";
     "	[0.3, 0.4],";
     "	[0.5, 0.6],";
     "	[0.7, 0.8]])";
     "print(A)";
     "# calculate pseudoinverse";
     "B = pinv(A)";
     "print(B)"];
  outputs :=
    ["[[0.1 0.2]";
     " [0.3 0.4]";
     " [0.5 0.6]";
     " [0.7 0.8]]";
     "[[-1.00000000e+01 -5.00000000e+00  9.04289323e-15  5.00000000e+00]";
     " [ 8.50000000e+00  4.50000000e+00  5.00000000e-01 -3.50000000e+00]]"];
  code := Some
      [FromImport "numpy" "array" "array";
       FromImport "numpy.linalg" "pinv" "pinv";
       Assign (Name "A") (Call (Name "array") [ListE [ListE [Num "0.1"; Num "0.2"];
                          ListE [Num "0.3"; Num "0.4"];
                          ListE [Num "0.5"; Num "0.6"];
                          ListE [Num "0.7"; Num "0.8"]]]);
       Print (Name "A");
       Assign (Name "B") (Call (Name "pinv") [Name "A"]);
       Print (Name "B")]
|}.

Definition svd_cell_27 : cell := {|
  index := 27;
  execution_count := None;
  source :=
    ["A^+ = V . D^+ . U^V"];
  outputs :=
    [];
  code := None
|}.

Definition svd_cell_29 : cell := {|
  index := 29;
  execution_count := Some 5;
  source :=
    ["# Pseudoinverse via SVD";
     "from numpy import array";
     "from numpy.linalg import svd";
     "from numpy import zeros";
     "from numpy import diag";
     "# define matrix";
     "A = array([";
     "	[0.1, 0.2],";
     "	[0.3, 0.4],";
     "	[0.5, 0.6],";
     "	[0.7, 0.8]])";
     "print(A)";
     "# calculate svd";
     "U, s, VT = svd(A)";
     "# reciprocals of s";
     "d = 1.0 / s";
     "# create m x n D matrix";
     "D = zeros(A.shape)";
     "# populate D with n x n diagonal matrix";
     "D[:A.shape[1], :A.shape[1]] = diag(d)";
     "# calculate pseudoinverse";
     "B = VT.T.dot(D.T).dot(U.T)";
     "print(B)"];
  outputs :=
    ["[[0.1 0.2]";
     " [0.3 0.4]";
     " [0.5 0.6]";
     " [0.7 0.8]]";
     "[[-1.00000000e+01 -5.00000000e+00  9.04831765e-15  5.00000000e+00]";
     " [ 8.50000000e+00  4.50000000e+00  5.00000000e-01 -3.50000000e+00]]"];
  code := Some
      [FromImport "numpy" "array" "array";
       FromImport "numpy.linalg" "svd" "svd";
       FromImport "numpy" "zeros" "zeros";
       FromImport "numpy" "diag" "diag";
       Assign (Name "A") (Call (Name "array") [ListE [ListE [Num "0.1"; Num "0.2"];
                          ListE [Num "0.3"; Num "0.4"];
                          ListE [Num "0.5"; Num "0.6"];
                          ListE [Num "0.7"; Num "0.8"]]]);
       Print (Name "A");
       Assign (TupleE [Name "U"; Name "s"; Name "VT"]) (Call (Name "svd") [Name "A"]);
       Assign (Name "d") (BinOp Div (Num "1.0") (Name "s"));
       Assign (Name "D") (Call (Name "zeros") [Attr (Name "A") "shape"]);
       Assign (Subscript (Name "D") [SliceTo (Subscript (Attr (Name "A") "shape") [Num "1"]);
                      SliceTo (Subscript (Attr (Name "A") "shape") [Num "1"])]) (Call (Name "diag") [Name "d"]);
       Assign (Name "B") (Call (Attr (Call (Attr (Attr (Name "VT") "T") "dot") [Attr (Name "D") "T"]) "dot") [Attr (Name "U") "T"]);
       Print (Name "B")]
|}.

Definition svd_cell_31 : cell := {|
  index := 31;
  execution_count := None;
  source :=
    ["B = U . Sigmak . V^Tk"];
  outputs :=
    [];
  code := Some
      [Assign (Name "B") (BinOp BitXor (Attr (Attr (Name "U") "Sigmak") "V") (Name "Tk"))]
|}.

Definition svd_cell_33 : cell := {|
  index := 33;
  execution_count := None;
  source :=
    ["T = U . Sigmak"];
  outputs :=
    [];
  code := Some
      [Assign (Name "T") (Attr (Name "U") "Sigmak")]
|}.

Definition svd_cell_35 : cell := {|
  index := 35;
  execution_count := None;
  source :=
    ["T = V^Tk . A"];
  outputs :=
    [];
  code := Some
      [Assign (Name "T") (BinOp BitXor (Name "V") (Attr (Name "Tk") "A"))]
|}.

Definition svd_cell_37 : cell := {|
  index := 37;
  execution_count := Some 6;
  source :=
    ["from numpy import array";
     "from numpy import diag";
     "from numpy import zeros";
     "from scipy.linalg import svd";
     "# define a matrix";
     "A = array([";
     "	[1,2,3,4,5,6,7,8,9,10],";
     "	[11,12,13,14,15,16,17,18,19,20],";
     "	[21,22,23,24,25,26,27,28,29,30]])";
     "print(A)";
     "# Singular-value decomposition";
     "U, s, VT = svd(A)";
     "# create m x n Sigma matrix";
     "Sigma = zeros((A.shape[0], A.shape[1]))";
     "# populate Sigma with n x n diagonal matrix";
     "Sigma[:A.shape[0], :A.shape[0]] = diag(s)";
     "# select";
     "n_elements = 2";
     "Sigma = Sigma[:, :n_elements]";
     "VT = VT[:n_elements, :]";
     "# reconstruct";
     "B = U.dot(Sigma.dot(VT))";
     "print(B)";
     "# transform";
     "T = U.dot(Sigma)";
     "print(T)";
     "T = A.dot(VT.T)";
     "print(T)"];
  outputs :=
    ["[[ 1  2  3  4  5  6  7  8  9 10]";
     " [11 12 13 14 15 16 17 18 19 20]";
     " [21 22 23 24 25 26 27 28 29 30]]";
     "[[ 1.  2.  3.  4.  5.  6.  7.  8.  9. 10.]";
     " [11. 12. 13. 14. 15. 16. 17. 18. 19. 20.]";
     " [21. 22. 23. 24. 25. 26. 27. 28. 29. 30.]]";
     "[[-18.52157747   6.47697214]";
     " [-49.81310011   1.91182038]";
     " [-81.10462276  -2.65333138]]";
     "[[-18.52157747   6.47697214]";
     " [-49.81310011   1.91182038]";
     " [-81.10462276  -2.65333138]]"];
  code := Some
      [FromImport "numpy" "array" "array";
       FromImport "numpy" "diag" "diag";
       FromImport "numpy" "zeros" "zeros";
       FromImport "scipy.linalg" "svd" "svd";
       Assign (Name "A") (Call (Name "array") [ListE [ListE [Num "1";
                                Num "2";
                                Num "3";
                                Num "4";
                                Num "5";
                                Num "6";
                                Num "7";
                                Num "8";
                                Num "9";
                                Num "10"];
                          ListE [Num "11";
                                Num "12";
                                Num "13";
                                Num "14";
                                Num "15";
                                Num "16";
                                Num "17";
                                Num "18";
                                Num "19";
                                Num "20"];
                          ListE [Num "21";
                                Num "22";
                                Num "23";
                                Num "24";
                                Num "25";
                                Num "26";
                                Num "27";
                                Num "28";
                                Num "29";
                                Num "30"]]]);
       Print (Name "A");
       Assign (TupleE [Name "U"; Name "s"; Name "VT"]) (Call (Name "svd") [Name "A"]);
       Assign (Name "Sigma") (Call (Name "zeros") [TupleE [Subscript (Attr (Name "A") "shape") [Num "0"];
                           Subscript (Attr (Name "A") "shape") [Num "1"]]]);
       Assign (Subscript (Name "Sigma") [SliceTo (Subscript (Attr (Name "A") "shape") [Num "0"]);
                      SliceTo (Subscript (Attr (Name "A") "shape") [Num "0"])]) (Call (Name "diag") [Name "s"]);
       Assign (Name "n_elements") (Num "2");
       Assign (Name "Sigma") (Subscript (Name "Sigma") [SliceAll; SliceTo (Name "n_elements")]);
       Assign (Name "VT") (Subscript (Name "VT") [SliceTo (Name "n_elements"); SliceAll]);
       Assign (Name "B") (Call (Attr (Name "U") "dot") [Call (Attr (Name "Sigma") "dot") [Name "VT"]]);
       Print (Name "B");
       Assign (Name "T") (Call (Attr (Name "U") "dot") [Name "Sigma"]);
       Print (Name "T");
       Assign (Name "T") (Call (Attr (Name "A") "dot") [Attr (Name "VT") "T"]);
       Print (Name "T")]
|}.

Definition svd_cell_39 : cell := {|
  index := 39;
  execution_count := Some 7;
  source :=
    ["from numpy import array";
     "from sklearn.decomposition import TruncatedSVD";
     "# define array";
     "A = array([";
     "	[1,2,3,4,5,6,7,8,9,10],";
     "	[11,12,13,14,15,16,17,18,19,20],";
     "	[21,22,23,24,25,26,27,28,29,30]])";
     "print(A)";
     "# svd";
     "svd = TruncatedSVD(n_components=2)";
     "svd.fit(A)";
     "result = svd.transform(A)";
     "print(result)"];
  outputs :=
    ["[[ 1  2  3  4  5  6  7  8  9 10]";
     " [11 12 13 14 15 16 17 18 19 20]";
     " [21 22 23 24 25 26 27 28 29 30]]";
     "[[18.52157747  6.47697214]";
     " [49.81310011  1.91182038]";
     " [81.10462276 -2.65333138]]"];
  code := Some
      [FromImport "numpy" "array" "array";
       FromImport "sklearn.decomposition" "TruncatedSVD" "TruncatedSVD";
       Assign (Name "A") (Call (Name "array") [ListE [ListE [Num "1";
                                Num "2";
                                Num "3";
                                Num "4";
                                Num "5";
                                Num "6";
                                Num "7";
                                Num "8";
                                Num "9";
                                Num "10"];
                          ListE [Num "11";
                                Num "12";
                                Num "13";
                                Num "14";
                                Num "15";
                                Num "16";
                                Num "17";
                                Num "18";
                                Num "19";
                                Num "20"];
                          ListE [Num "21";
                                Num "22";
                                Num "23";
                                Num "24";
                                Num "25";
                                Num "26";
                                Num "27";
                                Num "28";
                                Num "29";
                                Num "30"]]]);
       Print (Name "A");
       Assign (Name "svd") (Call (Name "TruncatedSVD") [Kw "n_components" (Num "2")]);
       ExprStmt (Call (Attr (Name "svd") "fit") [Name "A"]);
       Assign (Name "result") (Call (Attr (Name "svd") "transform") [Name "A"]);
       Print (Name "result")]
|}.

(** "A Gentle Introduction to Singular-Value Decomposition for Machine Learning" *)
Definition svd_notebook : notebook := {|
  kernel := Python2;
  cells :=
    [svd_cell_3;
     svd_cell_6;
     svd_cell_8;
     svd_cell_10;
     svd_cell_12;
     svd_cell_14;
     svd_cell_16;
     svd_cell_18;
     svd_cell_20;
     svd_cell_22;
     svd_cell_23;
     svd_cell_25;
     svd_cell_27;
     svd_cell_29;
     svd_cell_31;
     svd_cell_33;
     svd_cell_35;
     svd_cell_37;
     svd_cell_39]
|}.

Definition tensors_cell_3 : cell := {|
  index := 3;
  execution_count := None;
  source :=
    ["     t111, t121, t131     t112, t122, t132     t113, t123, t133";
     "T = (t211, t221, t231),  (t212, t222, t232),  (t213, t223, t233)";
     "     t311, t321, t331     t312, t322, t332     t313, t323, t333"];
  outputs :=
    [];
  code := None
|}.

Definition tensors_cell_5 : cell := {|
  index := 5;
  execution_count := Some 1;
  source :=
    ["# create tensor";
     "from numpy import array";
     "T = array([";
     "  [[1,2,3],    [4,5,6],    [7,8,9]],";
     "  [[11,12,13], [14,15,16], [17,18,19]],";
     "  [[21,22,23], [24,25,26], [27,28,29]],";
     "  ])";
     "print(T.shape)";
     "print(T)"];
  outputs :=
    ["(3, 3, 3)";
     "[[[ 1  2  3]";
     "  [ 4  5  6]";
     "  [ 7  8  9]]";
     "";
     " [[11 12 13]";
     "  [14 15 16]";
     "  [17 18 19]]";
     "";
     " [[21 22 23]";
     "  [24 25 26]";
     "  [27 28 29]]]"];
  code := Some
      [FromImport "numpy" "array" "array";
       Assign (Name "T") (Call (Name "array") [ListE [ListE [ListE [Num "1"; Num "2"; Num "3"];
                                ListE [Num "4"; Num "5"; Num "6"];
                                ListE [Num "7"; Num "8"; Num "9"]];
                          ListE [ListE [Num "11"; Num "12"; Num "13"];
                                ListE [Num "14"; Num "15"; Num "16"];
                                ListE [Num "17"; Num "18"; Num "19"]];
                          ListE [ListE [Num "21"; Num "22"; Num "23"];
                                ListE [Num "24"; Num "25"; Num "26"];
                                ListE [Num "27"; Num "28"; Num "29"]]]]);
       Print (Attr (Name "T") "shape");
       Print (Name "T")]
|}.

Definition tensors_cell_7 : cell := {|
  index := 7;
  execution_count := None;
  source :=
    ["     a111, a121, a131     a112, a122, a132";
     "A = (a211, a221, a231),  (a112, a122, a132)";
     " ";
     "     b111, b121, t131     b112, b122, b132";
     "B = (b211, t221, t231),  (b112, b122, b132)";
     " ";
     " ";
     "C = A + B";
     " ";
     "     a111 + b111, a121 + b121, a131 + b131     a112 + b112, a122 + b122, a132 + b132";
     "C = (a211 + b211, a221 + b221, a231 + b231),  (a112 + b112, a122 + b122, a132 + b132)"];
  outputs :=
    [];
  code := None
|}.

Definition tensors_cell_9 : cell := {|
  index := 9;
  execution_count := Some 2;
  source :=
    ["# tensor addition";
     "from numpy import array";
     "A = array([";
     "  [[1,2,3],    [4,5,6],    [7,8,9]],";
     "  [[11,12,13], [14,15,16], [17,18,19]],";
     "  [[21,22,23], [24,25,26], [27,28,29]],";
     "  ])";
     "B = array([";
     "  [[1,2,3],    [4,5,6],    [7,8,9]],";
     "  [[11,12,13], [14,15,16], [17,18,19]],";
     "  [[21,22,23], [24,25,26], [27,28,29]],";
     "  ])";
     "C = A + B";
     "print(C)"];
  outputs :=
    ["[[[ 2  4  6]";
     "  [ 8 10 12]";
     "  [14 16 18]]";
     "";
     " [[22 24 26]";
     "  [28 30 32]";
     "  [34 36 38]]";
     "";
     " [[42 44 46]";
     "  [48 50 52]";
     "  [54 56 58]]]"];
  code := Some
      [FromImport "numpy" "array" "array";
       Assign (Name "A") (Call (Name "array") [ListE [ListE [ListE [Num "1"; Num "2"; Num "3"];
                                ListE [Num "4"; Num "5"; Num "6"];
                                ListE [Num "7"; Num "8"; Num "9"]];
                          ListE [ListE [Num "11"; Num "12"; Num "13"];
                                ListE [Num "14"; Num "15"; Num "16"];
                                ListE [Num "17"; Num "18"; Num "19"]];
                          ListE [ListE [Num "21"; Num "22"; Num "23"];
                                ListE [Num "24"; Num "25"; Num "26"];
                                ListE [Num "27"; Num "28"; Num "29"]]]]);
       Assign (Name "B") (Call (Name "array") [ListE [ListE [ListE [Num "1"; Num "2"; Num "3"];
                                ListE [Num "4"; Num "5"; Num "6"];
                                ListE [Num "7"; Num "8"; Num "9"]];
                          ListE [ListE [Num "11"; Num "12"; Num "13"];
                                ListE [Num "14"; Num "15"; Num "16"];
                                ListE [Num "17"; Num "18"; Num "19"]];
                          ListE [ListE [Num "21"; Num "22"; Num "23"];
                                ListE [Num "24"; Num "25"; Num "26"];
                                ListE [Num "27"; Num "28"; Num "29"]]]]);
       Assign (Name "C") (BinOp Add (Name "A") (Name "B"));
       Print (Name "C")]
|}.

Definition tensors_cell_11 : cell := {|
  index := 11;
  execution_count := None;
  source :=
    ["     a111, a121, a131     a112, a122, a132";
     "A = (a211, a221, a231),  (a112, a122, a132)";
     " ";
     "     b111, b121, t131     b112, b122, b132";
     "B = (b211, t221, t231),  (b112, b122, b132)";
     " ";
     "C = A - B";
     " ";
     "     a111 - b111, a121 - b121, a131 - b131     a112 - b112, a122 - b122, a132 - b132";
     "C = (a211 - b211, a221 - b221, a231 - b231),  (a112 - b112, a122 - b122, a132 - b132)"];
  outputs :=
    [];
  code := None
|}.

Definition tensors_cell_13 : cell := {|
  index := 13;
  execution_count := Some 3;
  source :=
    ["# tensor subtraction";
     "from numpy import array";
     "A = array([";
     "  [[1,2,3],    [4,5,6],    [7,8,9]],";
     "  [[11,12,13], [14,15,16], [17,18,19]],";
     "  [[21,22,23], [24,25,26], [27,28,29]],";
     "  ])";
     "B = array([";
     "  [[1,2,3],    [4,5,6],    [7,8,9]],";
     "  [[11,12,13], [14,15,16], [17,18,19]],";
     "  [[21,22,23], [24,25,26], [27,28,29]],";
     "  ])";
     "C = A - B";
     "print(C)"];
  outputs :=
    ["[[[0 0 0]";
     "  [0 0 0]";
     "  [0 0 0]]";
     "";
     " [[0 0 0]";
     "  [0 0 0]";
     "  [0 0 0]]";
     "";
     " [[0 0 0]";
     "  [0 0 0]";
     "  [0 0 0]]]"];
  code := Some
      [FromImport "numpy" "array" "array";
       Assign (Name "A") (Call (Name "array") [ListE [ListE [ListE [Num "1"; Num "2"; Num "3"];
                                ListE [Num "4"; Num "5"; Num "6"];
                                ListE [Num "7"; Num "8"; Num "9"]];
                          ListE [ListE [Num "11"; Num "12"; Num "13"];
                                ListE [Num "14"; Num "15"; Num "16"];
                                ListE [Num "17"; Num "18"; Num "19"]];
                          ListE [ListE [Num "21"; Num "22"; Num "23"];
                                ListE [Num "24"; Num "25"; Num "26"];
                                ListE [Num "27"; Num "28"; Num "29"]]]]);
       Assign (Name "B") (Call (Name "array") [ListE [ListE [ListE [Num "1"; Num "2"; Num "3"];
                                ListE [Num "4"; Num "5"; Num "6"];
                                ListE [Num "7"; Num "8"; Num "9"]];
                          ListE [ListE [Num "11"; Num "12"; Num "13"];
                                ListE [Num "14"; Num "15"; Num "16"];
                                ListE [Num "17"; Num "18"; Num "19"]];
                          ListE [ListE [Num "21"; Num "22"; Num "23"];
                                ListE [Num "24"; Num "25"; Num "26"];
                                ListE [Num "27"; Num "28"; Num "29"]]]]);
       Assign (Name "C") (BinOp Sub (Name "A") (Name "B"));
       Print (Name "C")]
|}.

Definition tensors_cell_15 : cell := {|
  index := 15;
  execution_count := None;
  source :=
    ["     a111, a121, a131     a112, a122, a132";
     "A = (a211, a221, a231),  (a112, a122, a132)";
     " ";
     "     b111, b121, t131     b112, b122, b132";
     "B = (b211, t221, t231),  (b112, b122, b132)";
     " ";
     "C = A o B";
     " ";
     "     a111 * b111, a121 * b121, a131 * b131     a112 * b112, a122 * b122, a132 * b132";
     "C = (a211 * b211, a221 * b221, a231 * b231),  (a112 * b112, a122 * b122, a132 * b132)"];
  outputs :=
    [];
  code := None
|}.

Definition tensors_cell_17 : cell := {|
  index := 17;
  execution_count := Some 4;
  source :=
    ["# tensor Hadamard product";
     "from numpy import array";
     "A = array([";
     "  [[1,2,3],    [4,5,6],    [7,8,9]],";
     "  [[11,12,13], [14,15,16], [17,18,19]],";
     "  [[21,22,23], [24,25,26], [27,28,29]],";
     "  ])";
     "B = array([";
     "  [[1,2,3],    [4,5,6],    [7,8,9]],";
     "  [[11,12,13], [14,15,16], [17,18,19]],";
     "  [[21,22,23], [24,25,26], [27,28,29]],";
     "  ])";
     "C = A * B";
     "print(C)"];
  outputs :=
    ["[[[  1   4   9]";
     "  [ 16  25  36]";
     "  [ 49  64  81]]";
     "";
     " [[121 144 169]";
     "  [196 225 256]";
     "  [289 324 361]]";
     "";
     " [[441 484 529]";
     "  [576 625 676]";
     "  [729 784 841]]]"];
  code := Some
      [FromImport "numpy" "array" "array";
       Assign (Name "A") (Call (Name "array") [ListE [ListE [ListE [Num "1"; Num "2"; Num "3"];
                                ListE [Num "4"; Num "5"; Num "6"];
                                ListE [Num "7"; Num "8"; Num "9"]];
                          ListE [ListE [Num "11"; Num "12"; Num "13"];
                                ListE [Num "14"; Num "15"; Num "16"];
                                ListE [Num "17"; Num "18"; Num "19"]];
                          ListE [ListE [Num "21"; Num "22"; Num "23"];
                                ListE [Num "24"; Num "25"; Num "26"];
                                ListE [Num "27"; Num "28"; Num "29"]]]]);
       Assign (Name "B") (Call (Name "array") [ListE [ListE [ListE [Num "1"; Num "2"; Num "3"];
                                ListE [Num "4"; Num "5"; Num "6"];
                                ListE [Num "7"; Num "8"; Num "9"]];
                          ListE [ListE [Num "11"; Num "12"; Num "13"];
                                ListE [Num "14"; Num "15"; Num "16"];
                                ListE [Num "17"; Num "18"; Num "19"]];
                          ListE [ListE [Num "21"; Num "22"; Num "23"];
                                ListE [Num "24"; Num "25"; Num "26"];
                                ListE [Num "27"; Num "28"; Num "29"]]]]);
       Assign (Name "C") (BinOp Mult (Name "A") (Name "B"));
       Print (Name "C")]
|}.

Definition tensors_cell_19 : cell := {|
  index := 19;
  execution_count := None;
  source :=
    ["     a111, a121, a131     a112, a122, a132";
     "A = (a211, a221, a231),  (a112, a122, a132)";
     " ";
     "     b111, b121, t131     b112, b122, b132";
     "B = (b211, t221, t231),  (b112, b122, b132)";
     " ";
     "C = A / B";
     " ";
     "     a111 / b111, a121 / b121, a131 / b131     a112 / b112, a122 / b122, a132 / b132";
     "C = (a211 / b211, a221 / b221, a231 / b231),  (a112 / b112, a122 / b122, a132 / b132)"];
  outputs :=
    [];
  code := None
|}.

Definition tensors_cell_21 : cell := {|
  index := 21;
  execution_count := Some 5;
  source :=
    ["# tensor division";
     "from numpy import array";
     "A = array([";
     "  [[1,2,3],    [4,5,6],    [7,8,9]],";
     "  [[11,12,13], [14,15,16], [17,18,19]],";
     "  [[21,22,23], [24,25,26], [27,28,29]],";
     "  ])";
     "B = array([";
     "  [[1,2,3],    [4,5,6],    [7,8,9]],";
     "  [[11,12,13], [14,15,16], [17,18,19]],";
     "  [[21,22,23], [24,25,26], [27,28,29]],";
     "  ])";
     "C = A / B";
     "print(C)"];
  outputs :=
    ["[[[1 1 1]";
     "  [1 1 1]";
     "  [1 1 1]]";
     "";
     " [[1 1 1]";
     "  [1 1 1]";
     "  [1 1 1]]";
     "";
     " [[1 1 1]";
     "  [1 1 1]";
     "  [1 1 1]]]"];
  code := Some
      [FromImport "numpy" "array" "array";
       Assign (Name "A") (Call (Name "array") [ListE [ListE [ListE [Num "1"; Num "2"; Num "3"];
                                ListE [Num "4"; Num "5"; Num "6"];
                                ListE [Num "7"; Num "8"; Num "9"]];
                          ListE [ListE [Num "11"; Num "12"; Num "13"];
                                ListE [Num "14"; Num "15"; Num "16"];
                                ListE [Num "17"; Num "18"; Num "19"]];
                          ListE [ListE [Num "21"; Num "22"; Num "23"];
                                ListE [Num "24"; Num "25"; Num "26"];
                                ListE [Num "27"; Num "28"; Num "29"]]]]);
       Assign (Name "B") (Call (Name "array") [ListE [ListE [ListE [Num "1"; Num "2"; Num "3"];
                                ListE [Num "4"; Num "5"; Num "6"];
                                ListE [Num "7"; Num "8"; Num "9"]];
                          ListE [ListE [Num "11"; Num "12"; Num "13"];
                                ListE [Num "14"; Num "15"; Num "16"];
                                ListE [Num "17"; Num "18"; Num "19"]];
                          ListE [ListE [Num "21"; Num "22"; Num "23"];
                                ListE [Num "24"; Num "25"; Num "26"];
                                ListE [Num "27"; Num "28"; Num "29"]]]]);
       Assign (Name "C") (BinOp Div (Name "A") (Name "B"));
       Print (Name "C")]
|}.

Definition tensors_cell_23 : cell := {|
  index := 23;
  execution_count := None;
  source :=
    ["a = (a1, a2)";
     " ";
     "b = (b1, b2)";
     " ";
     "c = a (x) b";
     " ";
     "     a1 * [b1, b2]";
     "c = (a2 * [b1, b2])"];
  outputs :=
    [];
  code := None
|}.

Definition tensors_cell_25 : cell := {|
  index := 25;
  execution_count := None;
  source :=
    ["     a1 * b1, a1 * b2";
     "c = (a2 * b1, a2 * b2)"];
  outputs :=
    [];
  code := None
|}.

Definition tensors_cell_27 : cell := {|
  index := 27;
  execution_count := None;
  source :=
    ["     a11, a12";
     "A = (a21, a22)";
     " ";
     "     b11, b12";
     "B = (b21, b22)";
     " ";
     "C = A (x) B";
     " ";
     "            b11, b12          b11, b12";
     "     a11 * (b21, b22), a12 * (b21, b22)";
     "C = [       b11, b12          b11, b12 ]";
     "     a21 * (b21, b22), a22 * (b21, b22)"];
  outputs :=
    [];
  code := None
|}.

Definition tensors_cell_29 : cell := {|
  index := 29;
  execution_count := None;
  source :=
    ["     a11 * b11, a11 * b12, a12 * b11, a12 * b12";
     "     a11 * b21, a11 * b22, a12 * b21, a12 * b22";
     "C = (a21 * b11, a21 * b12, a22 * b11, a22 * b12)";
     "     a21 * b21, a21 * b22, a22 * b21, a22 * b22"];
  outputs :=
    [];
  code := None
|}.

Definition tensors_cell_31 : cell := {|
  index := 31;
  execution_count := Some 6;
  source :=
    ["# tensor product";
     "from numpy import array";
     "from numpy import tensordot";
     "A = array([1,2])";
     "B = array([3,4])";
     "C = tensordot(A, B, axes=0)";
     "print(C)"];
  outputs :=
    ["[[3 4]";
     " [6 8]]"];
  code := Some
      [FromImport "numpy" "array" "array";
       FromImport "numpy" "tensordot" "tensordot";
       Assign (Name "A") (Call (Name "array") [ListE [Num "1"; Num "2"]]);
       Assign (Name "B") (Call (Name "array") [ListE [Num "3"; Num "4"]]);
       Assign (Name "C") (Call (Name "tensordot") [Name "A"; Name "B"; Kw "axes" (Num "0")]);
       Print (Name "C")]
|}.

(** "A Gentle Introduction to Tensors for Machine Learning with NumPy" *)
Definition tensors_notebook : notebook := {|
  kernel := Python2;
  cells :=
    [tensors_cell_3;
     tensors_cell_5;
     tensors_cell_7;
     tensors_cell_9;
     tensors_cell_11;
     tensors_cell_13;
     tensors_cell_15;
     tensors_cell_17;
     tensors_cell_19;
     tensors_cell_21;
     tensors_cell_23;
     tensors_cell_25;
     tensors_cell_27;
     tensors_cell_29;
     tensors_cell_31]
|}.

Definition tuning_cell_1 : cell := {|
  index := 1;
  execution_count := Some 1;
  source :=
    ["# Grid Search for Algorithm Tuning";
     "import numpy as np";
     "from sklearn import datasets";
     "from sklearn.linear_model import Ridge";
     "from sklearn.model_selection import GridSearchCV";
     "# load the diabetes datasets";
     "dataset = datasets.load_diabetes()";
     "# prepare a range of alpha values to test";
     "alphas = np.array([1,0.1,0.01,0.001,0.0001,0])";
     "# create and fit a ridge regression model, testing each alpha";
     "model = Ridge()";
     "grid = GridSearchCV(estimator=model, param_grid=dict(alpha=alphas))";
     "grid.fit(dataset.data, dataset.target)";
     "print(grid)";
     "# summarize the results of the grid search";
     "print(grid.best_score_)";
     "print(grid.best_estimator_.alpha)"];
  outputs :=
    ["GridSearchCV(cv=None, error_score='raise',";
     "       estimator=Ridge(alpha=1.0, copy_X=True, fit_intercept=True, max_iter=None,";
     "   normalize=False, random_state=None, solver='auto', tol=0.001),";
     "       fit_params=None, iid=True, n_jobs=1,";
     "       param_grid={'alpha': array([1.e+00, 1.e-01, 1.e-02, 1.e-03, 1.e-04, 0.e+00])},";
     "       pre_dispatch='2*n_jobs', refit=True, return_train_score='warn',";
     "       scoring=None, verbose=0)";
     "0.4887902044606017";
     "0.001"];
  code := Some
      [Import "numpy" "np";
       FromImport "sklearn" "datasets" "datasets";
       FromImport "sklearn.linear_model" "Ridge" "Ridge";
       FromImport "sklearn.model_selection" "GridSearchCV" "GridSearchCV";
       Assign (Name "dataset") (Call (Attr (Name "datasets") "load_diabetes") []);
       Assign (Name "alphas") (Call (Attr (Name "np") "array") [ListE [Num "1";
                          Num "0.1";
                          Num "0.01";
                          Num "0.001";
                          Num "0.0001";
                          Num "0"]]);
       Assign (Name "model") (Call (Name "Ridge") []);
       Assign (Name "grid") (Call (Name "GridSearchCV") [Kw "estimator" (Name "model");
                  Kw "param_grid" (Call (Name "dict") [Kw "alpha" (Name "alphas")])]);
       ExprStmt (Call (Attr (Name "grid") "fit") [Attr (Name "dataset") "data"; Attr (Name "dataset") "target"]);
       Print (Name "grid");
       Print (Attr (Name "grid") "best_score_");
       Print (Attr (Attr (Name "grid") "best_estimator_") "alpha")]
|}.

Definition tuning_cell_3 : cell := {|
  index := 3;
  execution_count := Some 2;
  source :=
    ["# Randomized Search for Algorithm Tuning";
     "import numpy as np";
     "from scipy.stats import uniform as sp_rand";
     "from sklearn import datasets";
     "from sklearn.linear_model import Ridge";
     "from sklearn.model_selection import RandomizedSearchCV";
     "# load the diabetes datasets";
     "dataset = datasets.load_diabetes()";
     "# prepare a uniform distribution to sample for the alpha parameter";
     "param_grid = {'alpha': sp_rand()}";
     "# create and fit a ridge regression model, testing random alpha values";
     "model = Ridge()";
     "rsearch = RandomizedSearchCV(estimator=model, param_distributions=param_grid, n_iter=100)";
     "rsearch.fit(dataset.data, dataset.target)";
     "print(rsearch)";
     "# summarize the results of the random parameter search";
     "print(rsearch.best_score_)";
     "print(rsearch.best_estimator_.alpha)"];
  outputs :=
    ["RandomizedSearchCV(cv=None, error_score='raise',";
     "          estimator=Ridge(alpha=1.0, copy_X=True, fit_intercept=True, max_iter=None,";
     "   normalize=False, random_state=None, solver='auto', tol=0.001),";
     "          fit_params=None, iid=True, n_iter=100, n_jobs=1,";
     "          param_distributions={'alpha': <scipy.stats._distn_infrastructure.rv_frozen object at 0x1048530b8>},";
     "          pre_dispatch='2*n_jobs', random_state=None, refit=True,";
     "          return_train_score='warn', scoring=None, verbose=0)";
     "0.4891638022896256";
     "0.05464950393308554"];
  code := Some
      [Import "numpy" "np";
       FromImport "scipy.stats" "uniform" "sp_rand";
       FromImport "sklearn" "datasets" "datasets";
       FromImport "sklearn.linear_model" "Ridge" "Ridge";
       FromImport "sklearn.model_selection" "RandomizedSearchCV" "RandomizedSearchCV";
       Assign (Name "dataset") (Call (Attr (Name "datasets") "load_diabetes") []);
       Assign (Name "param_grid") (DictE [Str "alpha"] [Call (Name "sp_rand") []]);
       Assign (Name "model") (Call (Name "Ridge") []);
       Assign (Name "rsearch") (Call (Name "RandomizedSearchCV") [Kw "estimator" (Name "model");
                  Kw "param_distributions" (Name "param_grid");
                  Kw "n_iter" (Num "100")]);
       ExprStmt (Call (Attr (Name "rsearch") "fit") [Attr (Name "dataset") "data"; Attr (Name "dataset") "target"]);
       Print (Name "rsearch");
       Print (Attr (Name "rsearch") "best_score_");
       Print (Attr (Attr (Name "rsearch") "best_estimator_") "alpha")]
|}.

(** "How to Tune Algorithm Parameters with Scikit-Learn" *)
Definition tuning_notebook : notebook := {|
  kernel := Python3;
  cells :=
    [tuning_cell_1; tuning_cell_3]
|}.

Definition cnn_lstm_cell_3 : cell := {|
  index := 3;
  execution_count := None;
  source :=
    ["cnn = Sequential()";
     "cnn.add(Conv2D(1, (2,2), activation='relu', padding='same', input_shape=(10,10,1)))";
     "cnn.add(MaxPooling2D(pool_size=(2, 2)))";
     "cnn.add(Flatten())"];
  outputs :=
    [];
  code := Some
      [Assign (Name "cnn") (Call (Name "Sequential") []);
       ExprStmt (Call (Attr (Name "cnn") "add") [Call (Name "Conv2D") [Num "1";
                            TupleE [Num "2"; Num "2"];
                            Kw "activation" (Str "relu");
                            Kw "padding" (Str "same");
                            Kw "input_shape" (TupleE [Num "10"; Num "10"; Num "1"])]]);
       ExprStmt (Call (Attr (Name "cnn") "add") [Call (Name "MaxPooling2D") [Kw "pool_size" (TupleE [Num "2"; Num "2"])]]);
       ExprStmt (Call (Attr (Name "cnn") "add") [Call (Name "Flatten") []])]
|}.

Definition cnn_lstm_cell_5 : cell := {|
  index := 5;
  execution_count := None;
  source :=
    ["model.add(TimeDistributed(...))";
     "model.add(LSTM(...))";
     "model.add(Dense(...))"];
  outputs :=
    [];
  code := Some
      [ExprStmt (Call (Attr (Name "model") "add") [Call (Name "TimeDistributed") [Ellipsis]]);
       ExprStmt (Call (Attr (Name "model") "add") [Call (Name "LSTM") [Ellipsis]]);
       ExprStmt (Call (Attr (Name "model") "add") [Call (Name "Dense") [Ellipsis]])]
|}.

Definition cnn_lstm_cell_7 : cell := {|
  index := 7;
  execution_count := None;
  source :=
    ["# define CNN model";
     "cnn = Sequential()";
     "cnn.add(Conv2D(...))";
     "cnn.add(MaxPooling2D(...))";
     "cnn.add(Flatten())";
     "# define LSTM model";
     "model = Sequential()";
     "model.add(TimeDistributed(cnn, ...))";
     "model.add(LSTM(..))";
     "model.add(Dense(...))"];
  outputs :=
    [];
  code := None
|}.

Definition cnn_lstm_cell_9 : cell := {|
  index := 9;
  execution_count := None;
  source :=
    ["model = Sequential()";
     "# define CNN model";
     "model.add(TimeDistributed(Conv2D(...))";
     "model.add(TimeDistributed(MaxPooling2D(...)))";
     "model.add(TimeDistributed(Flatten()))";
     "# define LSTM model";
     "model.add(LSTM(...))";
     "model.add(Dense(...))"];
  outputs :=
    [];
  code := None
|}.

(** "CNN Long Short-Term Memory Networks" *)
Definition cnn_lstm_notebook : notebook := {|
  kernel := Python3;
  cells :=
    [cnn_lstm_cell_3; cnn_lstm_cell_5; cnn_lstm_cell_7; cnn_lstm_cell_9]
|}.

(** The four notebooks of the repository. *)
Definition notebooks : list notebook :=
  [svd_notebook; tensors_notebook; tuning_notebook; cnn_lstm_notebook].

Definition all_cells : list cell := flat_map cells notebooks.

Definition executed (c : cell) : bool :=
  match execution_count c with
  | Some _ => true
  | None => false
  end.

Definition executed_cells : list cell := filter executed all_cells.

(** ** Names a cell reads and binds *)

Definition mem (x : string) (l : list string) : bool :=
  existsb (String.eqb x) l.

(** The names an expression reads. *)
Fixpoint reads (e : expr) : list string :=
  match e with
  | Name x => [x]
  | Num _ | Str _ | Ellipsis | SliceAll => []
  | ListE es | TupleE es => flat_map reads es
  | DictE ks vs => flat_map reads ks ++ flat_map reads vs
  | Attr o _ => reads o
  | Call f args => reads f ++ flat_map reads args
  | Kw _ v => reads v
  | BinOp _ l r => reads l ++ reads r
  | Subscript o idx => reads o ++ flat_map reads idx
  | SliceTo h => reads h
  end.

(** The names an assignment to [target] binds, and those it reads: assigning
    to a subscript binds nothing and reads the array and the indices. *)
Fixpoint target_binds (target : expr) : list string :=
  match target with
  | Name x => [x]
  | TupleE es | ListE es => flat_map target_binds es
  | _ => []
  end.

Fixpoint target_reads (target : expr) : list string :=
  match target with
  | Name _ => []
  | TupleE es | ListE es => flat_map target_reads es
  | _ => reads target
  end.

Definition stmt_reads (st : stmt) : list string :=
  match st with
  | FromImport _ _ _ | Import _ _ => []
  | Assign t v => reads v ++ target_reads t
  | ExprStmt v | Print v => reads v
  end.

Definition stmt_binds (st : stmt) : list string :=
  match st with
  | FromImport _ _ a | Import _ a => [a]
  | Assign t _ => target_binds t
  | ExprStmt _ | Print _ => []
  end.

(** Names Python itself provides. *)
Definition builtins : list string :=
  ["abs"; "all"; "any"; "bool"; "dict"; "float"; "int"; "len"; "list"; "max";
   "min"; "range"; "set"; "str"; "sum"; "tuple"; "zip"].

(** The names a program reads before it has bound them: those it takes from
    the kernel's namespace as earlier cells left it. *)
Fixpoint unbound_reads_from (bound : list string) (body : list stmt) : list string :=
  match body with
  | [] => []
  | st :: rest =>
      filter (fun x => negb (mem x bound)) (stmt_reads st)
      ++ unbound_reads_from (stmt_binds st ++ bound) rest
  end.

(** Those of them that Python itself does not provide. *)
Definition free_names_from (bound : list string) (body : list stmt) : list string :=
  filter (fun x => negb (mem x builtins)) (unbound_reads_from bound body).

Definition free_names (c : cell) : list string :=
  match code c with
  | Some body => free_names_from [] body
  | None => []
  end.

Definition bound_names (c : cell) : list string :=
  match code c with
  | Some body => flat_map stmt_binds body
  | None => []
  end.

(** ** Measures of a cell *)

Definition line_count (c : cell) : nat := List.length (source c).

(** A line whose first character after blanks and tabs is [#]. *)
Fixpoint is_comment_line (line : string) : bool :=
  match line with
  | EmptyString => false
  | String a rest =>
      if (Ascii.eqb a " " || Ascii.eqb a "009")%bool then is_comment_line rest
      else Ascii.eqb a "#"
  end.

Definition code_line_count (c : cell) : nat :=
  List.length (filter (fun l => negb (is_comment_line l)) (source c)).

(** The functions an expression calls, outermost first. *)
Fixpoint calls (e : expr) : list expr :=
  match e with
  | Name _ | Num _ | Str _ | Ellipsis | SliceAll => []
  | ListE es | TupleE es => flat_map calls es
  | DictE ks vs => flat_map calls ks ++ flat_map calls vs
  | Attr o _ => calls o
  | Call f args => f :: calls f ++ flat_map calls args
  | Kw _ v => calls v
  | BinOp _ l r => calls l ++ calls r
  | Subscript o idx => calls o ++ flat_map calls idx
  | SliceTo h => calls h
  end.

Definition stmt_calls (st : stmt) : list expr :=
  match st with
  | FromImport _ _ _ | Import _ _ => []
  | Assign t v => calls v ++ calls t
  | ExprStmt v | Print v => calls v
  end.

(** The name a call goes by: the function, or the method or module member. *)
Definition callee_name (f : expr) : string :=
  match f with
  | Name x => x
  | Attr _ a => a
  | _ => ""
  end.

(** The library calls of a program: all calls but those of builtins. *)
Definition library_calls (body : list stmt) : list string :=
  filter (fun x => negb (mem x builtins)) (map callee_name (flat_map stmt_calls body)).

Definition is_print (st : stmt) : bool :=
  match st with
  | Print _ => true
  | _ => false
  end.

Definition ends_with_print (body : list stmt) : bool :=
  match rev body with
  | st :: _ => is_print st
  | [] => false
  end.

Definition print_count (body : list stmt) : nat := List.length (filter is_print body).

(** The cells with the notebook they stand in (its position in
    [notebooks]): cells of different notebooks may share an index. *)
Definition located : Type := (nat * cell)%type.

Definition all_located : list located :=
  flat_map (fun p : nat * notebook => map (pair (fst p)) (cells (snd p)))
           (combine (seq 0 (List.length notebooks)) notebooks).

Definition same_cell (a b : located) : bool :=
  (Nat.eqb (fst a) (fst b) && Nat.eqb (index (snd a)) (index (snd b)))%bool.

(** [c] reads, before binding it, a name that another cell binds. *)
Definition reads_name_of_other_cell (c : located) : bool :=
  existsb (fun x =>
             existsb (fun c' => (negb (same_cell c c') && mem x (bound_names (snd c')))%bool)
                     all_located)
          (free_names (snd c)).

(** ** Effects of a cell *)









Definition cell_library_calls (c : cell) : list string :=
  match code c with
  | Some body => library_calls body
  | None => []
  end.


(** ** Error handling in a cell *)

Definition is_ident_char (a : ascii) : bool :=
  let n := nat_of_ascii a in
  ((48 <=? n) && (n <=? 57) || (65 <=? n) && (n <=? 90)
   || (97 <=? n) && (n <=? 122) || (n =? 95))%nat%bool.

(** The words of a line: its maximal runs of letters, digits and [_]. *)
Fixpoint words_from (cur : string) (line : string) : list string :=
  match line with
  | EmptyString => match cur with EmptyString => [] | _ => [cur] end
  | String a rest =>
      if is_ident_char a then words_from (cur ++ String a EmptyString) rest
      else match cur with
           | EmptyString => words_from EmptyString rest
           | _ => cur :: words_from EmptyString rest
           end
  end.

(** The line up to its comment.  No cell has a [#] inside a string. *)
Fixpoint strip_comment (line : string) : string :=
  match line with
  | EmptyString => EmptyString
  | String a rest => if Ascii.eqb a "#" then EmptyString else String a (strip_comment rest)
  end.

Definition words (line : string) : list string := words_from EmptyString (strip_comment line).

(** What Python and NumPy offer to guard, catch or transform a failure. *)
Definition error_handling_words : list string :=
  ["try"; "except"; "finally"; "raise"; "assert"; "if"; "elif"; "else";
   "while"; "with"; "errstate"; "seterr"; "seterrcall"; "warnings";
   "catch_warnings"; "nan_to_num"; "isfinite"].

Definition handles_errors (c : cell) : bool :=
  existsb (fun line => existsb (fun w => mem w error_handling_words) (words line))
          (source c).

(** ** Running a cell in a kernel

    A kernel keeps a namespace, the names bound so far, from cell to cell.
    The interpreter below runs the statements of a cell over a namespace.
    What the language and the libraries do with values is a parameter: every
    operation receives the values of its operands and the [world], which
    holds whatever else an operation can observe or change (the objects, the
    random generator, the files). *)

Inductive opcode : Type :=
| OpNum (literal : string)
| OpStr (s : string)
| OpEllipsis
| OpSliceAll
| OpList
| OpTuple
| OpDict (n : nat)                 (* [n] keys, then their values *)
| OpGetAttr (attr : string)
| OpCall                           (* the function, then its arguments *)
| OpKw (arg : string)
| OpBinOp (op : binop)
| OpGetItem                        (* the object, then the indices *)
| OpSliceTo
| OpSetItem                        (* the object, the new value, the indices *)
| OpSetAttr (attr : string)
| OpImport (module name : string)
| OpRepr.                          (* the text [print] writes *)

Section Kernel.
Variables value world : Type.

Record python : Type := {
  builtin : string -> option value;
  operate : opcode -> list value -> world -> result (value * world);
  unpack : nat -> value -> world -> result (list value * world);
  text : value -> string
}.

Variable py : python.

Definition namespace : Type := string -> option value.

Definition empty_namespace : namespace := fun _ => None.

Definition update (env : namespace) (x : string) (v : value) : namespace :=
  fun y => if String.eqb y x then Some v else env y.

(** A name is looked up in the namespace, then among the builtins. *)
Definition lookup (env : namespace) (x : string) : result value :=
  match env x with
  | Some v => Ok v
  | None =>
      match builtin py x with
      | Some v => Ok v
      | None => Raise (NameError x)
      end
  end.

(** Operands are evaluated from left to right. *)
Definition evals (ev : expr -> world -> result (value * world))
  : list expr -> world -> result (list value * world) :=
  fix go (es : list expr) (w : world) :=
    match es with
    | [] => Ok ([], w)
    | e :: es' =>
        r <- ev e w ;;
        rs <- go es' (snd r) ;;
        Ok (fst r :: fst rs, snd rs)
    end.

Fixpoint eval (env : namespace) (e : expr) (w : world) : result (value * world) :=
  match e with
  | Name x => v <- lookup env x ;; Ok (v, w)
  | Num s => operate py (OpNum s) [] w
  | Str s => operate py (OpStr s) [] w
  | Ellipsis => operate py OpEllipsis [] w
  | SliceAll => operate py OpSliceAll [] w
  | ListE es =>
      rs <- evals (eval env) es w ;; operate py OpList (fst rs) (snd rs)
  | TupleE es =>
      rs <- evals (eval env) es w ;; operate py OpTuple (fst rs) (snd rs)
  | DictE ks vs =>
      rk <- evals (eval env) ks w ;;
      rv <- evals (eval env) vs (snd rk) ;;
      operate py (OpDict (List.length ks)) (fst rk ++ fst rv) (snd rv)
  | Attr o a =>
      r <- eval env o w ;; operate py (OpGetAttr a) [fst r] (snd r)
  | Call f args =>
      r <- eval env f w ;;
      rs <- evals (eval env) args (snd r) ;;
      operate py OpCall (fst r :: fst rs) (snd rs)
  | Kw a v =>
      r <- eval env v w ;; operate py (OpKw a) [fst r] (snd r)
  | BinOp b l r =>
      rl <- eval env l w ;;
      rr <- eval env r (snd rl) ;;
      operate py (OpBinOp b) [fst rl; fst rr] (snd rr)
  | Subscript o idx =>
      r <- eval env o w ;;
      rs <- evals (eval env) idx (snd r) ;;
      operate py OpGetItem (fst r :: fst rs) (snd rs)
  | SliceTo h =>
      r <- eval env h w ;; operate py OpSliceTo [fst r] (snd r)
  end.

(** Targets are assigned from left to right. *)
Definition assigns (asg : namespace -> expr -> value -> world -> result (namespace * world))
  : list expr -> list value -> namespace -> world -> result (namespace * world) :=
  fix go (ts : list expr) (vs : list value) (env : namespace) (w : world) :=
    match ts, vs with
    | [], [] => Ok (env, w)
    | t :: ts', v :: vs' =>
        r <- asg env t v w ;; go ts' vs' (fst r) (snd r)
    | _, _ => Raise ValueError
    end.

(** [target = v]: a name is bound, a tuple is unpacked, an item or an
    attribute is stored into its object. *)
Fixpoint assign (env : namespace) (t : expr) (v : value) (w : world)
  : result (namespace * world) :=
  match t with
  | Name x => Ok (update env x v, w)
  | TupleE ts | ListE ts =>
      r <- unpack py (List.length ts) v w ;;
      assigns assign ts (fst r) env (snd r)
  | Subscript o idx =>
      r <- eval env o w ;;
      rs <- evals (eval env) idx (snd r) ;;
      r' <- operate py OpSetItem (fst r :: v :: fst rs) (snd rs) ;;
      Ok (env, snd r')
  | Attr o a =>
      r <- eval env o w ;;
      r' <- operate py (OpSetAttr a) [fst r; v] (snd r) ;;
      Ok (env, snd r')
  | _ => Raise TypeError
  end.

Record state : Type := {
  names : namespace;
  the_world : world;
  stdout : list string
}.

Definition exec (st : stmt) (k : state) : result state :=
  match st with
  | FromImport m n a =>
      r <- operate py (OpImport m n) [] (the_world k) ;;
      Ok {| names := update (names k) a (fst r); the_world := snd r;
            stdout := stdout k |}
  | Import m a =>
      r <- operate py (OpImport m "") [] (the_world k) ;;
      Ok {| names := update (names k) a (fst r); the_world := snd r;
            stdout := stdout k |}
  | Assign t v =>
      r <- eval (names k) v (the_world k) ;;
      r' <- assign (names k) t (fst r) (snd r) ;;
      Ok {| names := fst r'; the_world := snd r'; stdout := stdout k |}
  | ExprStmt v =>
      r <- eval (names k) v (the_world k) ;;
      Ok {| names := names k; the_world := snd r; stdout := stdout k |}
  | Print v =>
      r <- eval (names k) v (the_world k) ;;
      r' <- operate py OpRepr [fst r] (snd r) ;;
      Ok {| names := names k; the_world := snd r';
            stdout := stdout k ++ [text py (fst r')] |}
  end.

(** Running a program: the state reached, and the error that stopped it. *)
Fixpoint run (body : list stmt) (k : state) : state * option exn :=
  match body with
  | [] => (k, None)
  | st :: rest =>
      match exec st k with
      | Ok k' => run rest k'
      | Raise e => (k, Some e)
      end
  end.

(** What a cell shows and leaves behind, apart from the namespace: the text
    printed, the error, the world. *)
Definition observe (r : state * option exn) : list string * option exn * world :=
  (stdout (fst r), snd r, the_world (fst r)).

Definition run_cell (body : list stmt) (env : namespace) (w : world)
  : list string * option exn * world :=
  observe (run body {| names := env; the_world := w; stdout := [] |}).

(** Two namespaces agree on the names of [X]. *)
Definition agree (X : list string) (env1 env2 : namespace) : Prop :=
  forall x, In x X -> env1 x = env2 x.


(** *** Agreement of namespaces *)

Lemma mem_In (x : string) (l : list string) : mem x l = true <-> In x l.
Proof.
  unfold mem. rewrite existsb_exists. split.
  - intros (y & Hy & E). apply String.eqb_eq in E. subst y. exact Hy.
  - intros H. exists x. split; [exact H|apply String.eqb_refl].
Qed.

Lemma agree_incl (X Y : list string) (env1 env2 : namespace) :
  incl Y X -> agree X env1 env2 -> agree Y env1 env2.
Proof. intros HYX H x Hx. apply H, HYX, Hx. Qed.

Lemma agree_update (X : list string) (env1 env2 : namespace) (x : string) (v : value) :
  agree X env1 env2 -> agree (x :: X) (update env1 x v) (update env2 x v).
Proof.
  intros H y Hy. unfold update. destruct (String.eqb_spec y x) as [E|E].
  - reflexivity.
  - apply H. destruct Hy as [Hy|Hy]; [congruence|exact Hy].
Qed.

Lemma lookup_agree (env1 env2 : namespace) (x : string) :
  env1 x = env2 x -> lookup env1 x = lookup env2 x.
Proof. unfold lookup. intros ->. reflexivity. Qed.

Lemma evals_ext (ev1 ev2 : expr -> world -> result (value * world)) (es : list expr) :
  Forall (fun e => forall w, ev1 e w = ev2 e w) es ->
  forall w, evals ev1 es w = evals ev2 es w.
Proof.
  induction 1 as [|e es He _ IH]; intros w; simpl; [reflexivity|].
  rewrite He. destruct (ev2 e w) as [r|err]; simpl; [|reflexivity].
  rewrite IH. reflexivity.
Qed.

(** Induction on expressions, through the lists of operands. *)
Section ExprInduction.
Variable P : expr -> Prop.
Hypothesis HName : forall x, P (Name x).
Hypothesis HNum : forall s, P (Num s).
Hypothesis HStr : forall s, P (Str s).
Hypothesis HEllipsis : P Ellipsis.
Hypothesis HListE : forall es, Forall P es -> P (ListE es).
Hypothesis HTupleE : forall es, Forall P es -> P (TupleE es).
Hypothesis HDictE : forall ks vs, Forall P ks -> Forall P vs -> P (DictE ks vs).
Hypothesis HAttr : forall o a, P o -> P (Attr o a).
Hypothesis HCall : forall f args, P f -> Forall P args -> P (Call f args).
Hypothesis HKw : forall a v, P v -> P (Kw a v).
Hypothesis HBinOp : forall b l r, P l -> P r -> P (BinOp b l r).
Hypothesis HSubscript : forall o idx, P o -> Forall P idx -> P (Subscript o idx).
Hypothesis HSliceAll : P SliceAll.
Hypothesis HSliceTo : forall h, P h -> P (SliceTo h).

Fixpoint expr_induction (e : expr) : P e :=
  let all := fix all (es : list expr) : Forall P es :=
               match es with
               | [] => Forall_nil P
               | e' :: es' => Forall_cons e' (expr_induction e') (all es')
               end in
  match e with
  | Name x => HName x
  | Num s => HNum s
  | Str s => HStr s
  | Ellipsis => HEllipsis
  | ListE es => HListE (all es)
  | TupleE es => HTupleE (all es)
  | DictE ks vs => HDictE (all ks) (all vs)
  | Attr o a => HAttr a (expr_induction o)
  | Call f args => HCall (expr_induction f) (all args)
  | Kw a v => HKw a (expr_induction v)
  | BinOp b l r => HBinOp b (expr_induction l) (expr_induction r)
  | Subscript o idx => HSubscript (expr_induction o) (all idx)
  | SliceAll => HSliceAll
  | SliceTo h => HSliceTo (expr_induction h)
  end.
End ExprInduction.

Lemma agree_flat_map (f : expr -> list string) (es : list expr)
      (env1 env2 : namespace) (e : expr) :
  agree (flat_map f es) env1 env2 -> In e es -> agree (f e) env1 env2.
Proof.
  intros H He x Hx. apply H. apply in_flat_map. exists e. split; assumption.
Qed.

Lemma agree_app (X Y : list string) (env1 env2 : namespace) :
  agree (X ++ Y) env1 env2 <-> agree X env1 env2 /\ agree Y env1 env2.
Proof.
  unfold agree. split.
  - intros H. split; intros x Hx; apply H, in_app_iff; [left|right]; exact Hx.
  - intros [H1 H2] x Hx. apply in_app_iff in Hx. destruct Hx; auto.
Qed.

Lemma evals_agree (env1 env2 : namespace) (es : list expr) :
  Forall (fun e => forall env1 env2, agree (reads e) env1 env2 ->
                   forall w, eval env1 e w = eval env2 e w) es ->
  agree (flat_map reads es) env1 env2 ->
  forall w, evals (eval env1) es w = evals (eval env2) es w.
Proof.
  intros IH H. apply evals_ext.
  rewrite Forall_forall in IH. apply Forall_forall. intros e He w.
  apply IH; [exact He|]. apply (agree_flat_map reads es); assumption.
Qed.

(** An expression has the same value in two namespaces that agree on the
    names it reads. *)
Lemma eval_agree (e : expr) :
  forall env1 env2, agree (reads e) env1 env2 ->
  forall w, eval env1 e w = eval env2 e w.
Proof.
  induction e using expr_induction; intros env1 env2 Hag w; simpl in *;
    try reflexivity.
  - rewrite (lookup_agree env1 env2 x); [reflexivity|]. apply Hag. left. reflexivity.
  - rewrite (evals_agree H Hag). reflexivity.
  - rewrite (evals_agree H Hag). reflexivity.
  - apply agree_app in Hag. destruct Hag as [Hk Hv].
    rewrite (evals_agree H Hk).
    destruct (evals (eval env2) ks w) as [rk|err]; simpl; [|reflexivity].
    rewrite (evals_agree H0 Hv). reflexivity.
  - rewrite (IHe env1 env2 Hag). reflexivity.
  - apply agree_app in Hag. destruct Hag as [Hf Ha].
    rewrite (IHe env1 env2 Hf).
    destruct (eval env2 e w) as [r|err]; simpl; [|reflexivity].
    rewrite (evals_agree H Ha). reflexivity.
  - rewrite (IHe env1 env2 Hag). reflexivity.
  - apply agree_app in Hag. destruct Hag as [Hl Hr].
    rewrite (IHe1 env1 env2 Hl).
    destruct (eval env2 e1 w) as [r|err]; simpl; [|reflexivity].
    rewrite (IHe2 env1 env2 Hr). reflexivity.
  - apply agree_app in Hag. destruct Hag as [Ho Hi].
    rewrite (IHe env1 env2 Ho).
    destruct (eval env2 e w) as [r|err]; simpl; [|reflexivity].
    rewrite (evals_agree H Hi). reflexivity.
  - rewrite (IHe env1 env2 Hag). reflexivity.
Qed.


(** Two results of an assignment: the same error, or the same world and
    namespaces that agree on [X]. *)
Definition similar (X : list string) (r1 r2 : result (namespace * world)) : Prop :=
  match r1, r2 with
  | Ok p1, Ok p2 => snd p1 = snd p2 /\ agree X (fst p1) (fst p2)
  | Raise e1, Raise e2 => e1 = e2
  | _, _ => False
  end.

Lemma similar_incl (X Y : list string) (r1 r2 : result (namespace * world)) :
  incl Y X -> similar X r1 r2 -> similar Y r1 r2.
Proof.
  intros HYX. destruct r1 as [p1|e1], r2 as [p2|e2]; simpl; auto.
  intros [Hw Hag]. split; [exact Hw|]. apply (agree_incl HYX Hag).
Qed.

Definition assign_agrees (t : expr) : Prop :=
  forall X env1 env2 v w,
    agree X env1 env2 -> incl (target_reads t) X ->
    similar (target_binds t ++ X) (assign env1 t v w) (assign env2 t v w).

Lemma assigns_agree (ts : list expr) :
  Forall assign_agrees ts ->
  forall vs X env1 env2 w,
    agree X env1 env2 -> incl (flat_map target_reads ts) X ->
    similar (flat_map target_binds ts ++ X)
            (assigns assign ts vs env1 w) (assigns assign ts vs env2 w).
Proof.
  induction 1 as [|t ts Ht _ IH]; intros [|v vs] X env1 env2 w Hag Hin; simpl;
    try reflexivity.
  - split; [reflexivity|exact Hag].
  - simpl in Hin. apply incl_app_inv in Hin. destruct Hin as [Hin1 Hin2].
    specialize (Ht X env1 env2 v w Hag Hin1).
    destruct (assign env1 t v w) as [[e1 w1]|err1],
             (assign env2 t v w) as [[e2 w2]|err2]; simpl in *; try contradiction;
      [|exact Ht].
    destruct Ht as [-> Hag'].
    apply (@similar_incl (flat_map target_binds ts ++ target_binds t ++ X)%list).
    + intros x Hx. rewrite !in_app_iff in *. tauto.
    + apply IH; [exact Hag'|]. intros x Hx. apply in_app_iff. right. apply Hin2, Hx.
Qed.

Lemma eval_agree_incl (e : expr) (X : list string) (env1 env2 : namespace) (w : world) :
  agree X env1 env2 -> incl (reads e) X -> eval env1 e w = eval env2 e w.
Proof. intros Hag Hin. apply eval_agree. apply (agree_incl Hin Hag). Qed.

Lemma evals_agree_incl (es : list expr) (X : list string) (env1 env2 : namespace)
      (w : world) :
  agree X env1 env2 -> incl (flat_map reads es) X ->
  evals (eval env1) es w = evals (eval env2) es w.
Proof.
  intros Hag Hin. apply evals_agree; [|apply (agree_incl Hin Hag)].
  apply Forall_forall. intros e _. apply eval_agree.
Qed.

(** An assignment does the same in two namespaces that agree on the names
    its target reads, and leaves them agreeing on the names it binds. *)
Lemma assign_agree (t : expr) : assign_agrees t.
Proof.
  induction t using expr_induction; intros X env1 env2 v w Hag Hin; simpl in *;
    try reflexivity.
  - split; [reflexivity|]. apply agree_update. exact Hag.
  - destruct (unpack py (List.length es) v w) as [r|err]; simpl; [|reflexivity].
    apply assigns_agree; assumption.
  - destruct (unpack py (List.length es) v w) as [r|err]; simpl; [|reflexivity].
    apply assigns_agree; assumption.
  - rewrite (eval_agree_incl t w Hag Hin).
    destruct (eval env2 t w) as [r|err]; simpl; [|reflexivity].
    destruct (operate py (OpSetAttr a) [fst r; v] (snd r)) as [r'|err]; simpl;
      [|reflexivity].
    split; [reflexivity|exact Hag].
  - apply incl_app_inv in Hin. destruct Hin as [Hin1 Hin2].
    rewrite (eval_agree_incl t w Hag Hin1).
    destruct (eval env2 t w) as [r|err]; simpl; [|reflexivity].
    rewrite (evals_agree_incl idx (snd r) Hag Hin2).
    destruct (evals (eval env2) idx (snd r)) as [rs|err]; simpl; [|reflexivity].
    destruct (operate py OpSetItem (fst r :: v :: fst rs) (snd rs)) as [r'|err]; simpl;
      [|reflexivity].
    split; [reflexivity|exact Hag].
Qed.

Definition state_agree (X : list string) (k1 k2 : state) : Prop :=
  the_world k1 = the_world k2 /\ stdout k1 = stdout k2
  /\ agree X (names k1) (names k2).

Lemma exec_agree (st : stmt) (X : list string) (k1 k2 : state) :
  state_agree X k1 k2 -> incl (stmt_reads st) X ->
  match exec st k1, exec st k2 with
  | Ok k1', Ok k2' => state_agree (stmt_binds st ++ X) k1' k2'
  | Raise e1, Raise e2 => e1 = e2
  | _, _ => False
  end.
Proof.
  intros (Hw & Hout & Hag) Hin.
  destruct st as [m n a|m a|t v|v|v]; simpl in *; rewrite <- Hw.
  - destruct (operate py (OpImport m n) [] (the_world k1)) as [r|err]; simpl;
      [|reflexivity].
    split; [reflexivity|]. split; [exact Hout|]. apply agree_update. exact Hag.
  - destruct (operate py (OpImport m "") [] (the_world k1)) as [r|err]; simpl;
      [|reflexivity].
    split; [reflexivity|]. split; [exact Hout|]. apply agree_update. exact Hag.
  - apply incl_app_inv in Hin. destruct Hin as [Hin1 Hin2].
    rewrite (eval_agree_incl v (the_world k1) Hag Hin1).
    destruct (eval (names k2) v (the_world k1)) as [r|err]; simpl; [|reflexivity].
    pose proof (assign_agree t (fst r) (snd r) Hag Hin2) as Hs.
    destruct (assign (names k1) t (fst r) (snd r)) as [[e1 w1]|err1],
             (assign (names k2) t (fst r) (snd r)) as [[e2 w2]|err2];
      simpl in *; try contradiction; [|exact Hs].
    destruct Hs as [-> Hag']. split; [reflexivity|]. split; assumption.
  - rewrite (eval_agree_incl v (the_world k1) Hag Hin).
    destruct (eval (names k2) v (the_world k1)) as [r|err]; simpl; [|reflexivity].
    split; [reflexivity|]. split; assumption.
  - rewrite (eval_agree_incl v (the_world k1) Hag Hin).
    destruct (eval (names k2) v (the_world k1)) as [r|err]; simpl; [|reflexivity].
    destruct (operate py OpRepr [fst r] (snd r)) as [r'|err]; simpl; [|reflexivity].
    split; [reflexivity|]. split; [rewrite Hout; reflexivity|exact Hag].
Qed.

(** A program behaves the same from two states that agree on the names it
    reads before binding them. *)
Lemma run_agree (body : list stmt) :
  forall (B : list string) (k1 k2 : state),
    state_agree (B ++ unbound_reads_from B body) k1 k2 ->
    observe (run body k1) = observe (run body k2).
Proof.
  induction body as [|st rest IH]; intros B k1 k2 Hag; simpl.
  - destruct Hag as (Hw & Hout & _). unfold observe. simpl. congruence.
  - assert (Hin : incl (stmt_reads st) (B ++ unbound_reads_from B (st :: rest))).
    { intros x Hx. simpl. rewrite !in_app_iff, filter_In.
      destruct (mem x B) eqn:E.
      - left. apply mem_In. exact E.
      - right. left. split; [exact Hx|reflexivity]. }
    pose proof (exec_agree st Hag Hin) as Hs.
    destruct (exec st k1) as [k1'|e1], (exec st k2) as [k2'|e2];
      try contradiction.
    + apply (IH (stmt_binds st ++ B)%list).
      destruct Hs as (Hw & Hout & Hag').
      split; [exact Hw|]. split; [exact Hout|].
      apply (agree_incl (X := (stmt_binds st ++ B ++ unbound_reads_from B (st :: rest))%list));
        [|exact Hag'].
      intros x Hx. simpl. rewrite !in_app_iff in *. tauto.
    + subst e2. destruct Hag as (Hw & Hout & _). unfold observe. simpl. congruence.
Qed.


(** *** The namespace changes only at the names bound *)

Lemma bind_ok (A B : Type) (r : result A) (k : A -> result B) (b : B) :
  bind r k = Ok b -> exists a, r = Ok a /\ k a = Ok b.
Proof.
  destruct r as [a|e]; simpl; intros H; [|discriminate H].
  exists a. split; [reflexivity|exact H].
Qed.

Definition assign_frames (t : expr) : Prop :=
  forall env v w p,
    assign env t v w = Ok p ->
    forall x, ~ In x (target_binds t) -> fst p x = env x.

Lemma assigns_frame (ts : list expr) :
  Forall assign_frames ts ->
  forall vs env w p,
    assigns assign ts vs env w = Ok p ->
    forall x, ~ In x (flat_map target_binds ts) -> fst p x = env x.
Proof.
  induction 1 as [|t ts Ht _ IH]; intros [|v vs] env w p Hp x Hx; simpl in *;
    try discriminate Hp.
  - injection Hp as <-. reflexivity.
  - apply bind_ok in Hp. destruct Hp as (r & Hr & Hp).
    rewrite in_app_iff in Hx.
    rewrite (IH vs (fst r) (snd r) p Hp x) by tauto.
    apply (Ht env v w r Hr). tauto.
Qed.

Lemma assign_frame (t : expr) : assign_frames t.
Proof.
  induction t using expr_induction; intros env v w p Hp y Hy; simpl in *;
    try discriminate Hp.
  - injection Hp as <-. simpl. unfold update.
    destruct (String.eqb_spec y x) as [E|E]; [|reflexivity].
    exfalso. apply Hy. left. symmetry. exact E.
  - apply bind_ok in Hp. destruct Hp as (r & _ & Hp).
    apply (assigns_frame H _ _ _ Hp). exact Hy.
  - apply bind_ok in Hp. destruct Hp as (r & _ & Hp).
    apply (assigns_frame H _ _ _ Hp). exact Hy.
  - apply bind_ok in Hp. destruct Hp as (r & _ & Hp).
    apply bind_ok in Hp. destruct Hp as (r' & _ & Hp).
    injection Hp as <-. reflexivity.
  - apply bind_ok in Hp. destruct Hp as (r & _ & Hp).
    apply bind_ok in Hp. destruct Hp as (rs & _ & Hp).
    apply bind_ok in Hp. destruct Hp as (r' & _ & Hp).
    injection Hp as <-. reflexivity.
Qed.

Lemma exec_frame (st : stmt) (k k' : state) :
  exec st k = Ok k' ->
  forall x, ~ In x (stmt_binds st) -> names k' x = names k x.
Proof.
  intros Hk x Hx. destruct st as [m n a|m a|t v|v|v]; simpl in *.
  - apply bind_ok in Hk. destruct Hk as (r & _ & Hk). injection Hk as <-. simpl.
    unfold update. destruct (String.eqb_spec x a) as [E|E]; [|reflexivity].
    exfalso. apply Hx. left. symmetry. exact E.
  - apply bind_ok in Hk. destruct Hk as (r & _ & Hk). injection Hk as <-. simpl.
    unfold update. destruct (String.eqb_spec x a) as [E|E]; [|reflexivity].
    exfalso. apply Hx. left. symmetry. exact E.
  - apply bind_ok in Hk. destruct Hk as (r & _ & Hk).
    apply bind_ok in Hk. destruct Hk as (r' & Hr' & Hk). injection Hk as <-. simpl.
    pose proof (assign_frame t) as Hf. apply (Hf _ _ _ _ Hr'). exact Hx.
  - apply bind_ok in Hk. destruct Hk as (r & _ & Hk). injection Hk as <-.
    reflexivity.
  - apply bind_ok in Hk. destruct Hk as (r & _ & Hk).
    apply bind_ok in Hk. destruct Hk as (r' & _ & Hk). injection Hk as <-.
    reflexivity.
Qed.

Lemma run_frame (body : list stmt) :
  forall (k : state) (x : string),
    ~ In x (flat_map stmt_binds body) -> names (fst (run body k)) x = names k x.
Proof.
  induction body as [|st rest IH]; intros k x Hx; simpl in *; [reflexivity|].
  rewrite in_app_iff in Hx.
  destruct (exec st k) as [k'|e] eqn:Hk; [|reflexivity].
  rewrite IH by tauto. eapply exec_frame; [exact Hk|tauto].
Qed.

(** *** Standalone programs *)

(** A program that reads, before binding them, only names of builtins. *)
Definition closed (body : list stmt) : bool :=
  forallb (fun x => mem x builtins) (unbound_reads_from [] body).

Definition fresh (w : world) : state :=
  {| names := empty_namespace; the_world := w; stdout := [] |}.

(** A closed program shows the same in any two namespaces that do not
    differ on the builtins. *)
Lemma closed_run_cell (body : list stmt) (env1 env2 : namespace) (w : world) :
  closed body = true -> agree builtins env1 env2 ->
  run_cell body env1 w = run_cell body env2 w.
Proof.
  intros Hc Hag. unfold run_cell. apply (run_agree body []).
  split; [reflexivity|]. split; [reflexivity|]. simpl.
  intros x Hx. apply Hag. apply mem_In.
  unfold closed in Hc. rewrite forallb_forall in Hc. apply Hc, Hx.
Qed.

(** A closed program shows, in the namespace another program has left, what
    it shows in a fresh one, when that program binds no builtin. *)
Lemma closed_after_other (body other : list stmt) (w w' : world) :
  closed body = true ->
  forallb (fun x => negb (mem x builtins)) (flat_map stmt_binds other) = true ->
  run_cell body (names (fst (run other (fresh w')))) w
  = run_cell body empty_namespace w.
Proof.
  intros Hc Ho. apply closed_run_cell; [exact Hc|].
  intros x Hx. rewrite run_frame; [reflexivity|].
  intros Hin. rewrite forallb_forall in Ho. specialize (Ho x Hin).
  apply (proj2 (mem_In x builtins)) in Hx. rewrite Hx in Ho. discriminate Ho.
Qed.

(** *** A run without error binds the names it assigns *)

Definition assign_keeps (t : expr) : Prop :=
  forall env v w p,
    assign env t v w = Ok p ->
    forall x, env x <> None -> fst p x <> None.

Lemma update_keeps (env : namespace) (y : string) (v : value) (x : string) :
  env x <> None -> update env y v x <> None.
Proof.
  intros H. unfold update. destruct (String.eqb x y); [discriminate|exact H].
Qed.

Lemma assigns_keep (ts : list expr) :
  Forall assign_keeps ts ->
  forall vs env w p,
    assigns assign ts vs env w = Ok p ->
    forall x, env x <> None -> fst p x <> None.
Proof.
  induction 1 as [|t ts Ht _ IH]; intros [|v vs] env w p Hp x Hx; simpl in *;
    try discriminate Hp.
  - injection Hp as <-. exact Hx.
  - apply bind_ok in Hp. destruct Hp as (r & Hr & Hp).
    apply (IH vs (fst r) (snd r) p Hp x). apply (Ht env v w r Hr). exact Hx.
Qed.

Lemma assign_keep (t : expr) : assign_keeps t.
Proof.
  induction t using expr_induction; intros env v w p Hp y Hy; simpl in *;
    try discriminate Hp.
  - injection Hp as <-. simpl. apply update_keeps. exact Hy.
  - apply bind_ok in Hp. destruct Hp as (r & _ & Hp).
    apply (assigns_keep H _ _ _ Hp). exact Hy.
  - apply bind_ok in Hp. destruct Hp as (r & _ & Hp).
    apply (assigns_keep H _ _ _ Hp). exact Hy.
  - apply bind_ok in Hp. destruct Hp as (r & _ & Hp).
    apply bind_ok in Hp. destruct Hp as (r' & _ & Hp).
    injection Hp as <-. exact Hy.
  - apply bind_ok in Hp. destruct Hp as (r & _ & Hp).
    apply bind_ok in Hp. destruct Hp as (rs & _ & Hp).
    apply bind_ok in Hp. destruct Hp as (r' & _ & Hp).
    injection Hp as <-. exact Hy.
Qed.

Definition assign_binds (t : expr) : Prop :=
  forall env v w p,
    assign env t v w = Ok p ->
    forall x, In x (target_binds t) -> fst p x <> None.

Lemma assigns_bind (ts : list expr) :
  Forall assign_binds ts ->
  forall vs env w p,
    assigns assign ts vs env w = Ok p ->
    forall x, In x (flat_map target_binds ts) -> fst p x <> None.
Proof.
  induction 1 as [|t ts Ht _ IH]; intros [|v vs] env w p Hp x Hx; simpl in *;
    try discriminate Hp; try contradiction.
  apply bind_ok in Hp. destruct Hp as (r & Hr & Hp).
  rewrite in_app_iff in Hx. destruct Hx as [Hx|Hx].
  - assert (Hall : Forall assign_keeps ts).
    { apply Forall_forall. intros t' _. apply assign_keep. }
    apply (assigns_keep Hall _ _ _ Hp). apply (Ht env v w r Hr). exact Hx.
  - apply (IH vs (fst r) (snd r) p Hp x Hx).
Qed.

Lemma assign_bind (t : expr) : assign_binds t.
Proof.
  induction t using expr_induction; intros env v w p Hp y Hy; simpl in *;
    try contradiction.
  - destruct Hy as [<-|[]]. injection Hp as <-. simpl. unfold update.
    rewrite String.eqb_refl. discriminate.
  - apply bind_ok in Hp. destruct Hp as (r & _ & Hp).
    apply (assigns_bind H _ _ _ Hp). exact Hy.
  - apply bind_ok in Hp. destruct Hp as (r & _ & Hp).
    apply (assigns_bind H _ _ _ Hp). exact Hy.
Qed.

Lemma exec_keeps (st : stmt) (k k' : state) :
  exec st k = Ok k' ->
  forall x, names k x <> None -> names k' x <> None.
Proof.
  intros Hk x Hx. destruct st as [m n a|m a|t v|v|v]; simpl in *.
  - apply bind_ok in Hk. destruct Hk as (r & _ & Hk). injection Hk as <-. simpl.
    apply update_keeps. exact Hx.
  - apply bind_ok in Hk. destruct Hk as (r & _ & Hk). injection Hk as <-. simpl.
    apply update_keeps. exact Hx.
  - apply bind_ok in Hk. destruct Hk as (r & _ & Hk).
    apply bind_ok in Hk. destruct Hk as (r' & Hr' & Hk). injection Hk as <-. simpl.
    pose proof (assign_keep t) as Hf. apply (Hf _ _ _ _ Hr'). exact Hx.
  - apply bind_ok in Hk. destruct Hk as (r & _ & Hk). injection Hk as <-.
    exact Hx.
  - apply bind_ok in Hk. destruct Hk as (r & _ & Hk).
    apply bind_ok in Hk. destruct Hk as (r' & _ & Hk). injection Hk as <-.
    exact Hx.
Qed.

Lemma exec_binds (st : stmt) (k k' : state) :
  exec st k = Ok k' ->
  forall x, In x (stmt_binds st) -> names k' x <> None.
Proof.
  intros Hk x Hx. destruct st as [m n a|m a|t v|v|v]; simpl in *;
    try contradiction.
  - destruct Hx as [<-|[]].
    apply bind_ok in Hk. destruct Hk as (r & _ & Hk). injection Hk as <-. simpl.
    unfold update. rewrite String.eqb_refl. discriminate.
  - destruct Hx as [<-|[]].
    apply bind_ok in Hk. destruct Hk as (r & _ & Hk). injection Hk as <-. simpl.
    unfold update. rewrite String.eqb_refl. discriminate.
  - apply bind_ok in Hk. destruct Hk as (r & _ & Hk).
    apply bind_ok in Hk. destruct Hk as (r' & Hr' & Hk). injection Hk as <-. simpl.
    pose proof (assign_bind t) as Hf. apply (Hf _ _ _ _ Hr'). exact Hx.
Qed.

(** After a run that raised nothing, every name the program binds is bound,
    and so is every name that was bound before. *)
Lemma run_binds (body : list stmt) :
  forall (k : state) (x : string),
    snd (run body k) = None ->
    In x (flat_map stmt_binds body) \/ names k x <> None ->
    names (fst (run body k)) x <> None.
Proof.
  induction body as [|st rest IH]; intros k x Hrun Hx; simpl in *.
  - destruct Hx as [[]|Hx]. exact Hx.
  - destruct (exec st k) as [k'|e] eqn:Hk; [|discriminate Hrun].
    apply IH; [exact Hrun|].
    rewrite in_app_iff in Hx. destruct Hx as [[Hx|Hx]|Hx].
    + right. exact (@exec_binds st k k' Hk x Hx).
    + left. exact Hx.
    + right. exact (@exec_keeps st k k' Hk x Hx).
Qed.

End Kernel.

(** ** Properties of the cells *)

Lemma Forall_by_forallb (A : Type) (P : A -> Prop) (f : A -> bool) (l : list A) :
  (forall x, f x = true -> P x) -> forallb f l = true -> Forall P l.
Proof.
  intros HP H. apply Forall_forall. intros x Hx. apply HP.
  rewrite forallb_forall in H. apply H. exact Hx.
Qed.

Lemma executed_cells_in (c : cell) : In c executed_cells -> In c all_cells.
Proof. unfold executed_cells. intros H. apply filter_In in H. tauto. Qed.

(** The cell of the dimensionality reduction is 28 lines long, 21 of them no
    comments: the code cells are not all shorter than 20 lines, however
    lines are counted. *)
Lemma reduction_cell_has_28_lines :
  In svd_cell_37 all_cells /\ line_count svd_cell_37 = 28
  /\ code_line_count svd_cell_37 = 21
  /\ ~ Forall (fun c => line_count c < 20) all_cells
  /\ ~ Forall (fun c => code_line_count c < 20) all_cells.
Proof.
  assert (Hin : In svd_cell_37 all_cells).
  { unfold all_cells, notebooks. simpl. do 17 right. left. reflexivity. }
  split; [exact Hin|]. split; [reflexivity|]. split; [reflexivity|].
  split; intros H; rewrite Forall_forall in H; specialize (H _ Hin);
    vm_compute in H; lia.
Qed.

(** C8, amended. Every code cell has at most 28 source lines, and all code
    cells but two, the pseudoinverse via SVD (23 lines) and the
    dimensionality reduction (28 lines), are fewer than 20 lines long. *)
Theorem code_cell_line_counts :
  Forall (fun c => line_count c <= 28) all_cells /\
  filter (fun c => 20 <=? line_count c)%nat all_cells = [svd_cell_29; svd_cell_37] /\
  line_count svd_cell_29 = 23 /\ line_count svd_cell_37 = 28.
Proof.
  split; [|split; [|split]]; try reflexivity.
  apply Forall_by_forallb with (f := fun c => (line_count c <=? 28)%nat).
  - intros c Hc. apply Nat.leb_le. exact Hc.
  - vm_compute. reflexivity.
Qed.

(** The statements of an executed cell; a cell that is no Python program has
    none. *)
Definition body_of (c : cell) : list stmt :=
  match code c with
  | Some body => body
  | None => []
  end.

(** The cell "Pseudoinverse via SVD" calls six library functions and prints
    twice: the executed cells do not each make exactly one library call. *)
Lemma pinv_svd_cell_makes_six_calls :
  In svd_cell_29 executed_cells
  /\ cell_library_calls svd_cell_29 = ["array"; "svd"; "zeros"; "diag"; "dot"; "dot"]
  /\ print_count (body_of svd_cell_29) = 2
  /\ ~ Forall (fun c => List.length (cell_library_calls c) = 1) executed_cells.
Proof.
  assert (Hin : In svd_cell_29 executed_cells).
  { vm_compute. do 4 right. left. reflexivity. }
  split; [exact Hin|]. split; [reflexivity|]. split; [reflexivity|].
  intros H. rewrite Forall_forall in H. specialize (H _ Hin).
  vm_compute in H. discriminate H.
Qed.

(** C9, amended. Every executed code cell is a Python program that makes at
    least one library call (at most eight) and ends with a print statement;
    one executed cell, the one that creates a tensor, makes exactly one
    call. *)
Theorem executed_cells_call_and_print :
  Forall (fun c => code c <> None
                   /\ 1 <= List.length (cell_library_calls c) <= 8
                   /\ ends_with_print (body_of c) = true) executed_cells /\
  filter (fun c => Nat.eqb (List.length (cell_library_calls c)) 1) executed_cells
  = [tensors_cell_5].
Proof.
  split; [|reflexivity].
  apply Forall_by_forallb with
           (f := fun c => (match code c with Some _ => true | None => false end
                           && (1 <=? List.length (cell_library_calls c))%nat
                           && (List.length (cell_library_calls c) <=? 8)%nat
                           && ends_with_print (body_of c))%bool).
  - intros c Hc.
    apply andb_prop in Hc. destruct Hc as [Hc H4].
    apply andb_prop in Hc. destruct Hc as [Hc H3].
    apply andb_prop in Hc. destruct Hc as [H1 H2].
    apply Nat.leb_le in H2, H3.
    split; [destruct (code c); [discriminate|discriminate H1]|].
    split; [split; assumption|exact H4].
  - vm_compute. reflexivity.
Qed.

(** The snippet "LSTM Model" of the CNN-LSTM notebook reads [model] without
    binding it, and the cells of the tuning notebook bind [model]; the
    formula cell [A = U . Sigma . V^T], which parses as Python, reads [U],
    which the SVD cells bind.  So some cells read names that other cells
    bind, and what the snippet does depends on the namespace it is run in.
    In a fresh namespace it stops at the name [model], whatever the
    libraries do.  After a run of the grid-search cell that raised nothing
    [model] is bound; and in every namespace that binds [model] the snippet
    finds the name and goes on to look up [model.add], so that it stops with
    the error of that lookup when the object has no such attribute (the
    estimator the grid-search cell binds has none).  Run after the
    grid-search cell, the snippet then does not do what it does in a fresh
    namespace. *)
Lemma lstm_snippet_reads_model :
  In (3, cnn_lstm_cell_5) all_located
  /\ In "model" (free_names cnn_lstm_cell_5)
  /\ In "model" (bound_names tuning_cell_1)
  /\ In (0, svd_cell_3) all_located
  /\ In "U" (free_names svd_cell_3)
  /\ In "U" (bound_names svd_cell_6)
  /\ ~ Forall (fun c => reads_name_of_other_cell c = false) all_located
  /\ (forall (value world : Type) (py : python value world) (w : world),
        builtin py "model" = None ->
        run_cell py (body_of cnn_lstm_cell_5) (empty_namespace value) w
        = ([], Some (NameError "model"), w))
  /\ (forall (value world : Type) (py : python value world) (w : world),
        snd (run py (body_of tuning_cell_1) (fresh value w)) = None ->
        names (fst (run py (body_of tuning_cell_1) (fresh value w))) "model" <> None)
  /\ (forall (value world : Type) (py : python value world)
             (env : namespace value) (v : value) (w : world) (e : exn),
        env "model" = Some v ->
        operate py (OpGetAttr "add") [v] w = Raise e ->
        run_cell py (body_of cnn_lstm_cell_5) env w = ([], Some e, w))
  /\ (forall (value world : Type) (py : python value world)
             (v : value) (w w' : world) (e : exn),
        builtin py "model" = None ->
        names (fst (run py (body_of tuning_cell_1) (fresh value w'))) "model" = Some v ->
        operate py (OpGetAttr "add") [v] w = Raise e ->
        e <> NameError "model" ->
        run_cell py (body_of cnn_lstm_cell_5)
                 (names (fst (run py (body_of tuning_cell_1) (fresh value w')))) w
        <> run_cell py (body_of cnn_lstm_cell_5) (empty_namespace value) w).
Proof.
  assert (Hin : In (3, cnn_lstm_cell_5) all_located).
  { vm_compute. do 37 right. left. reflexivity. }
  assert (Hfresh : forall (value world : Type) (py : python value world) (w : world),
             builtin py "model" = None ->
             run_cell py (body_of cnn_lstm_cell_5) (empty_namespace value) w
             = ([], Some (NameError "model"), w)).
  { intros value world py w Hb.
    unfold run_cell, observe, body_of. cbn [code cnn_lstm_cell_5 run exec eval bind].
    unfold lookup, empty_namespace. rewrite Hb. reflexivity. }
  assert (Hbound : forall (value world : Type) (py : python value world)
                          (env : namespace value) (v : value) (w : world) (e : exn),
             env "model" = Some v ->
             operate py (OpGetAttr "add") [v] w = Raise e ->
             run_cell py (body_of cnn_lstm_cell_5) env w = ([], Some e, w)).
  { intros value world py env v w e Henv Hattr.
    unfold run_cell, observe, body_of. cbn [code cnn_lstm_cell_5 run exec eval bind].
    unfold lookup. cbn [names the_world stdout]. rewrite Henv.
    cbn [bind fst snd]. rewrite Hattr. reflexivity. }
  split; [exact Hin|].
  split; [vm_compute; left; reflexivity|].
  split; [vm_compute; do 6 right; left; reflexivity|].
  split; [vm_compute; left; reflexivity|].
  split; [vm_compute; left; reflexivity|].
  split; [vm_compute; do 3 right; left; reflexivity|].
  split.
  { intros H. rewrite Forall_forall in H. specialize (H _ Hin).
    vm_compute in H. discriminate H. }
  split; [exact Hfresh|]. split; [|split; [exact Hbound|]].
  - intros value world py w Hrun. apply run_binds; [exact Hrun|].
    left. vm_compute. do 6 right. left. reflexivity.
  - intros value world py v w w' e Hb Hmodel Hattr Hne.
    rewrite (Hbound _ _ py _ v w e Hmodel Hattr), (Hfresh _ _ py w Hb).
    intros E. apply Hne. congruence.
Qed.

(** C4, amended. Every executed code cell is standalone: it is a Python
    program in which each name read is a builtin or has been imported or
    assigned earlier in the same cell, so it reads no variable that another
    cell or notebook has bound; run in the namespace any cell of the
    repository has left, it prints, raises and leaves in the world what it
    does in a fresh namespace, whatever the libraries compute.  (What it
    prints may still depend on the world: the random generator.)  The cells
    that do read names of other cells are never executed: the four formula
    cells that read [U] (cells 3, 20, 31 and 33 of the SVD notebook), and
    the LSTM snippet. *)
Theorem executed_cells_standalone :
  Forall (fun c => code c <> None /\ free_names c = []) executed_cells /\
  Forall (fun c => executed (snd c) = true -> reads_name_of_other_cell c = false)
         all_located /\
  map (fun c => (fst c, index (snd c))) (filter reads_name_of_other_cell all_located)
  = [(0, 3); (0, 20); (0, 31); (0, 33); (3, 5)] /\
  (forall (value world : Type) (py : python value world) (w w' : world),
      Forall (fun c =>
                Forall (fun c' =>
                          run_cell py (body_of c)
                                   (names (fst (run py (body_of c') (fresh value w')))) w
                          = run_cell py (body_of c) (empty_namespace value) w)
                       all_cells)
             executed_cells).
Proof.
  split; [|split; [|split]]; [| |reflexivity|].
  - apply Forall_by_forallb with
             (f := fun c => (match code c with Some _ => true | None => false end
                             && match free_names c with [] => true | _ => false end)%bool).
    + intros c Hc. apply andb_prop in Hc. destruct Hc as [H1 H2]. split.
      * destruct (code c); [discriminate|discriminate H1].
      * destruct (free_names c); [reflexivity|discriminate H2].
    + vm_compute. reflexivity.
  - apply Forall_by_forallb with
             (f := fun c => (negb (executed (snd c))
                             || negb (reads_name_of_other_cell c))%bool).
    + intros c Hc He. rewrite He in Hc. simpl in Hc.
      destruct (reads_name_of_other_cell c); [discriminate Hc|reflexivity].
    + vm_compute. reflexivity.
  - intros value world py w w'.
    assert (Hclosed : Forall (fun c => closed (body_of c) = true) executed_cells).
    { apply Forall_by_forallb with (f := fun c => closed (body_of c)).
      - intros c Hc. exact Hc.
      - vm_compute. reflexivity. }
    assert (Hbinds : Forall (fun c' => forallb (fun x => negb (mem x builtins))
                                              (flat_map stmt_binds (body_of c')) = true)
                            all_cells).
    { apply Forall_by_forallb with
        (f := fun c' => forallb (fun x => negb (mem x builtins))
                                (flat_map stmt_binds (body_of c'))).
      - intros c Hc. exact Hc.
      - vm_compute. reflexivity. }
    rewrite Forall_forall in Hclosed, Hbinds.
    apply Forall_forall. intros c Hc. apply Forall_forall. intros c' Hc'.
    apply closed_after_other; [apply Hclosed, Hc|apply Hbinds, Hc'].
Qed.


(** * Cells of the tensor notebook

    The tensors hold machine integers (NumPy's [int64]); the kernel is
    Python 2, where [/] between integer arrays is floor division. *)

Definition int64 (z : Z) : Z := ((z + 2 ^ 63) mod 2 ^ 64 - 2 ^ 63)%Z.

Definition tensor1 : Type := list Z.
Definition tensor2 : Type := list tensor1.
Definition tensor3 : Type := list tensor2.

Fixpoint map2_result (A B C : Type) (f : A -> B -> result C) (a : list A) (b : list B)
  : result (list C) :=
  match a, b with
  | [], [] => Ok []
  | x :: a', y :: b' =>
      z <- f x y ;; r <- map2_result f a' b' ;; Ok (z :: r)
  | _, _ => Raise ValueError
  end.

(** One axis of an elementwise operation: equal lengths pair up, a length of
    one is repeated along the other operand, anything else is [ValueError]. *)
Definition broadcast2 (A B C : Type) (f : A -> B -> result C) (a : list A) (b : list B)
  : result (list C) :=
  match a, b with
  | [x], _ => map2_result f (repeat x (List.length b)) b
  | _, [y] => map2_result f a (repeat y (List.length a))
  | _, _ => map2_result f a b
  end.

Definition elementwise (f : Z -> Z -> result Z) (A B : tensor3) : result tensor3 :=
  broadcast2 (broadcast2 (broadcast2 f)) A B.

(** [A + B], [A - B], [A * B] on arrays of dtype [int64], as [array] makes
    them from integer literals that fit 64 bits: the results wrap.  The
    entries of the operands are taken to be [int64] values; for literals
    outside that range NumPy chooses another dtype, which is not modelled. *)
Definition tensor_add : tensor3 -> tensor3 -> result tensor3 :=
  elementwise (fun x y => Ok (int64 (x + y))).
Definition tensor_sub : tensor3 -> tensor3 -> result tensor3 :=
  elementwise (fun x y => Ok (int64 (x - y))).
Definition tensor_mul : tensor3 -> tensor3 -> result tensor3 :=
  elementwise (fun x y => Ok (int64 (x * y))).

(** [A / B], the floor division of Python 2 on [int64] arrays.  NumPy
    signals divide-by-zero at a zero divisor (a RuntimeWarning by default,
    with the entry 0); the model stops there with [DivideByZero] and says
    nothing on the array NumPy goes on with.  The quotient of the smallest
    [int64] by -1 does not fit 64 bits; the model wraps it, which NumPy
    does not promise. *)
Definition tensor_div : tensor3 -> tensor3 -> result tensor3 :=
  elementwise (fun x y => if (y =? 0)%Z then Raise DivideByZero
                          else Ok (int64 (x / y))).

(** [tensordot(A, B, axes=0)] for two vectors: all the products. *)
Definition tensordot0 (A B : tensor1) : tensor2 :=
  map (fun a => map (fun b => int64 (a * b)) B) A.

(** [T.shape] *)
Definition shape3 (T : tensor3) : nat * nat * nat :=
  (List.length T, List.length (hd [] T), List.length (hd [] (hd [] T))).

(** The tensor every cell of the notebook defines, as [T], [A] and [B]. *)
Definition tensor_T : tensor3 :=
  [[[1; 2; 3]; [4; 5; 6]; [7; 8; 9]];
   [[11; 12; 13]; [14; 15; 16]; [17; 18; 19]];
   [[21; 22; 23]; [24; 25; 26]; [27; 28; 29]]]%Z.

(** Cell 5, "create tensor": prints the shape, then the tensor. *)
Definition cell_create_tensor (T : tensor3) : result (nat * nat * nat * tensor3) :=
  Ok (shape3 T, T).

(** Cells 9, 13, 17 and 21: [C = A op B; print(C)]. *)
Definition cell_tensor_addition (A B : tensor3) : result tensor3 :=
  C <- tensor_add A B ;; Ok C.
Definition cell_tensor_subtraction (A B : tensor3) : result tensor3 :=
  C <- tensor_sub A B ;; Ok C.
Definition cell_tensor_hadamard (A B : tensor3) : result tensor3 :=
  C <- tensor_mul A B ;; Ok C.
Definition cell_tensor_division (A B : tensor3) : result tensor3 :=
  C <- tensor_div A B ;; Ok C.

(** Cell 31, "tensor product". *)
Definition cell_tensor_product (A B : tensor1) : result tensor2 :=
  Ok (tensordot0 A B).

(** ** What NumPy prints

    [print] of an integer array: the entries right-aligned to the width of
    the longest, rows in brackets one per line, the matrices of a tensor
    separated by an empty line.  This is NumPy's layout for the arrays of
    the notebook: rows that fit its line width of 75 characters and arrays
    below the size at which it abbreviates.  Longer rows, which NumPy
    breaks, and larger arrays are not modelled. *)

Definition str_of_Z (z : Z) : string := NilZero.string_of_int (Z.to_int z).

Fixpoint spaces (n : nat) : string :=
  match n with
  | O => ""
  | S k => " " ++ spaces k
  end.

Definition pad_left (width : nat) (s : string) : string :=
  spaces (width - String.length s) ++ s.

Definition entry_width (entries : list Z) : nat :=
  fold_right (fun z w => Nat.max (String.length (str_of_Z z)) w) 0 entries.

Definition print_row (width : nat) (row : tensor1) : string :=
  "[" ++ String.concat " " (map (fun z => pad_left width (str_of_Z z)) row) ++ "]".

(** The lines of a nested array from the lines of its items: an opening
    bracket before the first, one space before the others, a closing
    bracket after the last. *)
Definition bracket (lines : list string) : list string :=
  match lines with
  | [] => ["[]"]
  | first :: rest =>
      match rev (("[" ++ first)
                 :: map (fun l => if String.eqb l "" then "" else " " ++ l) rest) with
      | last :: before => rev ((last ++ "]") :: before)
      | [] => []
      end
  end.

Definition print_tensor2_width (width : nat) (M : tensor2) : list string :=
  bracket (map (print_row width) M).

Definition print_tensor2 (M : tensor2) : list string :=
  print_tensor2_width (entry_width (concat M)) M.

Fixpoint separate (blocks : list (list string)) : list string :=
  match blocks with
  | [] => []
  | [b] => b
  | b :: rest => b ++ [""] ++ separate rest
  end.

Definition print_tensor3 (T : tensor3) : list string :=
  bracket (separate (map (print_tensor2_width (entry_width (concat (concat T)))) T)).

Definition str_of_nat (n : nat) : string := str_of_Z (Z.of_nat n).

(** [print(T.shape)] *)
Definition print_shape3 (sh : nat * nat * nat) : string :=
  "(" ++ str_of_nat (fst (fst sh)) ++ ", " ++ str_of_nat (snd (fst sh)) ++ ", "
      ++ str_of_nat (snd sh) ++ ")".

(** The six executed cells of the tensor notebook print, in the model,
    exactly the output the notebook records. *)
Lemma tensor_cells_reproduce_outputs :
  (r <- cell_create_tensor tensor_T ;;
   Ok (print_shape3 (fst r) :: print_tensor3 (snd r))) = Ok (outputs tensors_cell_5)
  /\ (C <- cell_tensor_addition tensor_T tensor_T ;; Ok (print_tensor3 C))
     = Ok (outputs tensors_cell_9)
  /\ (C <- cell_tensor_subtraction tensor_T tensor_T ;; Ok (print_tensor3 C))
     = Ok (outputs tensors_cell_13)
  /\ (C <- cell_tensor_hadamard tensor_T tensor_T ;; Ok (print_tensor3 C))
     = Ok (outputs tensors_cell_17)
  /\ (C <- cell_tensor_division tensor_T tensor_T ;; Ok (print_tensor3 C))
     = Ok (outputs tensors_cell_21)
  /\ (C <- cell_tensor_product [1; 2]%Z [3; 4]%Z ;; Ok (print_tensor2 C))
     = Ok (outputs tensors_cell_31).
Proof. repeat split; vm_compute; reflexivity. Qed.

(** Over the rationals, the array the pseudoinverse cells print is the
    exact pseudoinverse of their matrix. *)
Lemma cell_29_B_is_pinv : is_pinv (K := QcScalar) cell_29_A cell_29_B.
Proof. apply is_pinvb_sound. vm_compute. reflexivity. Qed.

Lemma ex_A_full_column_rank : full_column_rank ex_A.
Proof.
  apply (left_inverse_full_column_rank
           (L := pinv_formula ex_A ex_U [frac 1 30; frac 1 15] ex_VT));
    [reflexivity|].
  apply ndarray_eqb_eq. vm_compute. reflexivity.
Qed.

Lemma bind_raise (A B : Type) (r : result A) (k : A -> result B) (e : exn) :
  bind r k = Raise e -> r = Raise e \/ exists a, r = Ok a /\ k a = Raise e.
Proof.
  destruct r as [a|e']; simpl; intros H.
  - right. exists a. split; [reflexivity|exact H].
  - left. injection H as ->. reflexivity.
Qed.

(** C5. The repository has no error handling of its own.  No code cell
    contains a word that guards, catches or transforms a failure.  The
    partial operations run unguarded: a cell fails exactly when one of its
    library operations does, and with that error.  On the inputs the cells
    supply no operation fails: the divisor tensor has no zero entry and the
    division yields a tensor; the matrix of the pseudoinverse cells has
    independent columns (over scalars where 10 is not zero, as the reals),
    and for such a matrix (with no more columns than
    rows) every singular value is non-zero, the reciprocals exist, the shapes
    fit, and the cell prints its two arrays. *)
Theorem no_error_handling :
  Forall (fun c => handles_errors c = false) all_cells /\
  (forall (A B : tensor3) (e : exn),
      cell_tensor_division A B = Raise e <-> tensor_div A B = Raise e) /\
  (forall (K : Scalar) (svd : svd_fn) (A : ndarray) (e : exn),
      cell_pinv_svd svd A = Raise e ->
      svd A = Raise e \/
      exists U s VT, svd A = Ok (U, s, VT) /\
        (reciprocal s = Raise e \/
         exists d, reciprocal s = Ok d /\
           (setitem_block (zeros (shape A)) (shape1 A) (shape1 A) (diag d) = Raise e \/
            exists D, setitem_block (zeros (shape A)) (shape1 A) (shape1 A) (diag d) = Ok D /\
              (dot (transpose VT) (transpose D) = Raise e \/
               exists VD, dot (transpose VT) (transpose D) = Ok VD /\
                          dot VD (transpose U) = Raise e)))) /\
  Forall (Forall (Forall (fun z => z <> 0%Z))) tensor_T /\
  (exists C, cell_tensor_division tensor_T tensor_T = Ok C) /\
  (forall (K : Scalar) (svd : svd_fn) (A U : ndarray) (s : list car) (VT : ndarray),
      svd A = Ok (U, s, VT) -> svd_spec A U s VT ->
      shape1 A <= shape0 A -> full_column_rank A ->
      Forall (fun x => x <> @fzero K) s /\
      exists B, cell_pinv_svd svd A = Ok (A, B)) /\
  (forall K : Scalar, @of_Z K 10 <> fzero -> full_column_rank (@cell_29_A K)) /\
  (forall (K : Scalar) (svd : svd_fn) (U : ndarray) (s : list car) (VT : ndarray),
      @of_Z K 10 <> fzero ->
      svd cell_29_A = Ok (U, s, VT) -> svd_spec cell_29_A U s VT ->
      exists B, cell_pinv_svd svd cell_29_A = Ok (cell_29_A, B)).
Proof.
  split.
  { apply Forall_by_forallb with (f := fun c => negb (handles_errors c)).
    - intros c Hc. destruct (handles_errors c); [discriminate Hc|reflexivity].
    - vm_compute. reflexivity. }
  split.
  { intros A B e. unfold cell_tensor_division.
    destruct (tensor_div A B) as [C|e']; simpl; split; intros H;
      try discriminate H; exact H. }
  split.
  { intros K svd A e H. unfold cell_pinv_svd in H.
    apply bind_raise in H. destruct H as [H|(a & Hsvd & H)]; [left; exact H|].
    destruct a as [[U s] VT]. right. exists U, s, VT. split; [exact Hsvd|].
    apply bind_raise in H. destruct H as [H|(d & Hd & H)]; [left; exact H|].
    right. exists d. split; [exact Hd|].
    apply bind_raise in H. destruct H as [H|(D & HD & H)]; [left; exact H|].
    right. exists D. split; [exact HD|].
    apply bind_raise in H. destruct H as [H|(VD & HVD & H)]; [left; exact H|].
    right. exists VD. split; [exact HVD|].
    apply bind_raise in H. destruct H as [H|(B & _ & H)]; [exact H|discriminate H]. }
  split.
  { unfold tensor_T. repeat constructor; intros H; discriminate H. }
  split.
  { eexists. vm_compute. reflexivity. }
  assert (Hgen : forall (K : Scalar) (svd : svd_fn) (A U : ndarray) (s : list car)
                        (VT : ndarray),
             svd A = Ok (U, s, VT) -> svd_spec A U s VT ->
             shape1 A <= shape0 A -> full_column_rank A ->
             Forall (fun x => x <> @fzero K) s /\
             exists B, cell_pinv_svd svd A = Ok (A, B)).
  { intros K svd A U s VT Hsvd Hspec Hle Hrank.
    pose proof (full_column_rank_singular_values Hspec Hle Hrank) as Hnz.
    split; [exact Hnz|].
    destruct (pinv_via_svd_general svd Hsvd Hspec) as [_ H].
    destruct (H Hnz) as (d & _ & _ & _ & Hcell).
    destruct (Hcell Hle) as [Hc _]. eexists. exact Hc. }
  split; [exact Hgen|].
  split; [intros K; apply cell_29_A_full_column_rank|].
  intros K svd U s VT H10 Hsvd Hspec.
  apply (Hgen K svd cell_29_A U s VT Hsvd Hspec).
  - change (2 <= 4). lia.
  - apply cell_29_A_full_column_rank. exact H10.
Qed.

Lemma no_error_handling_witness :
  svd_spec ex_A ex_U ex_s ex_VT /\ full_column_rank ex_A /\
  Forall (fun x : Qc => x <> Q2Qc 0) ex_s /\
  exists B, cell_pinv_svd ex_svd ex_A = Ok (ex_A, B).
Proof.
  split; [exact ex_svd_spec|]. split; [exact ex_A_full_column_rank|].
  destruct no_error_handling as (_ & _ & _ & _ & _ & H & _).
  apply (H QcScalar ex_svd ex_A ex_U ex_s ex_VT eq_refl ex_svd_spec).
  - vm_compute. lia.
  - exact ex_A_full_column_rank.
Defined.



(** * The randomized search cell

    [RandomizedSearchCV] is scikit-learn's.  As documented, it draws [n_iter]
    candidates from the given distributions with the generator named by
    [random_state], scores each by cross-validation, and keeps the first
    candidate of highest mean score.  With [random_state=None] the generator
    is NumPy's global one, seeded by the operating system: its draws are no
    part of the cell.  The model takes them as an argument, and the
    cross-validated score of a candidate as a function [score]; which draws
    a run of the cell gets, and whether two runs get different ones, is
    outside of it. *)

(** The uniform draws of the generator, one per candidate. *)
Definition draws : Type := nat -> Qc.

Definition uniform01 (g : draws) : Prop :=
  forall i, (Q2Qc 0 <= g i /\ g i < Q2Qc 1)%Qc.

(** [ParameterSampler]: [n_iter] values of [alpha]. *)
Definition sample_alphas (n_iter : nat) (g : draws) : list Qc := map g (seq 0 n_iter).

Definition Qc_leb (x y : Qc) : bool := Qle_bool (this x) (this y).

(** The first candidate of highest score, with its score. *)
Fixpoint best_candidate (score : Qc -> Qc) (best : Qc * Qc) (candidates : list Qc)
  : Qc * Qc :=
  match candidates with
  | [] => best
  | a :: rest =>
      if Qc_leb (score a) (fst best) then best_candidate score best rest
      else best_candidate score (score a, a) rest
  end.

(** What the cell prints after the estimator itself: [best_score_] and
    [best_estimator_.alpha]. *)
Definition cell_random_search (score : Qc -> Qc) (n_iter : nat) (g : draws)
  : option (Qc * Qc) :=
  match sample_alphas n_iter g with
  | [] => None
  | a :: rest => Some (best_candidate score (score a, a) rest)
  end.

(** * The data of the cells, read off their source

    The cells above take their arrays as arguments.  The arrays the notebook
    passes are the literals of its [array(...)] calls. *)

(** The expression a program assigns to the name [x], first assignment. *)
Fixpoint assigned_value (x : string) (body : list stmt) : option expr :=
  match body with
  | [] => None
  | Assign (Name y) v :: rest =>
      if String.eqb y x then Some v else assigned_value x rest
  | _ :: rest => assigned_value x rest
  end.

Fixpoint all_some (A : Type) (l : list (option A)) : option (list A) :=
  match l with
  | [] => Some []
  | Some a :: rest => option_map (cons a) (all_some rest)
  | None :: _ => None
  end.

Definition list_literal (A : Type) (item : expr -> option A) (e : expr) : option (list A) :=
  match e with
  | ListE es => all_some (map item es)
  | _ => None
  end.

(** An integer literal. *)
Definition int_literal (e : expr) : option Z :=
  match e with
  | Num s => option_map Z.of_int (NilZero.int_of_string s)
  | _ => None
  end.

(** A decimal literal with one digit after the point, in tenths. *)
Fixpoint drop_point (s : string) : option string :=
  match s with
  | EmptyString => None
  | String a rest =>
      if Ascii.eqb a "."
      then if Nat.eqb (String.length rest) 1 then Some rest else None
      else option_map (String a) (drop_point rest)
  end.

Definition tenths_literal (e : expr) : option Z :=
  match e with
  | Num s =>
      match drop_point s with
      | Some digits => option_map Z.of_int (NilZero.int_of_string digits)
      | None => None
      end
  | _ => None
  end.

(** The argument of [array(...)]. *)
Definition array_literal (A : Type) (literal : expr -> option A) (e : expr) : option A :=
  match e with
  | Call (Name "array") [a] => literal a
  | _ => None
  end.

Definition assigned_array (A : Type) (literal : expr -> option A) (x : string) (c : cell)
  : option A :=
  match assigned_value x (body_of c) with
  | Some e => array_literal literal e
  | None => None
  end.

Definition matrix_of (item : expr -> option Z) : expr -> option tensor2 :=
  list_literal (list_literal item).

Definition tensor_of (item : expr -> option Z) : expr -> option tensor3 :=
  list_literal (list_literal (list_literal item)).

(** The matrices and tensors of the modelled cells are those of the
    notebooks. *)
Lemma arrays_of_the_notebooks :
  assigned_array (matrix_of int_literal) "A" svd_cell_12
  = Some [[1; 2]; [3; 4]; [5; 6]]%Z
  /\ assigned_array (matrix_of int_literal) "A" svd_cell_14
     = Some [[1; 2; 3]; [4; 5; 6]; [7; 8; 9]]%Z
  /\ assigned_array (matrix_of tenths_literal) "A" svd_cell_25
     = Some [[1; 2]; [3; 4]; [5; 6]; [7; 8]]%Z
  /\ assigned_array (matrix_of tenths_literal) "A" svd_cell_29
     = Some [[1; 2]; [3; 4]; [5; 6]; [7; 8]]%Z
  /\ assigned_array (matrix_of int_literal) "A" svd_cell_37
     = Some [[1; 2; 3; 4; 5; 6; 7; 8; 9; 10];
             [11; 12; 13; 14; 15; 16; 17; 18; 19; 20];
             [21; 22; 23; 24; 25; 26; 27; 28; 29; 30]]%Z
  /\ assigned_value "n_elements" (body_of svd_cell_37) = Some (Num "2")
  /\ assigned_array (tensor_of int_literal) "T" tensors_cell_5 = Some tensor_T
  /\ Forall (fun c => assigned_array (tensor_of int_literal) "A" c = Some tensor_T
                      /\ assigned_array (tensor_of int_literal) "B" c = Some tensor_T)
            [tensors_cell_9; tensors_cell_13; tensors_cell_17; tensors_cell_21]
  /\ assigned_array (list_literal int_literal) "A" tensors_cell_31 = Some [1; 2]%Z
  /\ assigned_array (list_literal int_literal) "B" tensors_cell_31 = Some [3; 4]%Z.
Proof. repeat split; repeat constructor. Qed.

(** * The shapes the cells of the SVD notebook accept

    The cells assign [diag(s)] to a leading block of a zero array.  The
    block is as large as [diag(s)] only for matrices of one orientation; for
    the other the assignment raises, or, for a single row or column, repeats
    the one singular value along the block. *)

Section CellShapes.
Context {K : Scalar}.
Add Field Kfield_cells : (@scalar_field K).

Local Open Scope nat_scope.
Local Open Scope car_scope.

Create Rewrite HintDb shapes.
Hint Rewrite @shape0_tabulate @shape1_tabulate @shape0_matmul @shape1_matmul
  @shape0_transpose @shape1_transpose @shape0_eye @shape1_eye
  @shape0_diag_embed @shape1_diag_embed @shape0_cols_upto @shape1_cols_upto
  @shape0_rows_upto @shape1_rows_upto : shapes.

Lemma setitem_zeros_diag_mismatch (m n b : nat) (s : list car) :
  (length s <> Nat.min b m /\ length s <> 1%nat)
  \/ (length s <> Nat.min b n /\ length s <> 1%nat) ->
  setitem_block (zeros (m, n)) b b (diag s) = Raise ValueError.
Proof.
  intros H. unfold setitem_block.
  change (shape0 (zeros (m, n))) with m. change (shape1 (zeros (m, n))) with n.
  change (shape0 (diag s)) with (length s). change (shape1 (diag s)) with (length s).
  destruct H as [[H1 H2]|[H1 H2]].
  - apply Nat.eqb_neq in H1, H2. rewrite H1, H2. reflexivity.
  - apply Nat.eqb_neq in H1, H2. rewrite H1, H2.
    rewrite andb_false_r. reflexivity.
Qed.

(** A one by one [diag(s)] is repeated along a block of one row. *)
Lemma setitem_zeros_diag_row (n b : nat) (x : car) :
  1 <= b -> n <= b ->
  setitem_block (zeros (1%nat, n)) b b (diag [x]) = Ok (tabulate 1 n (fun _ _ => x)).
Proof.
  intros Hb1 Hb. unfold setitem_block.
  change (shape0 (zeros (1%nat, n))) with 1%nat.
  change (shape1 (zeros (1%nat, n))) with n.
  change (shape0 (diag [x])) with 1%nat. change (shape1 (diag [x])) with 1%nat.
  replace (Nat.min b 1) with 1%nat by lia. replace (Nat.min b n) with n by lia.
  rewrite ?Nat.eqb_refl, ?orb_true_r. cbn [orb andb]. f_equal.
  apply tabulate_ext. intros i j Hi Hj.
  assert (i = 0%nat) by lia. subst i.
  replace (0 <? 1) with true by reflexivity.
  replace (j <? n) with true by (symmetry; apply Nat.ltb_lt; exact Hj).
  cbn [andb]. destruct (Nat.eqb_spec 1 n) as [E|E]; [|reflexivity].
  assert (j = 0%nat) by lia. subst j. reflexivity.
Qed.

(** Cell 12 on a matrix with more columns than rows, and more than one row:
    [Sigma[:n, :n]] is the whole m by n array, [diag(s)] is m by m. *)
Theorem reconstruct_rect_wide_raises
  (svd : svd_fn) (A U : ndarray) (s : list car) (VT : ndarray) :
  svd A = Ok (U, s, VT) -> svd_spec A U s VT ->
  1 < shape0 A -> shape0 A < shape1 A ->
  cell_reconstruct_rect svd A = Raise ValueError.
Proof.
  intros Hsvd (_ & _ & _ & _ & Hlen & _) H1 Hlt.
  unfold cell_reconstruct_rect. rewrite Hsvd. cbn [bind].
  rewrite setitem_zeros_diag_mismatch; [reflexivity|]. right. lia.
Qed.

(** Cell 12 on a matrix of one row and several columns: no error, and the
    singular value fills the row of [Sigma]. *)
Theorem reconstruct_rect_single_row
  (svd : svd_fn) (A U : ndarray) (s : list car) (VT : ndarray) :
  svd A = Ok (U, s, VT) -> svd_spec A U s VT ->
  shape0 A = 1%nat -> 1 < shape1 A ->
  exists B,
    cell_reconstruct_rect svd A = Ok (A, B) /\
    shape B = shape A /\
    forall j, j < shape1 A ->
      entry B 0 j
      = entry U 0 0 * (nth 0 s 0 * sum (shape1 A) (fun k => entry VT k j)) /\
      entry A 0 j = entry U 0 0 * (nth 0 s 0 * entry VT 0 j).
Proof.
  intros Hsvd Hspec Hm Hn.
  pose proof Hspec as (_ & HshU & _ & HshVT & Hlen & _ & _ & HA).
  apply shape_split in HshU, HshVT.
  destruct HshU as [HU0 HU1], HshVT as [HV0 HV1].
  assert (Hs : s = [nth 0 s 0]).
  { destruct s as [|x [|y s']]; simpl in Hlen; try lia. reflexivity. }
  set (x := nth 0 s 0) in *.
  exists (matmul U (matmul (tabulate 1 (shape1 A) (fun _ _ => x)) VT)).
  split; [|split].
  - unfold cell_reconstruct_rect. rewrite Hsvd. cbn [bind].
    rewrite Hs, Hm. rewrite setitem_zeros_diag_row by lia. cbn [bind].
    rewrite dot_aligned by (autorewrite with shapes; congruence). cbn [bind].
    rewrite dot_aligned by (autorewrite with shapes; congruence). reflexivity.
  - rewrite (shape_eta A). unfold matmul at 1. unfold tabulate at 1.
    cbn [shape]. autorewrite with shapes. congruence.
  - intros j Hj. split.
    + rewrite entry_matmul by (autorewrite with shapes; lia).
      rewrite HU1, Hm. cbn [sum].
      rewrite entry_matmul by (autorewrite with shapes; lia).
      autorewrite with shapes.
      rewrite sum_ext with (g := fun k => x * entry VT k j).
      * rewrite <- sum_scale_l. ring.
      * intros k Hk. rewrite entry_tabulate by lia. reflexivity.
    + rewrite HA at 1.
      rewrite entry_matmul by (autorewrite with shapes; lia).
      autorewrite with shapes.
      rewrite sum_single with (j := 0%nat); [|lia|].
      * rewrite entry_matmul by (autorewrite with shapes; lia).
        rewrite HU1, Hm. cbn [sum].
        rewrite entry_diag_embed by lia. cbn [Nat.eqb]. fold x. ring.
      * intros k Hk Hne.
        rewrite entry_matmul by (autorewrite with shapes; lia).
        rewrite HU1, Hm. cbn [sum].
        rewrite entry_diag_embed by lia.
        destruct k; [contradiction|]. cbn [Nat.eqb]. ring.
Qed.

(** Cell 14: [diag(s)] is min(m, n) square, so one of the two products is
    not aligned unless the matrix is square. *)
Theorem reconstruct_square_only_square
  (svd : svd_fn) (A U : ndarray) (s : list car) (VT : ndarray) :
  svd A = Ok (U, s, VT) -> svd_spec A U s VT ->
  (shape0 A = shape1 A -> cell_reconstruct_square svd A = Ok (A, A)) /\
  (shape0 A <> shape1 A -> cell_reconstruct_square svd A = Raise ValueError).
Proof.
  intros Hsvd Hspec. split.
  - apply (svd_reconstruction_general svd Hsvd Hspec).
  - intros Hne.
    destruct Hspec as (_ & HshU & _ & HshVT & Hlen & _).
    apply shape_split in HshU, HshVT.
    destruct HshU as [HU0 HU1], HshVT as [HV0 HV1].
    unfold cell_reconstruct_square. rewrite Hsvd. cbn [bind].
    unfold dot at 1. change (shape1 (diag s)) with (length s). rewrite HV0.
    destruct (Nat.eqb_spec (length s) (shape1 A)) as [E|E]; [|reflexivity].
    cbn [bind]. unfold dot. autorewrite with shapes.
    change (shape0 (diag s)) with (length s). rewrite HU1.
    destruct (Nat.eqb_spec (shape0 A) (length s)) as [E'|E']; [lia|reflexivity].
Qed.

(** Cell 29 on a matrix with more columns than rows, and more than one row:
    the reciprocals are taken, then the block assignment raises. *)
Theorem pinv_svd_wide_raises
  (svd : svd_fn) (A U : ndarray) (s : list car) (VT : ndarray) :
  svd A = Ok (U, s, VT) -> svd_spec A U s VT ->
  Forall (fun x => x <> 0) s ->
  1 < shape0 A -> shape0 A < shape1 A ->
  cell_pinv_svd svd A = Raise ValueError.
Proof.
  intros Hsvd (_ & _ & _ & _ & Hlen & _) Hnz H1 Hlt.
  destruct (proj2 (reciprocal_defined s) Hnz) as [d Hd].
  destruct (reciprocal_spec _ Hd) as [Hld _].
  unfold cell_pinv_svd. rewrite Hsvd. cbn [bind]. rewrite Hd. cbn [bind].
  rewrite (shape_eta A).
  rewrite setitem_zeros_diag_mismatch; [reflexivity|]. right.
  change (snd (shape0 A, shape1 A)) with (shape1 A). lia.
Qed.

(** Cell 37 on a matrix with more rows than columns, and more than one
    column: [Sigma[:m, :m]] is the whole m by n array, [diag(s)] is n by n. *)
Theorem reduce_tall_raises
  (svd : svd_fn) (k : nat) (A U : ndarray) (s : list car) (VT : ndarray) :
  svd A = Ok (U, s, VT) -> svd_spec A U s VT ->
  1 < shape1 A -> shape1 A < shape0 A ->
  cell_reduce svd k A = Raise ValueError.
Proof.
  intros Hsvd (_ & _ & _ & _ & Hlen & _) H1 Hlt.
  unfold cell_reduce. rewrite Hsvd. cbn [bind].
  rewrite setitem_zeros_diag_mismatch; [reflexivity|]. left. lia.
Qed.

(** Columns of [Sigma] beyond its diagonal add nothing to [Sigma.dot(VT)]. *)
Lemma matmul_upto_all (m n k : nat) (s : list car) (VT : ndarray) :
  shape VT = (n, n) -> m <= n -> m <= k ->
  matmul (cols_upto k (diag_embed m n s)) (rows_upto k VT)
  = matmul (diag_embed m n s) VT.
Proof.
  intros HshVT Hmn Hmk. apply shape_split in HshVT. destruct HshVT as [HV0 HV1].
  unfold matmul. autorewrite with shapes.
  apply tabulate_ext. intros i j Hi Hj.
  symmetry. rewrite sum_truncate with (k := Nat.min k n); [|lia|].
  - apply sum_ext. intros l Hl.
    rewrite entry_cols_upto by (autorewrite with shapes; lia).
    rewrite entry_rows_upto by lia. reflexivity.
  - intros l Hl1 Hl2. rewrite entry_diag_embed by lia.
    destruct (Nat.eqb_spec i l); [lia|ring].
Qed.

(** What cell 37 returns on a matrix with no more rows than columns. *)
Lemma cell_reduce_value
  (svd : svd_fn) (k : nat) (A U : ndarray) (s : list car) (VT : ndarray) :
  svd A = Ok (U, s, VT) -> svd_spec A U s VT -> shape0 A <= shape1 A ->
  cell_reduce svd k A
  = Ok (A,
        matmul U (matmul (cols_upto k (diag_embed (shape0 A) (shape1 A) s))
                         (rows_upto k VT)),
        matmul U (cols_upto k (diag_embed (shape0 A) (shape1 A) s)),
        matmul U (cols_upto k (diag_embed (shape0 A) (shape1 A) s))).
Proof.
  intros Hsvd Hspec Hle.
  pose proof (reduced_transforms_agree k Hspec) as Hagree.
  destruct Hspec as (_ & HshU & _ & HshVT & Hlen & _).
  pose proof (shape_split _ HshU) as [HU0 HU1].
  pose proof (shape_split _ HshVT) as [HV0 HV1].
  unfold cell_reduce. rewrite Hsvd. cbn [bind].
  rewrite setitem_zeros_diag by lia. cbn [bind].
  rewrite dot_aligned by (autorewrite with shapes; congruence).
  cbn [bind].
  rewrite dot_aligned by (autorewrite with shapes; exact HU1).
  cbn [bind].
  rewrite dot_aligned by (autorewrite with shapes; exact HU1).
  cbn [bind].
  rewrite dot_aligned by (autorewrite with shapes; congruence).
  cbn [bind]. rewrite <- Hagree. reflexivity.
Qed.

(** Cell 37, on a matrix with no more rows than columns: what it prints.
    The approximation [B] is the transform [T] times the rows kept of [VT];
    keeping as many elements as the matrix has rows gives back the matrix. *)
Theorem reduce_approximation
  (svd : svd_fn) (k : nat) (A U : ndarray) (s : list car) (VT : ndarray) :
  svd A = Ok (U, s, VT) -> svd_spec A U s VT -> shape0 A <= shape1 A ->
  exists B T,
    cell_reduce svd k A = Ok (A, B, T, T) /\
    shape B = shape A /\
    shape T = (shape0 A, Nat.min k (shape1 A)) /\
    B = matmul T (rows_upto k VT) /\
    (shape0 A <= k -> B = A).
Proof.
  intros Hsvd Hspec Hle.
  pose proof (cell_reduce_value svd k Hsvd Hspec Hle) as Hcell.
  pose proof (svd_reconstruct Hspec) as Hrec.
  destruct Hspec as (_ & HshU & _ & HshVT & Hlen & _).
  pose proof (shape_split _ HshU) as [HU0 HU1].
  pose proof (shape_split _ HshVT) as [HV0 HV1].
  set (S := diag_embed (shape0 A) (shape1 A) s) in *.
  exists (matmul U (matmul (cols_upto k S) (rows_upto k VT))).
  exists (matmul U (cols_upto k S)).
  split; [exact Hcell|]. split; [|split; [|split]].
  - rewrite (shape_eta A). unfold matmul at 1, tabulate at 1. cbn [shape].
    autorewrite with shapes. congruence.
  - unfold matmul, tabulate. cbn [shape]. unfold S. autorewrite with shapes.
    rewrite HU0. reflexivity.
  - symmetry. apply matmul_assoc.
    unfold S. autorewrite with shapes. exact HU1.
  - intros Hk. unfold S.
    rewrite (@matmul_upto_all (shape0 A) (shape1 A) k s VT HshVT Hle Hk).
    exact Hrec.
Qed.

(** Cell 37, keeping no more elements than the matrix has rows: the columns
    of the transform [T] are orthogonal, and [T.T.dot(T)] is the diagonal
    array of the squares of the singular values kept. *)
Theorem reduce_transform_orthogonal
  (svd : svd_fn) (k : nat) (A U : ndarray) (s : list car) (VT : ndarray) :
  svd A = Ok (U, s, VT) -> svd_spec A U s VT ->
  shape0 A <= shape1 A -> k <= shape0 A ->
  exists B T,
    cell_reduce svd k A = Ok (A, B, T, T) /\
    matmul (transpose T) T = diag_embed k k (vmul s s).
Proof.
  intros Hsvd Hspec Hle Hk.
  pose proof (cell_reduce_value svd k Hsvd Hspec Hle) as Hcell.
  destruct Hspec as (HwU & HshU & _ & HshVT & Hlen & HoU & _).
  pose proof (shape_split _ HshU) as [HU0 HU1].
  set (m := shape0 A) in *. set (n := shape1 A) in *.
  set (Sk := cols_upto k (diag_embed m n s)) in *.
  exists (matmul U (matmul Sk (rows_upto k VT))), (matmul U Sk).
  split; [exact Hcell|].
  assert (HSk0 : shape0 Sk = m) by (unfold Sk; autorewrite with shapes; reflexivity).
  assert (HSk1 : shape1 Sk = k) by (unfold Sk; autorewrite with shapes; lia).
  rewrite transpose_matmul by congruence.
  rewrite matmul_assoc by (autorewrite with shapes; congruence).
  rewrite (orthogonal_cancel_l (n := m)); try assumption;
    [|unfold Sk; apply wf_cols_upto].
  unfold matmul, diag_embed. autorewrite with shapes. rewrite HSk0, HSk1.
  apply tabulate_ext. intros i j Hi Hj.
  rewrite sum_single with (j := i); [|lia|].
  - rewrite entry_transpose by lia. unfold Sk.
    rewrite !entry_cols_upto by (autorewrite with shapes; lia).
    rewrite !entry_diag_embed by lia. rewrite Nat.eqb_refl.
    destruct (Nat.eqb_spec i j) as [->|Hne].
    + rewrite nth_vmul. reflexivity.
    + ring.
  - intros l Hl Hne. rewrite entry_transpose by lia. unfold Sk.
    rewrite entry_cols_upto by (autorewrite with shapes; lia).
    rewrite entry_diag_embed by lia.
    destruct (Nat.eqb_spec l i); [contradiction|ring].
Qed.

(** [V . D^T . U^T] times [U . Sigma . V^T], for reciprocal diagonals of a
    tall [Sigma], is the identity. *)
Lemma left_inverse_formula (m n : nat) (U VT : ndarray) (s d : list car) :
  wf U -> shape U = (m, m) -> orthogonal U ->
  wf VT -> shape VT = (n, n) -> orthogonal VT ->
  n <= m -> length s = n -> length d = n ->
  (forall i, i < n -> nth i s 0 * nth i d 0 = 1) ->
  matmul (matmul (matmul (transpose VT) (diag_embed n m d)) (transpose U))
         (matmul (matmul U (diag_embed m n s)) VT)
  = eye n.
Proof.
  intros HwU HshU HoU HwV HshV HoV Hnm Hls Hld Hinv.
  pose proof (shape_split _ HshU) as [HU0 HU1].
  pose proof (shape_split _ HshV) as [HV0 HV1].
  rewrite matmul_assoc by (autorewrite with shapes; lia).
  rewrite (matmul_assoc U) by (autorewrite with shapes; lia).
  rewrite (orthogonal_cancel_l (n := m))
    by (auto using wf_matmul; autorewrite with shapes; reflexivity).
  rewrite <- matmul_assoc by (autorewrite with shapes; lia).
  rewrite (matmul_assoc (transpose VT)) by (autorewrite with shapes; lia).
  rewrite matmul_diag_embed by lia.
  assert (E : diag_embed n n (vmul d s) = eye n).
  { unfold diag_embed, eye. apply tabulate_ext. intros i j Hi Hj.
    destruct (Nat.eqb_spec i j); [|reflexivity].
    rewrite nth_vmul. rewrite <- (Hinv i Hi). ring. }
  rewrite E.
  rewrite matmul_eye_r by (auto using wf_transpose; autorewrite with shapes; lia).
  destruct HoV as [HoV _]. rewrite HoV, HV0. reflexivity.
Qed.

(** Cell 29, on a matrix with no more columns than rows: no singular value
    is zero exactly when the columns are independent, and then the array [B]
    the cell prints is a left inverse, [B.dot(A)] is the identity. *)
Theorem pinv_svd_left_inverse
  (svd : svd_fn) (A U : ndarray) (s : list car) (VT : ndarray) :
  svd A = Ok (U, s, VT) -> svd_spec A U s VT -> shape1 A <= shape0 A ->
  (full_column_rank A <-> Forall (fun x => x <> 0) s) /\
  (Forall (fun x => x <> 0) s ->
   exists B, cell_pinv_svd svd A = Ok (A, B) /\ matmul B A = eye (shape1 A)).
Proof.
  intros Hsvd Hspec Hle.
  assert (Hinv : Forall (fun x => x <> 0) s ->
                 exists B, cell_pinv_svd svd A = Ok (A, B)
                           /\ shape1 B = shape0 A
                           /\ matmul B A = eye (shape1 A)).
  { intros Hnz.
    destruct (pinv_via_svd_general svd Hsvd Hspec) as [_ H].
    destruct (H Hnz) as (d & Hd & _ & _ & Hcell).
    destruct (Hcell Hle) as [Hc _].
    exists (pinv_formula A U d VT). split; [exact Hc|].
    destruct (reciprocal_spec _ Hd) as [Hld Hsd].
    destruct Hspec as (HwU & HshU & HwV & HshV & Hlen & HoU & HoV & HA).
    split; [unfold pinv_formula; autorewrite with shapes;
            apply (shape_split _ HshU)|].
    unfold pinv_formula. rewrite transpose_diag_embed.
    set (m := shape0 A) in *. set (n := shape1 A) in *.
    transitivity (matmul (matmul (matmul (transpose VT) (diag_embed n m d))
                                 (transpose U))
                         (matmul (matmul U (diag_embed m n s)) VT));
      [f_equal; exact HA|].
    apply left_inverse_formula; try assumption; try lia.
    intros i Hi. apply Hsd. lia. }
  split; [split|].
  - apply (full_column_rank_singular_values Hspec Hle).
  - intros Hnz. destruct (Hinv Hnz) as (B & _ & HshB & HBA).
    apply (left_inverse_full_column_rank (L := B)); assumption.
  - intros Hnz. destruct (Hinv Hnz) as (B & Hc & _ & HBA). exists B. tauto.
Qed.

End CellShapes.

(** *** The theorems on matrices with rational factors *)

(** The row [[3, 4]]: one singular value, 5.  Its factors are determined up
    to signs; these are [U = [[-1]]] and
    [VT = [[-0.6, -0.8], [-0.8, 0.6]]]. *)
Definition row_A : ndarray := array [[frac 3 1; frac 4 1]].

Definition row_U : ndarray := array [[frac (-1) 1]].

Definition row_VT : ndarray :=
  array [[frac (-3) 5; frac (-4) 5]; [frac (-4) 5; frac 3 5]].

Definition row_svd : svd_fn := fun _ => Ok (row_U, [frac 5 1], row_VT).

Lemma row_svd_spec : svd_spec row_A row_U [frac 5 1] row_VT.
Proof. apply svd_specb_sound. vm_compute. reflexivity. Qed.

Lemma reconstruct_rect_wide_raises_witness :
  svd_spec (transpose ex_A) (transpose ex_VT) ex_s (transpose ex_U) /\
  cell_reconstruct_rect ex_svd_T (transpose ex_A) = Raise ValueError.
Proof.
  split; [exact ex_svd_T_spec|].
  apply (reconstruct_rect_wide_raises ex_svd_T eq_refl ex_svd_T_spec);
    vm_compute; lia.
Defined.

(** From the row [[3, 4]] and these factors the cell makes the row
    [[7, 1]]. *)
Lemma reconstruct_rect_single_row_witness :
  svd_spec row_A row_U [frac 5 1] row_VT /\
  exists B, cell_reconstruct_rect row_svd row_A = Ok (row_A, B)
            /\ entry B 0 0 = frac 7 1 /\ entry B 0 1 = frac 1 1
            /\ entry row_A 0 0 = frac 3 1 /\ entry row_A 0 1 = frac 4 1.
Proof.
  split; [exact row_svd_spec|].
  destruct (reconstruct_rect_single_row row_svd eq_refl row_svd_spec)
    as (B & Hcell & _ & Hentries); [reflexivity|vm_compute; lia|].
  exists B. split; [exact Hcell|].
  destruct (Hentries 0) as [H0 _]; [vm_compute; lia|].
  destruct (Hentries 1) as [H1 _]; [vm_compute; lia|].
  rewrite H0, H1.
  repeat split; apply Qc_is_canon; vm_compute; reflexivity.
Defined.

Lemma reconstruct_square_only_square_witness :
  svd_spec ex_A ex_U ex_s ex_VT /\
  cell_reconstruct_square ex_svd ex_A = Raise ValueError.
Proof.
  split; [exact ex_svd_spec|].
  apply (proj2 (reconstruct_square_only_square ex_svd eq_refl ex_svd_spec)).
  vm_compute. lia.
Defined.

Lemma pinv_svd_wide_raises_witness :
  svd_spec (transpose ex_A) (transpose ex_VT) ex_s (transpose ex_U) /\
  Forall (fun x : Qc => x <> Q2Qc 0) ex_s /\
  cell_pinv_svd ex_svd_T (transpose ex_A) = Raise ValueError.
Proof.
  split; [exact ex_svd_T_spec|]. split; [exact ex_s_nonzero|].
  apply (pinv_svd_wide_raises ex_svd_T eq_refl ex_svd_T_spec ex_s_nonzero);
    vm_compute; lia.
Defined.

Lemma reduce_tall_raises_witness :
  svd_spec ex_A ex_U ex_s ex_VT /\
  cell_reduce ex_svd 1 ex_A = Raise ValueError.
Proof.
  split; [exact ex_svd_spec|].
  apply (reduce_tall_raises ex_svd 1 eq_refl ex_svd_spec); vm_compute; lia.
Defined.

(** Two elements kept of a matrix of two rows: the approximation is the
    matrix. *)
Lemma reduce_approximation_witness :
  svd_spec (transpose ex_A) (transpose ex_VT) ex_s (transpose ex_U) /\
  exists T,
    cell_reduce ex_svd_T 2 (transpose ex_A)
    = Ok (transpose ex_A, transpose ex_A, T, T) /\
    shape T = (2, 2) /\
    transpose ex_A = matmul T (rows_upto 2 (transpose ex_U)).
Proof.
  split; [exact ex_svd_T_spec|].
  destruct (reduce_approximation ex_svd_T 2 eq_refl ex_svd_T_spec)
    as (B & T & Hcell & _ & HshT & HB & HBA); [vm_compute; lia|].
  assert (E : B = transpose ex_A) by (apply HBA; vm_compute; lia).
  exists T. rewrite E in Hcell, HB.
  split; [exact Hcell|]. split; [exact HshT|exact HB].
Defined.

Lemma pinv_svd_left_inverse_witness :
  svd_spec ex_A ex_U ex_s ex_VT /\
  full_column_rank ex_A /\
  exists B, cell_pinv_svd ex_svd ex_A = Ok (ex_A, B)
            /\ matmul B ex_A = eye (shape1 ex_A).
Proof.
  split; [exact ex_svd_spec|].
  assert (Hle : shape1 ex_A <= shape0 ex_A) by (vm_compute; lia).
  destruct (pinv_svd_left_inverse ex_svd eq_refl ex_svd_spec Hle)
    as (Hrank & Hinv).
  split; [apply Hrank; exact ex_s_nonzero|].
  apply Hinv. exact ex_s_nonzero.
Defined.

Lemma reduce_transform_orthogonal_witness :
  svd_spec (transpose ex_A) (transpose ex_VT) ex_s (transpose ex_U) /\
  exists B T,
    cell_reduce ex_svd_T 1 (transpose ex_A) = Ok (transpose ex_A, B, T, T) /\
    matmul (transpose T) T = diag_embed 1 1 (vmul ex_s ex_s).
Proof.
  split; [exact ex_svd_T_spec|].
  apply (reduce_transform_orthogonal ex_svd_T (k := 1) eq_refl ex_svd_T_spec);
    vm_compute; lia.
Defined.

(** * Elementwise arithmetic of the tensor cells *)

(** The values an [int64] entry can hold. *)
Definition in_int64 (z : Z) : Prop := (- 2 ^ 63 <= z < 2 ^ 63)%Z.

(** Two tensors of one shape, with related entries at every index. *)
Definition entries_related (R : Z -> Z -> Prop) (A B : tensor3) : Prop :=
  Forall2 (Forall2 (Forall2 R)) A B.

(** Two tensors of one shape: as many matrices, rows and entries. *)
Definition same_shape3 (A B : tensor3) : Prop :=
  entries_related (fun _ _ => True) A B.

Definition all_entries (P : Z -> Prop) (T : tensor3) : Prop :=
  Forall (Forall (Forall P)) T.

(** The tensor of the shape of [T] whose entries are all [c]. *)
Definition full_like (c : Z) (T : tensor3) : tensor3 :=
  map (map (map (fun _ => c))) T.

(** Items at the same index combined by [h]. *)
Definition zip_with (A B C : Type) (h : A -> B -> C) (a : list A) (b : list B) : list C :=
  map (fun p => h (fst p) (snd p)) (combine a b).

Definition entrywise (h : Z -> Z -> Z) (A B : tensor3) : tensor3 :=
  zip_with (zip_with (zip_with h)) A B.

(** *** One axis *)

Lemma broadcast2_aligned (A B C : Type) (f : A -> B -> result C)
      (a : list A) (b : list B) :
  List.length a = List.length b -> broadcast2 f a b = map2_result f a b.
Proof.
  intros H. destruct a as [|x [|x' a']], b as [|y [|y' b']];
    try discriminate H; reflexivity.
Qed.

Lemma map2_result_comm (A B C : Type) (f : A -> B -> result C)
      (g : B -> A -> result C) (a : list A) (b : list B) :
  (forall x y, f x y = g y x) -> map2_result f a b = map2_result g b a.
Proof.
  intros H. revert b. induction a as [|x a IH]; intros [|y b]; try reflexivity.
  simpl. rewrite H, IH. reflexivity.
Qed.

Lemma broadcast2_comm (A B C : Type) (f : A -> B -> result C)
      (g : B -> A -> result C) (a : list A) (b : list B) :
  (forall x y, f x y = g y x) -> broadcast2 f a b = broadcast2 g b a.
Proof.
  intros H. unfold broadcast2.
  destruct a as [|x [|x' a']], b as [|y [|y' b']];
    apply map2_result_comm; exact H.
Qed.

Lemma Forall2_length_eq (A B : Type) (R : A -> B -> Prop) (a : list A) (b : list B) :
  Forall2 R a b -> List.length a = List.length b.
Proof. induction 1; simpl; congruence. Qed.

(** An axis on which every pair of items is combined without error. *)
Lemma broadcast2_zip (A B C : Type) (f : A -> B -> result C) (h : A -> B -> C)
      (R : A -> B -> Prop) (a : list A) (b : list B) :
  (forall x y, R x y -> f x y = Ok (h x y)) -> Forall2 R a b ->
  broadcast2 f a b = Ok (zip_with h a b).
Proof.
  intros Hf H. rewrite broadcast2_aligned by (apply (Forall2_length_eq H)).
  induction H as [|x y a b Hxy Hab IH]; [reflexivity|].
  simpl. rewrite (Hf x y Hxy), IH. reflexivity.
Qed.

Lemma Forall2_zip_with_r (A B C : Type) (h : A -> B -> C) (R : A -> B -> Prop)
      (R' : A -> C -> Prop) (a : list A) (b : list B) :
  (forall x y, R x y -> R' x (h x y)) -> Forall2 R a b ->
  Forall2 R' a (zip_with h a b).
Proof.
  intros Hh H. induction H as [|x y a b Hxy Hab IH]; [constructor|].
  constructor; [apply Hh; exact Hxy|exact IH].
Qed.



Lemma Forall2_and_r (A B : Type) (R : A -> B -> Prop) (P : B -> Prop)
      (a : list A) (b : list B) :
  Forall2 R a b -> Forall P b -> Forall2 (fun x y => R x y /\ P y) a b.
Proof.
  intros H. induction H as [|x y a b Hxy Hab IH]; intros HP; [constructor|].
  inversion HP; subst. constructor; [split; assumption|apply IH; assumption].
Qed.


(** An operand against itself. *)
Lemma broadcast2_self (A C : Type) (f : A -> A -> result C) (g : A -> C) (a : list A) :
  Forall (fun x => f x x = Ok (g x)) a -> broadcast2 f a a = Ok (map g a).
Proof.
  intros H. rewrite broadcast2_aligned by reflexivity.
  induction H as [|x a Hx Ha IH]; [reflexivity|].
  simpl. rewrite Hx, IH. reflexivity.
Qed.

(** An operand against a single item, which is repeated. *)
Lemma map2_result_repeat (A B C : Type) (f : A -> B -> result C) (g : A -> C)
      (a : list A) (y : B) :
  Forall (fun x => f x y = Ok (g x)) a ->
  map2_result f a (repeat y (List.length a)) = Ok (map g a).
Proof.
  intros H. induction H as [|x a Hx Ha IH]; [reflexivity|].
  simpl. rewrite Hx, IH. reflexivity.
Qed.

Lemma broadcast2_single (A B C : Type) (f : A -> B -> result C) (g : A -> C)
      (a : list A) (y : B) :
  Forall (fun x => f x y = Ok (g x)) a -> broadcast2 f a [y] = Ok (map g a).
Proof.
  intros H. destruct a as [|x [|x' a']].
  - reflexivity.
  - inversion H; subst. simpl.
    match goal with E : f x y = _ |- _ => rewrite E end. reflexivity.
  - apply (@map2_result_repeat _ _ _ f g (x :: x' :: a') y H).
Qed.

(** The errors of an axis are those of its items, or [ValueError]. *)
Lemma map2_result_raises (A B C : Type) (f : A -> B -> result C) (P : exn -> Prop)
      (a : list A) (b : list B) (e : exn) :
  P ValueError ->
  (forall x y e', In x a -> In y b -> f x y = Raise e' -> P e') ->
  map2_result f a b = Raise e -> P e.
Proof.
  intros HV. revert b. induction a as [|x a IH]; intros [|y b] Hf H; simpl in H;
    try discriminate H; try (injection H as <-; exact HV).
  destruct (f x y) as [z|e'] eqn:E; simpl in H.
  - destruct (map2_result f a b) as [r|e''] eqn:E'; simpl in H; [discriminate H|].
    injection H as <-. apply (IH b); [|exact E'].
    intros x0 y0 e0 Hx Hy. apply Hf; right; assumption.
  - injection H as <-. apply (Hf x y); [left; reflexivity|left; reflexivity|exact E].
Qed.

Lemma broadcast2_raises (A B C : Type) (f : A -> B -> result C) (P : exn -> Prop)
      (a : list A) (b : list B) (e : exn) :
  P ValueError ->
  (forall x y e', In x a -> In y b -> f x y = Raise e' -> P e') ->
  broadcast2 f a b = Raise e -> P e.
Proof.
  intros HV Hf. unfold broadcast2.
  assert (Hrep : forall (T : Type) (z y : T) n, In z (repeat y n) -> z = y).
  { intros T z y n Hz. apply (repeat_spec n y z Hz). }
  destruct a as [|x [|x' a']], b as [|y [|y' b']]; intros H;
    (eapply map2_result_raises; [exact HV| |exact H]);
    intros x0 y0 e0 Hx Hy; apply Hf;
    try assumption;
    try (apply Hrep in Hx; subst x0; left; reflexivity);
    try (apply Hrep in Hy; subst y0; left; reflexivity).
Qed.

Lemma map2_result_mismatch (A B C : Type) (f : A -> B -> result C)
      (a : list A) (b : list B) :
  List.length a <> List.length b -> exists e, map2_result f a b = Raise e.
Proof.
  revert b. induction a as [|x a IH]; intros [|y b] H; simpl in *;
    try (exfalso; apply H; reflexivity); try (eexists; reflexivity).
  destruct (f x y) as [z|e]; simpl; [|eexists; reflexivity].
  destruct (IH b) as [e He]; [congruence|]. rewrite He. eexists. reflexivity.
Qed.

Lemma broadcast2_mismatch (A B C : Type) (f : A -> B -> result C)
      (a : list A) (b : list B) :
  List.length a <> List.length b ->
  List.length a <> 1%nat -> List.length b <> 1%nat ->
  exists e, broadcast2 f a b = Raise e.
Proof.
  intros H Ha Hb. unfold broadcast2.
  destruct a as [|x [|x' a']], b as [|y [|y' b']];
    try (exfalso; apply Ha; reflexivity); try (exfalso; apply Hb; reflexivity);
    apply map2_result_mismatch; exact H.
Qed.

(** *** Machine integers *)

Lemma int64_small (z : Z) : in_int64 z -> int64 z = z.
Proof.
  unfold in_int64, int64. intros H.
  rewrite Z.mod_small by lia. lia.
Qed.





(** *** Three axes *)

Lemma elementwise_zip (f : Z -> Z -> result Z) (h : Z -> Z -> Z)
      (R : Z -> Z -> Prop) (A B : tensor3) :
  (forall x y, R x y -> f x y = Ok (h x y)) -> entries_related R A B ->
  elementwise f A B = Ok (entrywise h A B).
Proof.
  intros Hf H. unfold elementwise, entrywise.
  apply broadcast2_zip with (R := Forall2 (Forall2 R)); [|exact H].
  intros M N HMN. apply broadcast2_zip with (R := Forall2 R); [|exact HMN].
  intros a b Hab. apply broadcast2_zip with (R := R); assumption.
Qed.


Lemma entries_related_entrywise_r (h : Z -> Z -> Z) (R R' : Z -> Z -> Prop)
      (A B : tensor3) :
  (forall x y, R x y -> R' x (h x y)) -> entries_related R A B ->
  entries_related R' A (entrywise h A B).
Proof.
  intros Hh H. unfold entries_related, entrywise in *.
  apply Forall2_zip_with_r with (R := Forall2 (Forall2 R)); [|exact H].
  intros M N HMN. apply Forall2_zip_with_r with (R := Forall2 R); [|exact HMN].
  intros a b Hab. apply Forall2_zip_with_r with (R := R); assumption.
Qed.



Lemma entries_related_and_r (R : Z -> Z -> Prop) (P : Z -> Prop) (A B : tensor3) :
  entries_related R A B -> all_entries P B ->
  entries_related (fun x y => R x y /\ P y) A B.
Proof.
  unfold entries_related, all_entries. intros H HP.
  eapply Forall2_impl; [|apply (Forall2_and_r H HP)].
  intros M N [HMN HN].
  eapply Forall2_impl; [|apply (Forall2_and_r HMN HN)].
  intros a b [Hab Hb]. apply (Forall2_and_r Hab Hb).
Qed.


Lemma elementwise_comm (f g : Z -> Z -> result Z) (A B : tensor3) :
  (forall x y, f x y = g y x) -> elementwise f A B = elementwise g B A.
Proof.
  intros H. unfold elementwise.
  apply broadcast2_comm. intros M N.
  apply broadcast2_comm. intros a b.
  apply broadcast2_comm. exact H.
Qed.

Lemma elementwise_self (f : Z -> Z -> result Z) (c : Z) (P : Z -> Prop) (A : tensor3) :
  (forall x, P x -> f x x = Ok c) -> all_entries P A ->
  elementwise f A A = Ok (full_like c A).
Proof.
  intros Hf H. unfold elementwise, full_like, all_entries in *.
  apply broadcast2_self. eapply Forall_impl; [|exact H]. intros M HM.
  apply broadcast2_self. eapply Forall_impl; [|exact HM]. intros a Ha.
  apply broadcast2_self. eapply Forall_impl; [|exact Ha]. exact Hf.
Qed.

Lemma elementwise_raises (f : Z -> Z -> result Z) (P : exn -> Prop) (Q : Z -> Prop)
      (A B : tensor3) (e : exn) :
  P ValueError ->
  (forall x y e', Q y -> f x y = Raise e' -> P e') ->
  all_entries Q B ->
  elementwise f A B = Raise e -> P e.
Proof.
  intros HV Hf HB. unfold elementwise, all_entries in *.
  apply broadcast2_raises; [exact HV|].
  intros M N e1 _ HN. rewrite Forall_forall in HB. specialize (HB N HN).
  apply broadcast2_raises; [exact HV|].
  intros a b e2 _ Hb. rewrite Forall_forall in HB. specialize (HB b Hb).
  apply broadcast2_raises; [exact HV|].
  intros x y e3 _ Hy. rewrite Forall_forall in HB. apply Hf. apply HB. exact Hy.
Qed.

Lemma tensor_add_same_shape (A B : tensor3) :
  same_shape3 A B -> tensor_add A B = Ok (entrywise (fun x y => int64 (x + y)) A B).
Proof.
  intros H. unfold tensor_add.
  apply elementwise_zip with (R := fun _ _ => True); [reflexivity|exact H].
Qed.

Lemma tensor_sub_same_shape (A B : tensor3) :
  same_shape3 A B -> tensor_sub A B = Ok (entrywise (fun x y => int64 (x - y)) A B).
Proof.
  intros H. unfold tensor_sub.
  apply elementwise_zip with (R := fun _ _ => True); [reflexivity|exact H].
Qed.

Lemma tensor_mul_same_shape (A B : tensor3) :
  same_shape3 A B -> tensor_mul A B = Ok (entrywise (fun x y => int64 (x * y)) A B).
Proof.
  intros H. unfold tensor_mul.
  apply elementwise_zip with (R := fun _ _ => True); [reflexivity|exact H].
Qed.

Lemma tensor_div_same_shape (A B : tensor3) :
  same_shape3 A B -> all_entries (fun y => y <> 0%Z) B ->
  tensor_div A B = Ok (entrywise (fun x y => int64 (x / y)) A B).
Proof.
  intros H HB. unfold tensor_div.
  apply elementwise_zip with (R := fun _ y => True /\ y <> 0%Z);
    [|apply entries_related_and_r; assumption].
  intros x y [_ Hy]. apply Z.eqb_neq in Hy. rewrite Hy. reflexivity.
Qed.


(** *** The cells *)

(** On two tensors of one shape with [int64] entries the four cells raise
    nothing and print the tensor of that shape whose entries are the sums,
    differences and products of the entries, wrapped to 64 bits, and the
    floor quotients: the division given that no divisor is zero and that
    every quotient fits 64 bits, which leaves out the smallest [int64]
    divided by -1. *)
Theorem elementwise_cells_same_shape (A B : tensor3) :
  same_shape3 A B ->
  all_entries in_int64 A -> all_entries in_int64 B ->
  cell_tensor_addition A B = Ok (entrywise (fun x y => int64 (x + y)) A B) /\
  cell_tensor_subtraction A B = Ok (entrywise (fun x y => int64 (x - y)) A B) /\
  cell_tensor_hadamard A B = Ok (entrywise (fun x y => int64 (x * y)) A B) /\
  (entries_related (fun x y => y <> 0%Z /\ in_int64 (x / y)) A B ->
   cell_tensor_division A B = Ok (entrywise Z.div A B)) /\
  (forall h, same_shape3 A (entrywise h A B)).
Proof.
  intros H _ _.
  unfold cell_tensor_addition, cell_tensor_subtraction, cell_tensor_hadamard,
    cell_tensor_division.
  rewrite (tensor_add_same_shape H), (tensor_sub_same_shape H),
    (tensor_mul_same_shape H).
  repeat split.
  - intros HB. unfold tensor_div.
    rewrite (@elementwise_zip _ Z.div
               (fun x y => y <> 0%Z /\ in_int64 (x / y)) A B); [reflexivity| |exact HB].
    intros x y [Hy Hq]. apply Z.eqb_neq in Hy. rewrite Hy.
    rewrite (int64_small Hq). reflexivity.
  - intros h. apply entries_related_entrywise_r with (R := fun _ _ => True);
      [trivial|exact H].
Qed.

(** Addition and the Hadamard product commute, whatever the operands:
    also where an operand is broadcast, and where the cell raises. *)
Theorem tensor_addition_commutes (A B : tensor3) :
  cell_tensor_addition A B = cell_tensor_addition B A /\
  cell_tensor_hadamard A B = cell_tensor_hadamard B A.
Proof.
  unfold cell_tensor_addition, cell_tensor_hadamard, tensor_add, tensor_mul.
  split; f_equal; apply elementwise_comm; intros x y; f_equal; f_equal; ring.
Qed.



Lemma all_entries_True (A : tensor3) : all_entries (fun _ => True) A.
Proof.
  unfold all_entries. apply Forall_forall. intros M _.
  apply Forall_forall. intros a _. apply Forall_forall. trivial.
Qed.

(** The notebook subtracts a tensor from itself and divides it by itself.
    For every tensor the subtraction cell then prints zeros; the division
    cell prints ones, when the tensor has no zero entry. *)
Theorem tensor_cells_equal_operands (A : tensor3) :
  cell_tensor_subtraction A A = Ok (full_like 0 A) /\
  (all_entries (fun x => x <> 0%Z) A ->
   cell_tensor_division A A = Ok (full_like 1 A)).
Proof.
  unfold cell_tensor_subtraction, cell_tensor_division, tensor_sub, tensor_div.
  split.
  - rewrite elementwise_self with (c := 0%Z) (P := fun _ => True);
      [reflexivity| |apply all_entries_True].
    intros x _. rewrite Z.sub_diag. reflexivity.
  - intros HA.
    rewrite elementwise_self with (c := 1%Z) (P := fun x => x <> 0%Z);
      [reflexivity| |exact HA].
    intros x Hx. rewrite (proj2 (Z.eqb_neq x 0) Hx).
    rewrite Z.div_same by exact Hx. reflexivity.
Qed.

Lemma bind_Ok (A : Type) (r : result A) : (x <- r ;; Ok x) = r.
Proof. destruct r; reflexivity. Qed.

(** The errors of the four cells.  Addition, subtraction and the Hadamard
    product raise nothing but [ValueError], and raise it when the tensors
    differ in the number of matrices and neither has just one.  The division
    raises nothing but [ValueError] when the divisor has no zero entry. *)
Theorem elementwise_cells_errors (A B : tensor3) :
  (forall e, cell_tensor_addition A B = Raise e -> e = ValueError) /\
  (forall e, cell_tensor_subtraction A B = Raise e -> e = ValueError) /\
  (forall e, cell_tensor_hadamard A B = Raise e -> e = ValueError) /\
  (all_entries (fun y => y <> 0%Z) B ->
   forall e, cell_tensor_division A B = Raise e -> e = ValueError) /\
  (List.length A <> List.length B ->
   List.length A <> 1%nat -> List.length B <> 1%nat ->
   cell_tensor_addition A B = Raise ValueError /\
   cell_tensor_subtraction A B = Raise ValueError /\
   cell_tensor_hadamard A B = Raise ValueError).
Proof.
  unfold cell_tensor_addition, cell_tensor_subtraction, cell_tensor_hadamard,
    cell_tensor_division.
  rewrite !bind_Ok.
  assert (Hnone : forall (h : Z -> Z -> Z) e,
             elementwise (fun x y => Ok (h x y)) A B = Raise e -> e = ValueError).
  { intros h e He.
    apply (@elementwise_raises (fun x y => Ok (h x y)) (fun e => e = ValueError)
                               (fun _ => True) A B e);
      [reflexivity| |apply all_entries_True|exact He].
    intros x y e' _ E. discriminate E. }
  split; [apply Hnone|]. split; [apply Hnone|]. split; [apply Hnone|].
  split.
  - intros HB e He. unfold tensor_div in He.
    eapply elementwise_raises
      with (P := fun e => e = ValueError) (Q := fun y => y <> 0%Z);
      [| | |exact He]; [reflexivity| |exact HB].
    intros x y e' Hy E. cbv beta in E.
    rewrite (proj2 (Z.eqb_neq y 0) Hy) in E. discriminate E.
  - intros Hlen HA HB.
    assert (Hraise : forall h : Z -> Z -> Z,
               elementwise (fun x y => Ok (h x y)) A B = Raise ValueError).
    { intros h.
      destruct (broadcast2_mismatch
                  (broadcast2 (broadcast2 (fun x y => Ok (h x y)))) A B Hlen HA HB)
        as [e He].
      unfold elementwise. rewrite He. rewrite (Hnone h e He). reflexivity. }
    unfold tensor_add, tensor_sub, tensor_mul. repeat split; apply Hraise.
Qed.

Lemma elementwise_single (f : Z -> Z -> result Z) (g : Z -> Z) (c : Z) (A : tensor3) :
  (forall x, f x c = Ok (g x)) ->
  elementwise f A [[[c]]] = Ok (map (map (map g)) A).
Proof.
  intros Hf. unfold elementwise.
  apply broadcast2_single. apply Forall_forall. intros M _.
  apply broadcast2_single. apply Forall_forall. intros a _.
  apply broadcast2_single. apply Forall_forall. intros x _. apply Hf.
Qed.

Lemma elementwise_single_on (f : Z -> Z -> result Z) (g : Z -> Z) (c : Z)
      (A : tensor3) :
  all_entries (fun x => f x c = Ok (g x)) A ->
  elementwise f A [[[c]]] = Ok (map (map (map g)) A).
Proof.
  intros Hf. unfold elementwise.
  apply broadcast2_single. apply Forall_forall. intros M HM.
  unfold all_entries in Hf. rewrite Forall_forall in Hf. specialize (Hf M HM).
  apply broadcast2_single. apply Forall_forall. intros a Ha.
  rewrite Forall_forall in Hf. specialize (Hf a Ha).
  apply broadcast2_single. exact Hf.
Qed.

(** A tensor of a single entry is broadcast: on [int64] entries the cells
    combine every entry of the other tensor with it, whatever the shape of
    that tensor.  The sums, differences and products wrap to 64 bits; the
    division gives the floor quotients when the divisor is not zero and
    every quotient fits 64 bits. *)
Theorem tensor_cells_broadcast_scalar (A : tensor3) (c : Z) :
  all_entries in_int64 A -> in_int64 c ->
  cell_tensor_addition A [[[c]]] = Ok (map (map (map (fun x => int64 (x + c)))) A) /\
  cell_tensor_subtraction A [[[c]]] = Ok (map (map (map (fun x => int64 (x - c)))) A) /\
  cell_tensor_hadamard A [[[c]]] = Ok (map (map (map (fun x => int64 (x * c)))) A) /\
  (c <> 0%Z -> all_entries (fun x => in_int64 (x / c)) A ->
   cell_tensor_division A [[[c]]] = Ok (map (map (map (fun x => (x / c)%Z))) A)).
Proof.
  intros _ _.
  unfold cell_tensor_addition, cell_tensor_subtraction, cell_tensor_hadamard,
    cell_tensor_division, tensor_add, tensor_sub, tensor_mul, tensor_div.
  rewrite !bind_Ok.
  repeat split; try (apply elementwise_single; reflexivity).
  intros Hc Hq. rewrite elementwise_single_on with (g := fun x => (x / c)%Z);
    [reflexivity|].
  unfold all_entries in *.
  eapply Forall_impl; [|exact Hq]. intros M HM.
  eapply Forall_impl; [|exact HM]. intros a Ha.
  eapply Forall_impl; [|exact Ha]. intros x Hx. cbv beta in *.
  rewrite (proj2 (Z.eqb_neq c 0) Hc). rewrite (int64_small Hx). reflexivity.
Qed.

Lemma nth_map_lt (A B : Type) (f : A -> B) (l : list A) (d : A) (d' : B) (i : nat) :
  i < List.length l -> nth i (map f l) d' = f (nth i l d).
Proof.
  revert i. induction l as [|x l IH]; intros [|i] H; simpl in *; try lia.
  - reflexivity.
  - apply IH. lia.
Qed.

Lemma nth_tensordot0 (X Y : tensor1) (i j : nat) :
  nth j (nth i (tensordot0 X Y) []) 0%Z
  = if (i <? List.length X)%nat && (j <? List.length Y)%nat
    then int64 (nth i X 0%Z * nth j Y 0%Z) else 0%Z.
Proof.
  unfold tensordot0.
  destruct (Nat.ltb_spec i (List.length X)) as [Hi|Hi]; cbn [andb].
  - rewrite nth_map_lt with (d := 0%Z) by exact Hi.
    destruct (Nat.ltb_spec j (List.length Y)) as [Hj|Hj].
    + rewrite nth_map_lt with (d := 0%Z) by exact Hj. reflexivity.
    + apply nth_overflow. rewrite length_map. exact Hj.
  - rewrite (nth_overflow (map _ X)) by (rewrite length_map; exact Hi).
    destruct j; reflexivity.
Qed.

Lemma map2_result_repeat_l (A B C : Type) (f : A -> B -> result C) (g : B -> C)
      (x : A) (b : list B) :
  (forall y, f x y = Ok (g y)) ->
  map2_result f (repeat x (List.length b)) b = Ok (map g b).
Proof.
  intros H. induction b as [|y b IH]; [reflexivity|].
  simpl. rewrite H, IH. reflexivity.
Qed.

(** [A[:, newaxis]]: a vector as a column. *)
Definition column (A : tensor1) : tensor2 := map (fun a => [a]) A.

(** The tensor product of two vectors.  It has a row for each entry of [A]
    and a column for each entry of [B]; exchanging the vectors transposes
    it; and it is the Hadamard product of [A] as a column with [B] as a row,
    broadcast against each other. *)
Theorem tensor_product_outer (A B : tensor1) :
  (exists C, cell_tensor_product A B = Ok C /\
             List.length C = List.length A /\
             Forall (fun row => List.length row = List.length B) C) /\
  (forall i j, nth j (nth i (tensordot0 A B) []) 0%Z
               = nth i (nth j (tensordot0 B A) []) 0%Z) /\
  cell_tensor_hadamard [column A] [[B]] = Ok [tensordot0 A B].
Proof.
  split; [|split].
  - exists (tensordot0 A B). split; [reflexivity|]. unfold tensordot0.
    split; [apply length_map|].
    apply Forall_forall. intros row Hrow. apply in_map_iff in Hrow.
    destruct Hrow as (a & <- & _). apply length_map.
  - intros i j. rewrite !nth_tensordot0. rewrite andb_comm.
    rewrite Z.mul_comm. reflexivity.
  - unfold cell_tensor_hadamard, tensor_mul. rewrite bind_Ok.
    unfold elementwise. cbn [broadcast2 repeat List.length map2_result bind].
    assert (H : broadcast2 (broadcast2 (fun x y => Ok (int64 (x * y)))) (column A) [B]
                = Ok (tensordot0 A B)).
    { rewrite broadcast2_single
        with (g := fun r : tensor1 => map (fun b => int64 (hd 0%Z r * b)) B).
      - unfold column, tensordot0. rewrite map_map. reflexivity.
      - apply Forall_forall. intros r Hr.
        apply in_map_iff in Hr. destruct Hr as (a & <- & _).
        unfold broadcast2. cbn [hd].
        apply (@map2_result_repeat_l _ _ _ (fun x y => Ok (int64 (x * y)))
                                     (fun y => int64 (a * y)) a B).
        reflexivity. }
    rewrite H. reflexivity.
Qed.

(** *** The theorems on concrete tensors *)

Lemma elementwise_cells_same_shape_witness :
  same_shape3 [[[1; 2]; [3; 4]]]%Z [[[10; 20]; [30; 40]]]%Z /\
  all_entries in_int64 [[[1; 2]; [3; 4]]]%Z /\
  all_entries in_int64 [[[10; 20]; [30; 40]]]%Z /\
  cell_tensor_addition [[[1; 2]; [3; 4]]]%Z [[[10; 20]; [30; 40]]]%Z
  = Ok [[[11; 22]; [33; 44]]]%Z /\
  cell_tensor_division [[[1; 2]; [3; 4]]]%Z [[[10; 20]; [30; 40]]]%Z
  = Ok [[[0; 0]; [0; 0]]]%Z.
Proof.
  assert (H : same_shape3 [[[1; 2]; [3; 4]]]%Z [[[10; 20]; [30; 40]]]%Z)
    by (repeat constructor).
  assert (HA : all_entries in_int64 [[[1; 2]; [3; 4]]]%Z)
    by (repeat constructor; unfold in_int64; lia).
  assert (HB : all_entries in_int64 [[[10; 20]; [30; 40]]]%Z)
    by (repeat constructor; unfold in_int64; lia).
  split; [exact H|]. split; [exact HA|]. split; [exact HB|].
  destruct (elementwise_cells_same_shape H HA HB) as (Hadd & _ & _ & Hdiv & _).
  split; [exact Hadd|]. apply Hdiv.
  repeat first [apply Forall2_nil | apply Forall2_cons];
    (split; [intros E; discriminate E|]);
    unfold in_int64; vm_compute; (split; [intros E; discriminate E|reflexivity]).
Defined.



Lemma tensor_cells_equal_operands_witness :
  all_entries (fun x => x <> 0%Z) tensor_T /\
  cell_tensor_subtraction tensor_T tensor_T = Ok (full_like 0 tensor_T) /\
  cell_tensor_division tensor_T tensor_T = Ok (full_like 1 tensor_T).
Proof.
  assert (H : all_entries (fun x => x <> 0%Z) tensor_T).
  { repeat constructor; intros E; discriminate E. }
  split; [exact H|].
  destruct (tensor_cells_equal_operands tensor_T) as [Hsub Hdiv].
  split; [exact Hsub|]. apply Hdiv. exact H.
Defined.

(** Two matrices against three: no broadcast, [ValueError]. *)
Lemma elementwise_cells_errors_witness :
  cell_tensor_addition [[[1]]; [[2]]]%Z [[[1]]; [[2]]; [[3]]]%Z = Raise ValueError.
Proof.
  destruct (elementwise_cells_errors [[[1]]; [[2]]]%Z [[[1]]; [[2]]; [[3]]]%Z)
    as (_ & _ & _ & _ & H).
  apply H; simpl; lia.
Defined.

Lemma tensor_cells_broadcast_scalar_witness :
  all_entries in_int64 tensor_T /\ in_int64 2 /\
  cell_tensor_division tensor_T [[[2]]]%Z
  = Ok (map (map (map (fun x => (x / 2)%Z))) tensor_T).
Proof.
  assert (HT : all_entries in_int64 tensor_T)
    by (repeat constructor; unfold in_int64; lia).
  assert (H2 : in_int64 2) by (unfold in_int64; lia).
  split; [exact HT|]. split; [exact H2|].
  destruct (tensor_cells_broadcast_scalar HT H2) as (_ & _ & _ & H).
  apply H; [intros E; discriminate E|].
  repeat first [apply Forall_nil | apply Forall_cons];
    unfold in_int64; vm_compute; (split; [intros E; discriminate E|reflexivity]).
Defined.

(** * The searches of the tuning notebook

    [GridSearchCV] scores every value of the grid, [RandomizedSearchCV]
    every sampled value; both keep the first candidate of highest score. *)

(** Cell 1, "Grid Search for Algorithm Tuning": [best_score_] and
    [best_estimator_.alpha] for the grid [alphas]; an empty grid is refused. *)
Definition cell_grid_search (score : Qc -> Qc) (alphas : list Qc) : option (Qc * Qc) :=
  match alphas with
  | [] => None
  | a :: rest => Some (best_candidate score (score a, a) rest)
  end.

(** [np.array([1, 0.1, 0.01, 0.001, 0.0001, 0])] *)
Definition grid_alphas : list Qc :=
  [frac 1 1; frac 1 10; frac 1 100; frac 1 1000; frac 1 10000; frac 0 1].

Lemma Qc_leb_le (x y : Qc) : Qc_leb x y = true <-> (x <= y)%Qc.
Proof. unfold Qc_leb, Qcle. apply Qle_bool_iff. Qed.

Lemma Qc_leb_gt (x y : Qc) : Qc_leb x y = false <-> (y < x)%Qc.
Proof.
  split.
  - intros H. apply Qcnot_le_lt. intros Hle. apply Qc_leb_le in Hle. congruence.
  - intros H. destruct (Qc_leb x y) eqn:E; [|reflexivity].
    apply Qc_leb_le in E. exfalso. apply (Qclt_not_le _ _ H E).
Qed.

(** [best_candidate], started at candidate [a0] and run over [l], returns
    the first candidate of [a0 :: l] that no candidate beats: every earlier
    one scores less, no later one scores more. *)
Lemma best_candidate_first_best (score : Qc -> Qc) (a0 : Qc) (l : list Qc) :
  exists pre b post,
    a0 :: l = (pre ++ b :: post)%list /\
    best_candidate score (score a0, a0) l = (score b, b) /\
    Forall (fun x => (score x < score b)%Qc) pre /\
    Forall (fun x => (score x <= score b)%Qc) post.
Proof.
  revert a0. induction l as [|a l IH]; intros a0.
  - exists [], a0, []. repeat split; constructor.
  - cbn [best_candidate fst]. destruct (Qc_leb (score a) (score a0)) eqn:E.
    + apply Qc_leb_le in E.
      destruct (IH a0) as (pre & b & post & Hsplit & Hbest & Hpre & Hpost).
      destruct pre as [|p pre].
      * injection Hsplit as <- <-.
        exists [], a0, (a :: l). repeat split; try constructor; assumption.
      * injection Hsplit as <- ->.
        exists (a0 :: a :: pre), b, post.
        inversion Hpre as [|? ? Hp Hpre']; subst.
        repeat split; try assumption.
        constructor; [exact Hp|]. constructor; [|exact Hpre'].
        apply Qcle_lt_trans with (score a0); assumption.
    + apply Qc_leb_gt in E.
      destruct (IH a) as (pre & b & post & Hsplit & Hbest & Hpre & Hpost).
      exists (a0 :: pre), b, post.
      split; [simpl; rewrite Hsplit; reflexivity|]. split; [exact Hbest|].
      split; [|exact Hpost]. constructor; [|exact Hpre].
      destruct pre as [|p pre].
      * injection Hsplit as -> _. exact E.
      * injection Hsplit as <- _. inversion Hpre; subst.
        apply Qclt_trans with (score a); assumption.
Qed.

(** The grid search prints a value of the grid that no value of the grid
    beats, the first such in the order of the grid, with its score; an empty
    grid gives nothing. *)
Theorem grid_search_first_best (score : Qc -> Qc) (alphas : list Qc) :
  (alphas = [] -> cell_grid_search score alphas = None) /\
  (alphas <> [] ->
   exists pre b post,
     alphas = (pre ++ b :: post)%list /\
     cell_grid_search score alphas = Some (score b, b) /\
     Forall (fun a => (score a < score b)%Qc) pre /\
     Forall (fun a => (score a <= score b)%Qc) post /\
     (forall a, In a alphas -> (score a <= score b)%Qc)).
Proof.
  split; [intros ->; reflexivity|].
  intros Hne. destruct alphas as [|a0 l]; [contradiction|].
  destruct (best_candidate_first_best score a0 l)
    as (pre & b & post & Hsplit & Hbest & Hpre & Hpost).
  exists pre, b, post. split; [exact Hsplit|].
  split; [unfold cell_grid_search; rewrite Hbest; reflexivity|].
  split; [exact Hpre|]. split; [exact Hpost|].
  intros a Ha. rewrite Hsplit in Ha. apply in_app_or in Ha.
  rewrite Forall_forall in Hpre, Hpost.
  destruct Ha as [Ha|[<-|Ha]].
  - apply Qclt_le_weak. apply Hpre. exact Ha.
  - apply Qcle_refl.
  - apply Hpost. exact Ha.
Qed.

Lemma sample_alphas_length (n : nat) (g : draws) : List.length (sample_alphas n g) = n.
Proof. unfold sample_alphas. rewrite length_map, length_seq. reflexivity. Qed.

Lemma sample_alphas_nth (n : nat) (g : draws) (i : nat) (d : Qc) :
  i < n -> nth i (sample_alphas n g) d = g i.
Proof.
  intros Hi. unfold sample_alphas.
  rewrite nth_indep with (d' := g 0%nat) by (rewrite length_map, length_seq; exact Hi).
  rewrite (map_nth g (seq 0 n) 0%nat i). rewrite seq_nth by exact Hi. reflexivity.
Qed.

Lemma random_search_best (score : Qc -> Qc) (g : draws) (n : nat) :
  0 < n ->
  exists i,
    i < n /\
    cell_random_search score n g = Some (score (g i), g i) /\
    (forall j, j < n -> (score (g j) <= score (g i))%Qc) /\
    (forall j, j < i -> (score (g j) < score (g i))%Qc).
Proof.
  intros Hn. unfold cell_random_search.
  pose proof (sample_alphas_length n g) as Hlen.
  pose proof (fun i d => @sample_alphas_nth n g i d) as Hnth.
  destruct (sample_alphas n g) as [|a0 l]; [simpl in Hlen; lia|].
  destruct (best_candidate_first_best score a0 l)
    as (pre & b & post & Hsplit & Hbest & Hpre & Hpost).
  rewrite Hsplit in Hlen, Hnth. rewrite length_app in Hlen. simpl in Hlen.
  assert (Hb : g (List.length pre) = b).
  { rewrite <- (Hnth (List.length pre) b) by lia. apply nth_middle. }
  exists (List.length pre). rewrite Hb.
  split; [lia|]. split; [rewrite Hbest; reflexivity|].
  rewrite Forall_forall in Hpre, Hpost. split.
  - intros j Hj. rewrite <- (Hnth j b Hj).
    destruct (Nat.lt_ge_cases j (List.length pre)) as [Hlt|Hge].
    + rewrite app_nth1 by exact Hlt. apply Qclt_le_weak. apply Hpre.
      apply nth_In. exact Hlt.
    + rewrite app_nth2 by exact Hge.
      destruct (j - List.length pre) as [|k] eqn:Ek; [apply Qcle_refl|].
      simpl. apply Hpost. apply nth_In. lia.
  - intros j Hj. rewrite <- (Hnth j b) by lia.
    rewrite app_nth1 by exact Hj. apply Hpre. apply nth_In. exact Hj.
Qed.

(** The randomized search prints one of the [n_iter] values drawn, the first
    that no drawn value beats, with its score; drawn from the uniform
    distribution the value lies in [0, 1).  More iterations over the same
    draws never lower the best score. *)
Theorem random_search_first_best (score : Qc -> Qc) (g : draws) (n : nat) :
  (n = 0%nat -> cell_random_search score n g = None) /\
  (0 < n ->
   exists i,
     i < n /\
     cell_random_search score n g = Some (score (g i), g i) /\
     (forall j, j < n -> (score (g j) <= score (g i))%Qc) /\
     (forall j, j < i -> (score (g j) < score (g i))%Qc) /\
     (uniform01 g -> (Q2Qc 0 <= g i /\ g i < Q2Qc 1)%Qc) /\
     (forall n' r, n <= n' -> cell_random_search score n' g = Some r ->
                   (score (g i) <= fst r)%Qc)).
Proof.
  split; [intros ->; reflexivity|].
  intros Hn. destruct (random_search_best score g Hn) as (i & Hi & Hcell & Hmax & Hfirst).
  exists i. split; [exact Hi|]. split; [exact Hcell|]. split; [exact Hmax|].
  split; [exact Hfirst|]. split; [intros Hg; apply Hg|].
  intros n' r Hle Hr.
  destruct (random_search_best score g (n := n')) as (i' & Hi' & Hcell' & Hmax' & _);
    [lia|].
  rewrite Hcell' in Hr. injection Hr as <-. simpl. apply Hmax'. lia.
Qed.

Lemma grid_search_first_best_witness :
  grid_alphas <> [] /\
  exists pre b post,
    grid_alphas = (pre ++ b :: post)%list /\
    cell_grid_search (fun a => (a * (Q2Qc 1 - a))%Qc) grid_alphas
    = Some ((b * (Q2Qc 1 - b))%Qc, b).
Proof.
  assert (H : grid_alphas <> []) by (intros E; discriminate E).
  split; [exact H|].
  destruct (proj2 (grid_search_first_best (fun a => (a * (Q2Qc 1 - a))%Qc) grid_alphas) H)
    as (pre & b & post & Hsplit & Hcell & _).
  exists pre, b, post. split; [exact Hsplit|exact Hcell].
Defined.

Lemma random_search_first_best_witness :
  exists i,
    i < 100 /\
    cell_random_search (fun a => a) 100 (fun k => frac (Z.of_nat k) 100)
    = Some (frac (Z.of_nat i) 100, frac (Z.of_nat i) 100).
Proof.
  destruct (proj2 (random_search_first_best (fun a => a)
                     (fun k => frac (Z.of_nat k) 100) 100))
    as (i & Hi & Hcell & _); [lia|].
  exists i. split; [exact Hi|exact Hcell].
Defined.

(** * The cells of the SVD notebook, run from their source

    The functions [cell_svd], [cell_reconstruct_rect] and the others were
    written by hand from the cells.  Here the statements of each cell are run
    by the kernel of the section above, with NumPy's operations on exact
    arrays as the interpretation, and compared with those functions.

    Arrays are objects: a name holds a reference, [Sigma[:n, :n] = ...]
    changes the object in place.  [.T] and slices are modelled as new
    objects; NumPy returns views, which differ only if they are assigned
    into, and no cell does that.  The interpretation covers the operations
    the cells perform; any other (an index out of range, a negative index,
    arithmetic between arrays) is answered with [TypeError]. *)

Section NumPyKernel.
Context {K : Scalar}.
Add Field Kfield_kernel : (@scalar_field K).

(** The library routines: [scipy.linalg.svd], [numpy.linalg.svd] and
    [numpy.linalg.pinv]; and what [print] writes for an array. *)
Variables scipy_svd numpy_svd : svd_fn.
Variable linalg_pinv : pinv_fn.

Inductive object : Type :=
| ONd (A : ndarray)          (* a two-dimensional array *)
| OVec (s : list car).       (* a one-dimensional array *)

Variable show : object -> string.

Inductive value : Type :=
| VNum (n : Z) (d : positive)       (* the number n/d: a literal, a length *)
| VList (items : list value)
| VTuple (items : list value)
| VRef (loc : nat)                  (* an array object *)
| VFunction (module name : string)  (* an imported name *)
| VMethod (self : value) (name : string)
| VSlice (stop : option nat)        (* [:] and [:stop] *)
| VText (s : string).

Definition heap : Type := list object.

Definition alloc (o : object) (w : heap) : result (value * heap) :=
  Ok (VRef (List.length w), (w ++ [o])%list).

Fixpoint store (w : heap) (loc : nat) (o : object) : heap :=
  match w, loc with
  | [], _ => []
  | _ :: rest, O => o :: rest
  | o' :: rest, S l => o' :: store rest l o
  end.

(** The scalar of a literal: [12] is [(12, 1)], [0.1] is [(1, 10)]. *)
Definition number_value (n : Z) (d : positive) : car :=
  if (d =? 1)%positive then of_Z n else fdiv (of_Z n) (of_Z (Zpos d)).

Definition parse_number (s : string) : option (Z * positive) :=
  match int_literal (Num s) with
  | Some z => Some (z, 1%positive)
  | None =>
      match tenths_literal (Num s) with
      | Some z => Some (z, 10%positive)
      | None => None
      end
  end.

Definition as_number (v : value) : option car :=
  match v with
  | VNum n d => Some (number_value n d)
  | _ => None
  end.

Definition as_row (v : value) : option (list car) :=
  match v with
  | VList items => all_some (map as_number items)
  | _ => None
  end.

(** A number used as a length or an index. *)
Definition as_nat (v : value) : option nat :=
  match v with
  | VNum n d => if (d =? 1)%positive && (0 <=? n)%Z then Some (Z.to_nat n) else None
  | _ => None
  end.

Definition of_length (n : nat) : value := VNum (Z.of_nat n) 1.

(** [array(rows)] and [array(items)] *)
Definition np_array (arg : value) (w : heap) : result (value * heap) :=
  match arg with
  | VList items =>
      match all_some (map as_row items) with
      | Some rows => alloc (ONd (array rows)) w
      | None =>
          match all_some (map as_number items) with
          | Some s => alloc (OVec s) w
          | None => Raise TypeError
          end
      end
  | _ => Raise TypeError
  end.

(** [c / s] for a number and a vector, elementwise; see [reciprocal]. *)
Fixpoint vector_rdiv (c : car) (s : list car) : result (list car) :=
  match s with
  | [] => Ok []
  | x :: s' =>
      if is_zero x then Raise DivideByZero
      else d <- vector_rdiv c s' ;; Ok (fdiv c x :: d)
  end.

Definition np_svd (svd : svd_fn) (arg : value) (w : heap) : result (value * heap) :=
  match arg with
  | VRef l =>
      match nth_error w l with
      | Some (ONd A) =>
          ' (U, s, VT) <- svd A ;;
          Ok (VTuple [VRef (List.length w); VRef (S (List.length w));
                      VRef (S (S (List.length w)))],
              (w ++ [ONd U; OVec s; ONd VT])%list)
      | _ => Raise TypeError
      end
  | _ => Raise TypeError
  end.

Definition np_pinv (arg : value) (w : heap) : result (value * heap) :=
  match arg with
  | VRef l =>
      match nth_error w l with
      | Some (ONd A) => B <- linalg_pinv A ;; alloc (ONd B) w
      | _ => Raise TypeError
      end
  | _ => Raise TypeError
  end.

Definition np_zeros (arg : value) (w : heap) : result (value * heap) :=
  match arg with
  | VTuple [m; n] =>
      match as_nat m, as_nat n with
      | Some m, Some n => alloc (ONd (zeros (m, n))) w
      | _, _ => Raise TypeError
      end
  | _ => Raise TypeError
  end.

(** [diag(s)] of a vector is the diagonal array, of an array its diagonal. *)
Definition np_diag (arg : value) (w : heap) : result (value * heap) :=
  match arg with
  | VRef l =>
      match nth_error w l with
      | Some (OVec s) => alloc (ONd (diag s)) w
      | Some (ONd A) =>
          alloc (OVec (map (fun i => entry A i i)
                           (seq 0 (Nat.min (shape0 A) (shape1 A))))) w
      | None => Raise TypeError
      end
  | _ => Raise TypeError
  end.

Definition np_dot (self arg : value) (w : heap) : result (value * heap) :=
  match self, arg with
  | VRef l, VRef l' =>
      match nth_error w l, nth_error w l' with
      | Some (ONd A), Some (ONd B) => C <- dot A B ;; alloc (ONd C) w
      | _, _ => Raise TypeError
      end
  | _, _ => Raise TypeError
  end.

Definition np_call (f : value) (args : list value) (w : heap) : result (value * heap) :=
  match f, args with
  | VFunction m n, [arg] =>
      if String.eqb m "numpy" && String.eqb n "array" then np_array arg w
      else if String.eqb m "numpy" && String.eqb n "zeros" then np_zeros arg w
      else if String.eqb m "numpy" && String.eqb n "diag" then np_diag arg w
      else if String.eqb m "scipy.linalg" && String.eqb n "svd" then np_svd scipy_svd arg w
      else if String.eqb m "numpy.linalg" && String.eqb n "svd" then np_svd numpy_svd arg w
      else if String.eqb m "numpy.linalg" && String.eqb n "pinv" then np_pinv arg w
      else Raise TypeError
  | VMethod self name, [arg] =>
      if String.eqb name "dot" then np_dot self arg w else Raise TypeError
  | _, _ => Raise TypeError
  end.

Definition np_getattr (attr : string) (v : value) (w : heap) : result (value * heap) :=
  match v with
  | VRef l =>
      match nth_error w l with
      | Some (ONd A) =>
          if String.eqb attr "shape"
          then Ok (VTuple [of_length (shape0 A); of_length (shape1 A)], w)
          else if String.eqb attr "T" then alloc (ONd (transpose A)) w
          else if String.eqb attr "dot" then Ok (VMethod v "dot", w)
          else Raise TypeError
      | Some (OVec s) =>
          if String.eqb attr "shape" then Ok (VTuple [of_length (List.length s)], w)
          else if String.eqb attr "T" then Ok (v, w)
          else Raise TypeError
      | None => Raise TypeError
      end
  | _ => Raise TypeError
  end.

(** [A[rows, cols]] for two slices. *)
Definition slice2 (rows cols : option nat) (A : ndarray) : ndarray :=
  let A1 := match rows with Some k => rows_upto k A | None => A end in
  match cols with Some k => cols_upto k A1 | None => A1 end.

Definition np_getitem (v : value) (idx : list value) (w : heap) : result (value * heap) :=
  match v, idx with
  | VTuple items, [i] =>
      match as_nat i with
      | Some i =>
          match nth_error items i with
          | Some x => Ok (x, w)
          | None => Raise TypeError
          end
      | None => Raise TypeError
      end
  | VRef l, [VSlice rows; VSlice cols] =>
      match nth_error w l with
      | Some (ONd A) => alloc (ONd (slice2 rows cols A)) w
      | _ => Raise TypeError
      end
  | _, _ => Raise TypeError
  end.

(** [A[:r, :c] = V], in place. *)
Definition np_setitem (v new : value) (idx : list value) (w : heap)
  : result (value * heap) :=
  match v, new, idx with
  | VRef l, VRef l', [VSlice (Some r); VSlice (Some c)] =>
      match nth_error w l, nth_error w l' with
      | Some (ONd A), Some (ONd V) =>
          A' <- setitem_block A r c V ;; Ok (v, store w l (ONd A'))
      | _, _ => Raise TypeError
      end
  | _, _, _ => Raise TypeError
  end.

Definition np_binop (op : binop) (l r : value) (w : heap) : result (value * heap) :=
  match op, l, r with
  | Div, VNum n d, VRef loc =>
      match nth_error w loc with
      | Some (OVec s) => q <- vector_rdiv (number_value n d) s ;; alloc (OVec q) w
      | _ => Raise TypeError
      end
  | _, _, _ => Raise TypeError
  end.

Definition np_repr (v : value) (w : heap) : result (value * heap) :=
  match v with
  | VRef l =>
      match nth_error w l with
      | Some o => Ok (VText (show o), w)
      | None => Raise TypeError
      end
  | VText s => Ok (v, w)
  | _ => Raise TypeError
  end.

Definition np_operate (op : opcode) (args : list value) (w : heap)
  : result (value * heap) :=
  match op, args with
  | OpNum s, [] =>
      match parse_number s with
      | Some (n, d) => Ok (VNum n d, w)
      | None => Raise TypeError
      end
  | OpStr s, [] => Ok (VText s, w)
  | OpSliceAll, [] => Ok (VSlice None, w)
  | OpSliceTo, [k] =>
      match as_nat k with
      | Some k => Ok (VSlice (Some k), w)
      | None => Raise TypeError
      end
  | OpList, items => Ok (VList items, w)
  | OpTuple, items => Ok (VTuple items, w)
  | OpImport m n, [] => Ok (VFunction m n, w)
  | OpGetAttr a, [v] => np_getattr a v w
  | OpCall, f :: rest => np_call f rest w
  | OpBinOp b, [l; r] => np_binop b l r w
  | OpGetItem, v :: idx => np_getitem v idx w
  | OpSetItem, v :: new :: idx => np_setitem v new idx w
  | OpRepr, [v] => np_repr v w
  | _, _ => Raise TypeError
  end.

(** [a, b, c = v] *)
Definition np_unpack (n : nat) (v : value) (w : heap) : result (list value * heap) :=
  match v with
  | VTuple items | VList items =>
      if Nat.eqb (List.length items) n then Ok (items, w) else Raise ValueError
  | _ => Raise TypeError
  end.

Definition numpy_python : python value heap := {|
  builtin := fun _ => None;
  operate := np_operate;
  unpack := np_unpack;
  text := fun v => match v with VText s => s | _ => "" end
|}.

(** What a run shows against what a cell function returns: the same texts
    and no error; or the same error, after the text [first] at least. *)
Definition runs_as (r : list string * option exn * heap) (first : string)
           (model : result (list string)) : Prop :=
  match model with
  | Ok texts => fst r = (texts, None)
  | Raise e => snd (fst r) = Some e /\ hd_error (fst (fst r)) = Some first
  end.

Definition run_numpy (c : cell) : list string * option exn * heap :=
  run_cell numpy_python (body_of c) (empty_namespace value) [].

Ltac run_compute :=
  cbv -[dot diag zeros setitem_block transpose matmul rows_upto cols_upto
        reciprocal vector_rdiv of_Z fdiv scipy_svd numpy_svd linalg_pinv show].

Ltac run_case :=
  match goal with
  | |- context [scipy_svd ?a] => destruct (scipy_svd a) as [[[? ?] ?]|?]
  | |- context [numpy_svd ?a] => destruct (numpy_svd a) as [[[? ?] ?]|?]
  | |- context [linalg_pinv ?a] => destruct (linalg_pinv a) as [?|?]
  | |- context [vector_rdiv ?c ?s] => destruct (vector_rdiv c s) as [?|?]
  | |- context [reciprocal ?s] => destruct (reciprocal s) as [?|?]
  | |- context [setitem_block ?a ?r ?c ?v] => destruct (setitem_block a r c v) as [?|?]
  | |- context [dot ?a ?b] => destruct (dot a b) as [?|?]
  end.

Ltac run_symbolically :=
  unfold runs_as, run_numpy, run_cell;
  run_compute; repeat (run_case; run_compute); try (split; reflexivity); try reflexivity.

(** Cells 6, 12 and 14, run from their source, print their matrix and then
    what [cell_svd], [cell_reconstruct_rect] and [cell_reconstruct_square]
    return, or stop after the matrix with the error these return. *)
Theorem svd_cells_run_as_modelled :
  runs_as (run_numpy svd_cell_6) (show (ONd cell_12_A))
          (r <- cell_svd scipy_svd cell_12_A ;;
           let '(A, U, s, VT) := r in
           Ok [show (ONd A); show (ONd U); show (OVec s); show (ONd VT)]) /\
  runs_as (run_numpy svd_cell_12) (show (ONd cell_12_A))
          (r <- cell_reconstruct_rect scipy_svd cell_12_A ;;
           let '(A, B) := r in Ok [show (ONd A); show (ONd B)]) /\
  runs_as (run_numpy svd_cell_14) (show (ONd cell_14_A))
          (r <- cell_reconstruct_square scipy_svd cell_14_A ;;
           let '(A, B) := r in Ok [show (ONd A); show (ONd B)]).
Proof.
  unfold cell_svd, cell_reconstruct_rect, cell_reconstruct_square.
  split; [|split]; run_symbolically.
Qed.

Lemma vector_rdiv_one (c : car) (s : list car) :
  c = fone -> vector_rdiv c s = reciprocal s.
Proof.
  intros ->. induction s as [|x s IH]; simpl; [reflexivity|].
  rewrite IH. reflexivity.
Qed.

Lemma ten_tenths : of_Z 10 <> fzero -> fdiv (of_Z 10) (of_Z 10) = fone.
Proof. intros H. field. exact H. Qed.

(** Cells 25 and 29, run from their source, print their matrix and then
    what [cell_pinv] and [cell_pinv_svd] return, or stop with the error
    these return.  (The literal [1.0] is read as ten tenths.) *)
Theorem pinv_cells_run_as_modelled :
  of_Z 10 <> fzero ->
  runs_as (run_numpy svd_cell_25) (show (ONd cell_29_A))
          (r <- cell_pinv linalg_pinv cell_29_A ;;
           let '(A, B) := r in Ok [show (ONd A); show (ONd B)]) /\
  runs_as (run_numpy svd_cell_29) (show (ONd cell_29_A))
          (r <- cell_pinv_svd numpy_svd cell_29_A ;;
           let '(A, B) := r in Ok [show (ONd A); show (ONd B)]).
Proof.
  intros H10. unfold cell_pinv, cell_pinv_svd. split; [run_symbolically|].
  unfold runs_as, run_numpy, run_cell. run_compute.
  run_case; run_compute; [|split; reflexivity].
  rewrite vector_rdiv_one by (apply ten_tenths; exact H10).
  repeat (run_case; run_compute); try (split; reflexivity); reflexivity.
Qed.

(** Cell 37, run from its source, prints its matrix and then the
    approximation and the two transforms that [cell_reduce] returns for two
    elements, or stops with the error it returns. *)
Theorem reduce_cell_runs_as_modelled :
  runs_as (run_numpy svd_cell_37) (show (ONd cell_37_A))
          (r <- cell_reduce scipy_svd 2 cell_37_A ;;
           let '(A, B, T1, T2) := r in
           Ok [show (ONd A); show (ONd B); show (ONd T1); show (ONd T2)]).
Proof.
  unfold cell_reduce. run_symbolically.
Qed.

End NumPyKernel.

Lemma pinv_cells_run_as_modelled_witness :
  of_Z (K := QcScalar) 10 <> fzero /\
  runs_as (run_numpy ex_svd ex_svd (numpy_pinv ex_svd rcond_default)
                     (fun _ => "array") svd_cell_29)
          "array"
          (r <- cell_pinv_svd ex_svd cell_29_A ;;
           let '(A, B) := r in Ok ["array"; "array"]).
Proof.
  assert (H10 : of_Z (K := QcScalar) 10 <> fzero) by (intros E; discriminate E).
  split; [exact H10|].
  apply (proj2 (pinv_cells_run_as_modelled ex_svd ex_svd
                  (numpy_pinv ex_svd rcond_default)
                  (fun _ => "array") H10)).
Defined.

(** * The cells of the tensor notebook, run from their source

    The same kernel, with NumPy's integer arrays as the interpretation.  The
    notebook runs on Python 2: [/] between integer arrays is floor division.
    No cell changes an array in place, so arrays are values here.  Again
    only the operations of the cells are interpreted, on arrays of the
    depths the cells use; any other is answered with [TypeError]. *)

Inductive tvalue : Type :=
| TNum (z : Z)
| TList (items : list tvalue)
| TTuple (items : list tvalue)
| TVector (a : tensor1)
| TMatrix (a : tensor2)
| TTensor (a : tensor3)
| TFunction (module name : string)
| TKeyword (arg : string) (v : tvalue)
| TText (s : string).

Definition as_int (v : tvalue) : option Z :=
  match v with
  | TNum z => Some z
  | _ => None
  end.

Definition as_items (A : Type) (item : tvalue -> option A) (v : tvalue) : option (list A) :=
  match v with
  | TList items => all_some (map item items)
  | _ => None
  end.

(** [array(nested list)]: as deep as the list is nested. *)
Definition tensor_array (arg : tvalue) : result tvalue :=
  match as_items (as_items (as_items as_int)) arg with
  | Some T => Ok (TTensor T)
  | None =>
      match as_items (as_items as_int) arg with
      | Some M => Ok (TMatrix M)
      | None =>
          match as_items as_int arg with
          | Some a => Ok (TVector a)
          | None => Raise TypeError
          end
      end
  end.

Definition tensor_binop (op : binop) (l r : tvalue) : result tvalue :=
  match l, r with
  | TTensor A, TTensor B =>
      match op with
      | Add => C <- tensor_add A B ;; Ok (TTensor C)
      | Sub => C <- tensor_sub A B ;; Ok (TTensor C)
      | Mult => C <- tensor_mul A B ;; Ok (TTensor C)
      | Div => C <- tensor_div A B ;; Ok (TTensor C)
      | BitXor => Raise TypeError
      end
  | _, _ => Raise TypeError
  end.

Definition tensor_call (f : tvalue) (args : list tvalue) : result tvalue :=
  match f, args with
  | TFunction m n, [arg] =>
      if String.eqb m "numpy" && String.eqb n "array" then tensor_array arg
      else Raise TypeError
  | TFunction m n, [TVector a; TVector b; TKeyword k (TNum 0)] =>
      if String.eqb m "numpy" && String.eqb n "tensordot" && String.eqb k "axes"
      then Ok (TMatrix (tensordot0 a b))
      else Raise TypeError
  | _, _ => Raise TypeError
  end.

Definition newline : string := String (ascii_of_nat 10) "".

(** The text [print] writes: its lines, joined. *)
Definition tensor_repr (v : tvalue) : result tvalue :=
  match v with
  | TTensor T => Ok (TText (String.concat newline (print_tensor3 T)))
  | TMatrix M => Ok (TText (String.concat newline (print_tensor2 M)))
  | TTuple [TNum a; TNum b; TNum c] =>
      Ok (TText (print_shape3 (Z.to_nat a, Z.to_nat b, Z.to_nat c)))
  | TText s => Ok v
  | _ => Raise TypeError
  end.

Definition tensor_operate (op : opcode) (args : list tvalue) (w : unit)
  : result (tvalue * unit) :=
  match op, args with
  | OpNum s, [] =>
      match int_literal (Num s) with
      | Some z => Ok (TNum z, w)
      | None => Raise TypeError
      end
  | OpStr s, [] => Ok (TText s, w)
  | OpList, items => Ok (TList items, w)
  | OpTuple, items => Ok (TTuple items, w)
  | OpImport m n, [] => Ok (TFunction m n, w)
  | OpKw a, [v] => Ok (TKeyword a v, w)
  | OpGetAttr a, [TTensor T] =>
      if String.eqb a "shape"
      then let '(m, n, p) := shape3 T in
           Ok (TTuple [TNum (Z.of_nat m); TNum (Z.of_nat n); TNum (Z.of_nat p)], w)
      else Raise TypeError
  | OpCall, f :: rest => v <- tensor_call f rest ;; Ok (v, w)
  | OpBinOp b, [l; r] => v <- tensor_binop b l r ;; Ok (v, w)
  | OpRepr, [v] => t <- tensor_repr v ;; Ok (t, w)
  | _, _ => Raise TypeError
  end.

Definition tensor_python : python tvalue unit := {|
  builtin := fun _ => None;
  operate := tensor_operate;
  unpack := fun _ _ _ => Raise TypeError;
  text := fun v => match v with TText s => s | _ => "" end
|}.

Definition run_tensor_cell (c : cell) : list string * option exn * unit :=
  run_cell tensor_python (body_of c) (empty_namespace tvalue) tt.

(** A run that raises nothing and prints the recorded output of the cell. *)
Definition reproduces_output (c : cell) : bool :=
  match snd (fst (run_tensor_cell c)) with
  | None => String.eqb (String.concat newline (fst (fst (run_tensor_cell c))))
                       (String.concat newline (outputs c))
  | Some _ => false
  end.

(** The executed cells of the tensor notebook, run from their source, raise
    nothing and print, line by line, the output the notebook records. *)
Theorem tensor_cells_run_as_recorded :
  kernel tensors_notebook = Python2 /\
  map index (filter executed (cells tensors_notebook)) = [5; 9; 13; 17; 21; 31] /\
  Forall (fun c =>
            snd (fst (run_tensor_cell c)) = None /\
            String.concat newline (fst (fst (run_tensor_cell c)))
            = String.concat newline (outputs c))
         (filter executed (cells tensors_notebook)).
Proof.
  split; [reflexivity|]. split; [reflexivity|].
  apply Forall_by_forallb with (f := reproduces_output).
  - intros c Hc. unfold reproduces_output in Hc.
    destruct (snd (fst (run_tensor_cell c))); [discriminate Hc|].
    split; [reflexivity|]. apply String.eqb_eq. exact Hc.
  - vm_compute. reflexivity.
Qed.
